(** * System Monitor Pro: the sampling-and-presentation loop of gui_monitor.py

    A shallow embedding of the helper functions [get_size] and
    [get_color_by_usage], of the widget state that [SystemMonitorApp] keeps
    between ticks, of one pass of [update_ui_loop] and of one cycle of the
    background [check_ping_logic], followed by the properties of the
    specification that can be stated over them.

    Conventions.
    - A Python number is an [int] (unbounded, [Z]) or a finite [float]
      (IEEE binary64, represented by its exact rational value).  Every
      arithmetic result that Python rounds is rounded here by [b64_round].
    - Code that may raise returns an [outcome]; code that mutates widgets
      and may raise runs in the monad [M] over the application state.
    - The metrics library is outside the repository: one tick receives its
      answers in a [Sample] record whose fields have the types the library
      documents (percentages are floats, byte counts are ints). *)

From Stdlib Require Import ZArith QArith Qabs Qpower Lqa String Ascii List Lia Bool.
From Stdlib Require Import DecimalString.
Import ListNotations.
Open Scope string_scope.
Open Scope Z_scope.

(** ** Exceptions and results *)

Inductive exn := OverflowError | ZeroDivisionError | OSError.

Inductive outcome (A : Type) : Type :=
| Returns (a : A)
| Raises (e : exn).
Arguments Returns {A} a.
Arguments Raises {A} e.

Definition bind {A B} (m : outcome A) (k : A -> outcome B) : outcome B :=
  match m with
  | Returns a => k a
  | Raises e => Raises e
  end.

Notation "x <- m ;; k" := (bind m (fun x => k))
  (at level 61, m at next level, right associativity).

(** ** Python numbers *)

Module PyNum.

Inductive pynum := PyInt (n : Z) | PyFloat (x : Q).

(** Nearest integer to [a / b] for [b > 0], ties to the even neighbour. *)
Definition Zdiv_half_even (a b : Z) : Z :=
  let q := a / b in
  match (2 * (a mod b)) ?= b with
  | Lt => q
  | Gt => q + 1
  | Eq => if Z.even q then q else q + 1
  end.

(** [scale2 a b e] is the fraction [(a / b) / 2^e], as numerator and
    denominator; [scale10] likewise for powers of ten. *)
Definition scale2 (a b e : Z) : Z * Z :=
  if 0 <=? e then (a, b * 2 ^ e) else (a * 2 ^ (- e), b).

Definition scale10 (a b e : Z) : Z * Z :=
  if 0 <=? e then (a, b * 10 ^ e) else (a * 10 ^ (- e), b).

Definition frac_ge1 (f : Z * Z) : bool := snd f <=? fst f.

(** floor (log2 (a / b)) for positive [a] and [b]. *)
Definition ilog2_frac (a b : Z) : Z :=
  let k := Z.log2 a - Z.log2 b in
  if frac_ge1 (scale2 a b k) then k else k - 1.

Definition pow2Q (e : Z) : Q :=
  if 0 <=? e then inject_Z (2 ^ e) else 1 # Z.to_pos (2 ^ (- e)).

Definition pow10Q (e : Z) : Q :=
  if 0 <=? e then inject_Z (10 ^ e) else 1 # Z.to_pos (10 ^ (- e)).

(** Exponent of the unit in the last place of the binary64 nearest to
    [a / b]: 53 significant bits, subnormal below 2^-1022. *)
Definition b64_ulp_exp (a b : Z) : Z :=
  Z.max (ilog2_frac a b - 52) (-1074).

(** Round a rational to the nearest binary64 value, ties to even. *)
Definition b64_round (q : Q) : Q :=
  match Qnum q with
  | Z0 => 0%Q
  | n =>
      let d := Zpos (Qden q) in
      let e := b64_ulp_exp (Z.abs n) d in
      let '(A, B) := scale2 n d e in
      Qred (inject_Z (Zdiv_half_even A B) * pow2Q e)
  end.

(** The largest finite binary64. *)
Definition b64_max : Q := inject_Z (2 ^ 1024 - 2 ^ 971).

Definition b64_finite (x : Q) : bool := Qle_bool (Qabs x) b64_max.

(** Conversions that Python checks: [float(n)] and [int / int] raise
    OverflowError when the rounded result is not finite. *)
Definition to_float_checked (q : Q) : outcome Q :=
  let x := b64_round q in
  if b64_finite x then Returns x else Raises OverflowError.

Definition float_of_int (n : Z) : outcome Q := to_float_checked (inject_Z n).

Definition value (v : pynum) : Q :=
  match v with PyInt n => inject_Z n | PyFloat x => x end.

(** [a < b] and [a == b]: Python compares ints and floats exactly. *)
Definition py_lt (a b : pynum) : bool :=
  negb (Qle_bool (value b) (value a)).

Definition py_eq (a b : pynum) : bool := Qeq_bool (value a) (value b).

(** [a / d] for an int divisor [d]. *)
Definition py_truediv (a : pynum) (d : Z) : outcome pynum :=
  if d =? 0 then Raises ZeroDivisionError else
  match a with
  | PyInt n =>
      x <- to_float_checked (Qmake (n * Z.sgn d) (Z.to_pos (Z.abs d))) ;;
      Returns (PyFloat x)
  | PyFloat x =>
      fd <- float_of_int d ;;
      Returns (PyFloat (b64_round (x / fd)))
  end.

(** [c - a] for an int constant [c]. *)
Definition py_rsub (c : Z) (a : pynum) : outcome pynum :=
  match a with
  | PyInt n => Returns (PyInt (c - n))
  | PyFloat x =>
      fc <- float_of_int c ;;
      Returns (PyFloat (b64_round (fc - x)))
  end.

(** Decimal text of an integer. *)
Definition Zstr (n : Z) : string := NilZero.string_of_int (Z.to_int n).

Fixpoint zeros (n : nat) : string :=
  match n with O => EmptyString | S k => String "0" (zeros k) end.

Definition pad0 (width : nat) (s : string) : string :=
  zeros (width - String.length s) ++ s.

(** [format(x, ".{prec}f")] of a finite float: the exact value rounded
    half-even to [prec] decimals. *)
Definition format_fixed (prec : nat) (x : Q) : string :=
  let p10 := 10 ^ Z.of_nat prec in
  let scaled := Zdiv_half_even (Z.abs (Qnum x) * p10) (Zpos (Qden x)) in
  let sign := if Qnum x <? 0 then "-" else EmptyString in
  let ip := Zstr (scaled / p10) in
  match prec with
  | O => sign ++ ip
  | _ => sign ++ ip ++ "." ++ pad0 prec (Zstr (scaled mod p10))
  end.

(** [f"{v:.{prec}f}"]: an int is converted to float first. *)
Definition py_format_f (prec : nat) (v : pynum) : outcome string :=
  match v with
  | PyInt n => x <- float_of_int n ;; Returns (format_fixed prec x)
  | PyFloat x => Returns (format_fixed prec x)
  end.

(** floor (log10 (a / b)) for positive [a] and [b]. *)
Definition ilog10_frac (a b : Z) : Z :=
  let k := Z.of_nat (String.length (Zstr a))
           - Z.of_nat (String.length (Zstr b)) in
  if frac_ge1 (scale10 a b k) then k else k - 1.

(** The decimal [D * 10^e] reads back as the float [x]. *)
Definition reads_back (x : Q) (D e : Z) : bool :=
  Qeq_bool (b64_round (inject_Z D * pow10Q e)) x.

(** One round of the shortest-digits search of [repr]: with [p]
    significant digits, the two [p]-digit neighbours of [a / b] are tried,
    the nearer one first. *)
Definition repr_candidate (a b E : Z) (p : Z) : option Z :=
  let e := E - p + 1 in
  let '(A, B) := scale10 a b e in
  let lo := A / B in
  let near := Zdiv_half_even A B in
  let far := if near =? lo then lo + 1 else lo in
  let x := Qmake a (Z.to_pos b) in
  if reads_back x near e then Some near
  else if reads_back x far e then Some far
  else None.

Fixpoint repr_search (a b E : Z) (p : Z) (fuel : nat) : Z * Z :=
  match fuel with
  | O =>
      let '(A, B) := scale10 a b (E - p + 1) in (Zdiv_half_even A B, p)
  | S k =>
      match repr_candidate a b E p with
      | Some D => (D, p)
      | None => repr_search a b E (p + 1) k
      end
  end.

Fixpoint strip_zeros (fuel : nat) (D : Z) : Z :=
  match fuel with
  | O => D
  | S k =>
      if (D mod 10 =? 0) && negb (D =? 0)
      then strip_zeros k (D / 10) else D
  end.

Definition exp_text (e : Z) : string :=
  (if e <? 0 then "e-" else "e+") ++ pad0 2 (Zstr (Z.abs e)).

(** [repr(x)] of a finite float: the shortest digit string that reads
    back as [x], in positional notation when the decimal point falls
    within (-4, 16], in exponent notation otherwise. *)
Definition float_repr (x : Q) : string :=
  match Qnum x with
  | Z0 => "0.0"
  | n =>
      let a := Z.abs n in
      let b := Zpos (Qden x) in
      let E0 := ilog10_frac a b in
      let '(D0, p) := repr_search a b E0 1 16 in
      let E := if 10 ^ p <=? D0 then E0 + 1 else E0 in
      let digits := Zstr (strip_zeros 20 D0) in
      let nd := Z.of_nat (String.length digits) in
      let decpt := E + 1 in
      let sign := if n <? 0 then "-" else EmptyString in
      if (decpt <=? -4) || (16 <? decpt) then
        sign ++ substring 0 1 digits
             ++ (if 1 <? nd
                 then "." ++ substring 1 (String.length digits - 1) digits
                 else EmptyString)
             ++ exp_text E
      else if decpt <=? 0 then
        sign ++ "0." ++ zeros (Z.to_nat (- decpt)) ++ digits
      else if nd <=? decpt then
        sign ++ digits ++ zeros (Z.to_nat (decpt - nd)) ++ ".0"
      else
        sign ++ substring 0 (Z.to_nat decpt) digits ++ "."
             ++ substring (Z.to_nat decpt)
                          (String.length digits - Z.to_nat decpt) digits
  end.

(** [f"{v}"], that is [str(v)]. *)
Definition py_str (v : pynum) : string :=
  match v with
  | PyInt n => Zstr n
  | PyFloat x => float_repr x
  end.

End PyNum.
Import PyNum.

(** ** Configuration *)

Definition REFRESH_RATE : Z := 1000.
Definition COLOR_TEXT_DIM : string := "#A0A0A0".
Definition COLOR_GOOD : string := "#2CC985".
Definition COLOR_WARN : string := "#F2A33C".
Definition COLOR_CRIT : string := "#E04F5F".

(** The three severity bands of the specification are the three colours
    that [get_color_by_usage] can return. *)
Inductive band := Low | Medium | High.

Definition band_color (b : band) : string :=
  match b with
  | Low => COLOR_GOOD
  | Medium => COLOR_WARN
  | High => COLOR_CRIT
  end.

(** ** Helper functions *)

Definition factor : Z := 1024.
Definition units : list string := [EmptyString; "K"; "M"; "G"; "T"; "P"].

(** The [for unit in ...] loop of [get_size]; falling off the end of the
    loop is Python's implicit [return None]. *)
Fixpoint get_size_loop (us : list string) (bytes : pynum) (suffix : string)
  : outcome (option string) :=
  match us with
  | [] => Returns None
  | unit :: rest =>
      if py_lt bytes (PyInt factor) then
        s <- py_format_f 2 bytes ;;
        Returns (Some (s ++ unit ++ suffix))
      else
        bytes' <- py_truediv bytes factor ;;
        get_size_loop rest bytes' suffix
  end.

Definition get_size (bytes : pynum) (suffix : string)
  : outcome (option string) :=
  get_size_loop units bytes suffix.

Definition get_color_by_usage (percent : pynum) : string :=
  if py_lt percent (PyInt 50) then COLOR_GOOD
  else if py_lt percent (PyInt 80) then COLOR_WARN
  else COLOR_CRIT.

(** [f"{get_size(x)}"]: a [None] result is printed as the text None. *)
Definition str_of_size (r : option string) : string :=
  match r with
  | Some s => s
  | None => "None"
  end.

(** ['needle' in hay] on strings: substring test. *)
Fixpoint str_contains (needle hay : string) : bool :=
  prefix needle hay
  || match hay with
     | EmptyString => false
     | String _ rest => str_contains needle rest
     end.

(** ** The metrics source, as one tick sees it *)

Record snetio := { bytes_sent : Z; bytes_recv : Z }.

Record svmem :=
  { vm_total : Z; vm_available : Z; vm_percent : Q; vm_used : Z }.

Record sswap := { sw_total : Z; sw_used : Z; sw_percent : Q }.

Record sdiskpart :=
  { device : string; mountpoint : string; fstype : string; opts : string }.

Record sdiskusage := { du_total : Z; du_used : Z; du_percent : Q }.

(** The answers of the metrics library during one tick.  [disk_usage] is
    asked per mount point and may raise (permission denied, drive gone).
    Every other query is taken to answer, and with a value: a host where
    [psutil.cpu_freq()] or [psutil.net_io_counters()] returns [None] (the
    pass then raises [AttributeError] at line 338 or 410) is not described
    by a [Sample]. *)
Record Sample := {
  cpu_percent : Q;
  cpu_freq_current : Q;
  cpu_percent_percpu : list Q;
  virtual_memory : svmem;
  swap_memory : sswap;
  disk_partitions : list sdiskpart;
  disk_usage : string -> outcome sdiskusage;
  net_io_counters : snetio;
  system_uptime : string
}.

(** ** Widgets

    A widget records what the program last configured on it; [None] in an
    optional field means the program has not set it (the toolkit's default
    shows).  [bar_set] records the argument of [set]. *)

Record CTkLabel := { text : string; text_color : option string }.

Record CTkProgressBar :=
  { bar_value : option pynum; progress_color : option string }.

Definition new_label (t : string) : CTkLabel :=
  {| text := t; text_color := None |}.

Definition new_bar : CTkProgressBar :=
  {| bar_value := None; progress_color := None |}.

Definition configure_text (t : string) (l : CTkLabel) : CTkLabel :=
  {| text := t; text_color := text_color l |}.

Definition configure_text_color (t c : string) (l : CTkLabel) : CTkLabel :=
  {| text := t; text_color := Some c |}.

Definition bar_set (v : pynum) (b : CTkProgressBar) : CTkProgressBar :=
  {| bar_value := Some v; progress_color := progress_color b |}.

Definition bar_configure (c : string) (b : CTkProgressBar) : CTkProgressBar :=
  {| bar_value := bar_value b; progress_color := Some c |}.

(** ** Insertion-ordered dictionaries (Python's [dict]) *)

Section Dict.
Context {V : Type}.

Definition dict := list (string * V).

Definition dict_keys (d : dict) : list string := map fst d.

Fixpoint dict_get (k : string) (d : dict) : option V :=
  match d with
  | [] => None
  | (k', v) :: rest => if String.eqb k k' then Some v else dict_get k rest
  end.

(** [k in d] *)
Definition dict_mem (k : string) (d : dict) : bool :=
  match dict_get k d with Some _ => true | None => false end.

(** [d[k] = v]: an existing key keeps its position, a new key goes last. *)
Fixpoint dict_set (k : string) (v : V) (d : dict) : dict :=
  match d with
  | [] => [(k, v)]
  | (k', v') :: rest =>
      if String.eqb k k' then (k', v) :: rest
      else (k', v') :: dict_set k v rest
  end.

(** Mutation of the object stored under [k]. *)
Fixpoint dict_alter (f : V -> V) (k : string) (d : dict) : dict :=
  match d with
  | [] => []
  | (k', v') :: rest =>
      if String.eqb k k' then (k', f v') :: rest
      else (k', v') :: dict_alter f k rest
  end.
End Dict.
Arguments dict V : clear implicits.

(** Mutation of the element at index [i] of a list; no effect out of range
    (the caller checks the range). *)
Fixpoint list_alter {A} (f : A -> A) (i : nat) (l : list A) : list A :=
  match l, i with
  | [], _ => []
  | x :: rest, O => f x :: rest
  | x :: rest, S j => x :: list_alter f j rest
  end.

(** ** Application state: the fields of [SystemMonitorApp] that a tick
    reads or writes *)

Definition core_widget : Type := CTkLabel * CTkProgressBar.
Definition drive_widget : Type := CTkProgressBar * CTkLabel.

Record App := {
  old_net_io : snetio;
  ping_latency : pynum;
  lbl_uptime : CTkLabel;
  lbl_cpu_val : CTkLabel;
  prog_cpu : CTkProgressBar;
  lbl_cpu_freq : CTkLabel;
  core_widgets : list core_widget;
  lbl_ram_text : CTkLabel;
  prog_ram : CTkProgressBar;
  lbl_swap_text : CTkLabel;
  prog_swap : CTkProgressBar;
  (* the rows packed into drives_container, by their name label *)
  drives_container : list string;
  drive_widgets : dict drive_widget;
  lbl_ping : CTkLabel;
  lbl_down_val : CTkLabel;
  lbl_up_val : CTkLabel
}.

Definition set_old_net_io (v : snetio) (a : App) : App :=
  {| old_net_io := v; ping_latency := ping_latency a;
     lbl_uptime := lbl_uptime a; lbl_cpu_val := lbl_cpu_val a;
     prog_cpu := prog_cpu a; lbl_cpu_freq := lbl_cpu_freq a;
     core_widgets := core_widgets a; lbl_ram_text := lbl_ram_text a;
     prog_ram := prog_ram a; lbl_swap_text := lbl_swap_text a;
     prog_swap := prog_swap a; drives_container := drives_container a;
     drive_widgets := drive_widgets a; lbl_ping := lbl_ping a;
     lbl_down_val := lbl_down_val a; lbl_up_val := lbl_up_val a |}.

Definition set_ping_latency (v : pynum) (a : App) : App :=
  {| old_net_io := old_net_io a; ping_latency := v;
     lbl_uptime := lbl_uptime a; lbl_cpu_val := lbl_cpu_val a;
     prog_cpu := prog_cpu a; lbl_cpu_freq := lbl_cpu_freq a;
     core_widgets := core_widgets a; lbl_ram_text := lbl_ram_text a;
     prog_ram := prog_ram a; lbl_swap_text := lbl_swap_text a;
     prog_swap := prog_swap a; drives_container := drives_container a;
     drive_widgets := drive_widgets a; lbl_ping := lbl_ping a;
     lbl_down_val := lbl_down_val a; lbl_up_val := lbl_up_val a |}.

Definition upd_lbl_uptime (f : CTkLabel -> CTkLabel) (a : App) : App :=
  {| old_net_io := old_net_io a; ping_latency := ping_latency a;
     lbl_uptime := f (lbl_uptime a); lbl_cpu_val := lbl_cpu_val a;
     prog_cpu := prog_cpu a; lbl_cpu_freq := lbl_cpu_freq a;
     core_widgets := core_widgets a; lbl_ram_text := lbl_ram_text a;
     prog_ram := prog_ram a; lbl_swap_text := lbl_swap_text a;
     prog_swap := prog_swap a; drives_container := drives_container a;
     drive_widgets := drive_widgets a; lbl_ping := lbl_ping a;
     lbl_down_val := lbl_down_val a; lbl_up_val := lbl_up_val a |}.

Definition upd_lbl_cpu_val (f : CTkLabel -> CTkLabel) (a : App) : App :=
  {| old_net_io := old_net_io a; ping_latency := ping_latency a;
     lbl_uptime := lbl_uptime a; lbl_cpu_val := f (lbl_cpu_val a);
     prog_cpu := prog_cpu a; lbl_cpu_freq := lbl_cpu_freq a;
     core_widgets := core_widgets a; lbl_ram_text := lbl_ram_text a;
     prog_ram := prog_ram a; lbl_swap_text := lbl_swap_text a;
     prog_swap := prog_swap a; drives_container := drives_container a;
     drive_widgets := drive_widgets a; lbl_ping := lbl_ping a;
     lbl_down_val := lbl_down_val a; lbl_up_val := lbl_up_val a |}.

Definition upd_prog_cpu (f : CTkProgressBar -> CTkProgressBar) (a : App)
  : App :=
  {| old_net_io := old_net_io a; ping_latency := ping_latency a;
     lbl_uptime := lbl_uptime a; lbl_cpu_val := lbl_cpu_val a;
     prog_cpu := f (prog_cpu a); lbl_cpu_freq := lbl_cpu_freq a;
     core_widgets := core_widgets a; lbl_ram_text := lbl_ram_text a;
     prog_ram := prog_ram a; lbl_swap_text := lbl_swap_text a;
     prog_swap := prog_swap a; drives_container := drives_container a;
     drive_widgets := drive_widgets a; lbl_ping := lbl_ping a;
     lbl_down_val := lbl_down_val a; lbl_up_val := lbl_up_val a |}.

Definition upd_lbl_cpu_freq (f : CTkLabel -> CTkLabel) (a : App) : App :=
  {| old_net_io := old_net_io a; ping_latency := ping_latency a;
     lbl_uptime := lbl_uptime a; lbl_cpu_val := lbl_cpu_val a;
     prog_cpu := prog_cpu a; lbl_cpu_freq := f (lbl_cpu_freq a);
     core_widgets := core_widgets a; lbl_ram_text := lbl_ram_text a;
     prog_ram := prog_ram a; lbl_swap_text := lbl_swap_text a;
     prog_swap := prog_swap a; drives_container := drives_container a;
     drive_widgets := drive_widgets a; lbl_ping := lbl_ping a;
     lbl_down_val := lbl_down_val a; lbl_up_val := lbl_up_val a |}.

Definition upd_core_widgets
  (f : list core_widget -> list core_widget) (a : App) : App :=
  {| old_net_io := old_net_io a; ping_latency := ping_latency a;
     lbl_uptime := lbl_uptime a; lbl_cpu_val := lbl_cpu_val a;
     prog_cpu := prog_cpu a; lbl_cpu_freq := lbl_cpu_freq a;
     core_widgets := f (core_widgets a); lbl_ram_text := lbl_ram_text a;
     prog_ram := prog_ram a; lbl_swap_text := lbl_swap_text a;
     prog_swap := prog_swap a; drives_container := drives_container a;
     drive_widgets := drive_widgets a; lbl_ping := lbl_ping a;
     lbl_down_val := lbl_down_val a; lbl_up_val := lbl_up_val a |}.

Definition upd_lbl_ram_text (f : CTkLabel -> CTkLabel) (a : App) : App :=
  {| old_net_io := old_net_io a; ping_latency := ping_latency a;
     lbl_uptime := lbl_uptime a; lbl_cpu_val := lbl_cpu_val a;
     prog_cpu := prog_cpu a; lbl_cpu_freq := lbl_cpu_freq a;
     core_widgets := core_widgets a; lbl_ram_text := f (lbl_ram_text a);
     prog_ram := prog_ram a; lbl_swap_text := lbl_swap_text a;
     prog_swap := prog_swap a; drives_container := drives_container a;
     drive_widgets := drive_widgets a; lbl_ping := lbl_ping a;
     lbl_down_val := lbl_down_val a; lbl_up_val := lbl_up_val a |}.

Definition upd_prog_ram (f : CTkProgressBar -> CTkProgressBar) (a : App)
  : App :=
  {| old_net_io := old_net_io a; ping_latency := ping_latency a;
     lbl_uptime := lbl_uptime a; lbl_cpu_val := lbl_cpu_val a;
     prog_cpu := prog_cpu a; lbl_cpu_freq := lbl_cpu_freq a;
     core_widgets := core_widgets a; lbl_ram_text := lbl_ram_text a;
     prog_ram := f (prog_ram a); lbl_swap_text := lbl_swap_text a;
     prog_swap := prog_swap a; drives_container := drives_container a;
     drive_widgets := drive_widgets a; lbl_ping := lbl_ping a;
     lbl_down_val := lbl_down_val a; lbl_up_val := lbl_up_val a |}.

Definition upd_lbl_swap_text (f : CTkLabel -> CTkLabel) (a : App) : App :=
  {| old_net_io := old_net_io a; ping_latency := ping_latency a;
     lbl_uptime := lbl_uptime a; lbl_cpu_val := lbl_cpu_val a;
     prog_cpu := prog_cpu a; lbl_cpu_freq := lbl_cpu_freq a;
     core_widgets := core_widgets a; lbl_ram_text := lbl_ram_text a;
     prog_ram := prog_ram a; lbl_swap_text := f (lbl_swap_text a);
     prog_swap := prog_swap a; drives_container := drives_container a;
     drive_widgets := drive_widgets a; lbl_ping := lbl_ping a;
     lbl_down_val := lbl_down_val a; lbl_up_val := lbl_up_val a |}.

Definition upd_prog_swap (f : CTkProgressBar -> CTkProgressBar) (a : App)
  : App :=
  {| old_net_io := old_net_io a; ping_latency := ping_latency a;
     lbl_uptime := lbl_uptime a; lbl_cpu_val := lbl_cpu_val a;
     prog_cpu := prog_cpu a; lbl_cpu_freq := lbl_cpu_freq a;
     core_widgets := core_widgets a; lbl_ram_text := lbl_ram_text a;
     prog_ram := prog_ram a; lbl_swap_text := lbl_swap_text a;
     prog_swap := f (prog_swap a); drives_container := drives_container a;
     drive_widgets := drive_widgets a; lbl_ping := lbl_ping a;
     lbl_down_val := lbl_down_val a; lbl_up_val := lbl_up_val a |}.

Definition upd_drives_container
  (f : list string -> list string) (a : App) : App :=
  {| old_net_io := old_net_io a; ping_latency := ping_latency a;
     lbl_uptime := lbl_uptime a; lbl_cpu_val := lbl_cpu_val a;
     prog_cpu := prog_cpu a; lbl_cpu_freq := lbl_cpu_freq a;
     core_widgets := core_widgets a; lbl_ram_text := lbl_ram_text a;
     prog_ram := prog_ram a; lbl_swap_text := lbl_swap_text a;
     prog_swap := prog_swap a; drives_container := f (drives_container a);
     drive_widgets := drive_widgets a; lbl_ping := lbl_ping a;
     lbl_down_val := lbl_down_val a; lbl_up_val := lbl_up_val a |}.

Definition upd_drive_widgets
  (f : dict drive_widget -> dict drive_widget) (a : App) : App :=
  {| old_net_io := old_net_io a; ping_latency := ping_latency a;
     lbl_uptime := lbl_uptime a; lbl_cpu_val := lbl_cpu_val a;
     prog_cpu := prog_cpu a; lbl_cpu_freq := lbl_cpu_freq a;
     core_widgets := core_widgets a; lbl_ram_text := lbl_ram_text a;
     prog_ram := prog_ram a; lbl_swap_text := lbl_swap_text a;
     prog_swap := prog_swap a; drives_container := drives_container a;
     drive_widgets := f (drive_widgets a); lbl_ping := lbl_ping a;
     lbl_down_val := lbl_down_val a; lbl_up_val := lbl_up_val a |}.

Definition upd_lbl_ping (f : CTkLabel -> CTkLabel) (a : App) : App :=
  {| old_net_io := old_net_io a; ping_latency := ping_latency a;
     lbl_uptime := lbl_uptime a; lbl_cpu_val := lbl_cpu_val a;
     prog_cpu := prog_cpu a; lbl_cpu_freq := lbl_cpu_freq a;
     core_widgets := core_widgets a; lbl_ram_text := lbl_ram_text a;
     prog_ram := prog_ram a; lbl_swap_text := lbl_swap_text a;
     prog_swap := prog_swap a; drives_container := drives_container a;
     drive_widgets := drive_widgets a; lbl_ping := f (lbl_ping a);
     lbl_down_val := lbl_down_val a; lbl_up_val := lbl_up_val a |}.

Definition upd_lbl_down_val (f : CTkLabel -> CTkLabel) (a : App) : App :=
  {| old_net_io := old_net_io a; ping_latency := ping_latency a;
     lbl_uptime := lbl_uptime a; lbl_cpu_val := lbl_cpu_val a;
     prog_cpu := prog_cpu a; lbl_cpu_freq := lbl_cpu_freq a;
     core_widgets := core_widgets a; lbl_ram_text := lbl_ram_text a;
     prog_ram := prog_ram a; lbl_swap_text := lbl_swap_text a;
     prog_swap := prog_swap a; drives_container := drives_container a;
     drive_widgets := drive_widgets a; lbl_ping := lbl_ping a;
     lbl_down_val := f (lbl_down_val a); lbl_up_val := lbl_up_val a |}.

Definition upd_lbl_up_val (f : CTkLabel -> CTkLabel) (a : App) : App :=
  {| old_net_io := old_net_io a; ping_latency := ping_latency a;
     lbl_uptime := lbl_uptime a; lbl_cpu_val := lbl_cpu_val a;
     prog_cpu := prog_cpu a; lbl_cpu_freq := lbl_cpu_freq a;
     core_widgets := core_widgets a; lbl_ram_text := lbl_ram_text a;
     prog_ram := prog_ram a; lbl_swap_text := lbl_swap_text a;
     prog_swap := prog_swap a; drives_container := drives_container a;
     drive_widgets := drive_widgets a; lbl_ping := lbl_ping a;
     lbl_down_val := lbl_down_val a; lbl_up_val := f (lbl_up_val a) |}.

(** ** The monad of a tick: widget state and exceptions

    A computation receives the application state and gives back the state
    it leaves behind together with its result or the exception it raised:
    what was mutated before a [raise] stays mutated. *)

Definition M (A : Type) : Type := App -> App * outcome A.

Definition ret {A} (x : A) : M A := fun a => (a, Returns x).

Definition mbind {A B} (m : M A) (k : A -> M B) : M B :=
  fun a =>
    match m a with
    | (a', Returns x) => k x a'
    | (a', Raises e) => (a', Raises e)
    end.

Notation "x <~ m ;; k" := (mbind m (fun x => k))
  (at level 61, m at next level, right associativity).

Definition lift {A} (o : outcome A) : M A := fun a => (a, o).

Definition gets {A} (f : App -> A) : M A := fun a => (a, Returns (f a)).

Definition modify (f : App -> App) : M unit := fun a => (f a, Returns tt).

(** [try: body / except: handler], with a bare [except]. *)
Definition try_except (body handler : M unit) : M unit :=
  fun a =>
    match body a with
    | (a', Returns _) => (a', Returns tt)
    | (a', Raises _) => handler a'
    end.

(** [for x in xs: body(x)] *)
Fixpoint for_each {A} (xs : list A) (body : A -> M unit) : M unit :=
  match xs with
  | [] => ret tt
  | x :: rest => _ <~ body x ;; for_each rest body
  end.

(** ** Construction of the window (the parts a tick depends on) *)

(** The label and bar of core [i], as [create_cpu_section] builds them. *)
Definition new_core_widget (i : nat) : core_widget :=
  (new_label ("Core " ++ Zstr (Z.of_nat i + 1) ++ ": 0%"), new_bar).

(** [for i in range(min(psutil.cpu_count(), 32))]: one pair per core, at
    most 32 of them. *)
Definition create_cpu_section (cpu_count : nat) : list core_widget :=
  map new_core_widget (seq 0 (Nat.min cpu_count 32)).

(** The state at the end of [__init__], before the first tick, on a
    machine with [cpu_count] logical cores whose network counters read
    [net0]. *)
Definition init (cpu_count : nat) (net0 : snetio) : App :=
  {| old_net_io := net0;
     ping_latency := PyInt 0;
     lbl_uptime :=
       {| text := "System Uptime: ..."; text_color := Some COLOR_TEXT_DIM |};
     lbl_cpu_val := new_label "Used: 0% | Free: 100%";
     prog_cpu := new_bar;
     lbl_cpu_freq :=
       {| text := "Clock: 0 MHz"; text_color := Some COLOR_TEXT_DIM |};
     core_widgets := create_cpu_section cpu_count;
     lbl_ram_text := new_label "Total: 0GB | Used: 0GB | Free: 0GB";
     prog_ram := new_bar;
     lbl_swap_text := new_label "Total: 0GB | Used: 0GB | Free: 0GB";
     prog_swap := new_bar;
     drives_container := [];
     drive_widgets := [];
     lbl_ping := new_label "Ping: -- ms";
     lbl_down_val := {| text := "0.00 KB/s"; text_color := Some COLOR_GOOD |};
     lbl_up_val := {| text := "0.00 KB/s"; text_color := Some COLOR_WARN |} |}.

(** ** The latency prober *)

(** What one probe cycle observes: the connection was made after
    [elapsed_ms] milliseconds, or something inside the [try] raised (the
    one-second timeout included). *)
Inductive connect_result :=
| Connected (elapsed_ms : Q)
| ConnectFailed (e : exn).

(** One iteration of the [while True] loop of [check_ping_logic]. *)
Definition check_ping_logic (r : connect_result) (a : App) : App :=
  match r with
  | Connected elapsed_ms => set_ping_latency (PyFloat elapsed_ms) a
  | ConnectFailed _ => set_ping_latency (PyInt (-1)) a
  end.

(** ** One tick: [update_ui_loop] *)

(** Body of the per-core loop for index [i]. *)
Definition core_body (i : nat) (usage : Q) : M unit :=
  txt <~ lift (py_format_f 0 (PyFloat usage)) ;;
  _ <~ modify (upd_core_widgets (list_alter
         (fun w => (configure_text
                      ("Core " ++ Zstr (Z.of_nat i + 1) ++ ": " ++ txt ++ "%")
                      (fst w), snd w)) i)) ;;
  v <~ lift (py_truediv (PyFloat usage) 100) ;;
  _ <~ modify (upd_core_widgets (list_alter
         (fun w => (fst w, bar_set v (snd w))) i)) ;;
  modify (upd_core_widgets (list_alter
         (fun w => (fst w,
                    bar_configure (get_color_by_usage (PyFloat usage)) (snd w)))
         i)).

(** [for i, usage in enumerate(cores): if i < len(self.core_widgets): ...] *)
Fixpoint update_cores (i : nat) (cores : list Q) : M unit :=
  match cores with
  | [] => ret tt
  | usage :: rest =>
      n <~ gets (fun a => List.length (core_widgets a)) ;;
      _ <~ (if Nat.ltb i n then core_body i usage else ret tt) ;;
      update_cores (S i) rest
  end.

(** Step 1, UPDATE CPU: the header label, the clock label, the main bar,
    then the per-core loop. *)
Definition update_cpu (s : Sample) : M unit :=
  let cpu_pct := PyFloat (cpu_percent s) in
  cpu_free <~ lift (py_rsub 100 cpu_pct) ;;
  free_txt <~ lift (py_format_f 1 cpu_free) ;;
  _ <~ modify (upd_lbl_cpu_val (configure_text
         ("Used: " ++ py_str cpu_pct ++ "% | Free: " ++ free_txt ++ "%"))) ;;
  freq_txt <~ lift (py_format_f 0 (PyFloat (cpu_freq_current s))) ;;
  _ <~ modify (upd_lbl_cpu_freq (configure_text
         ("Clock: " ++ freq_txt ++ " MHz"))) ;;
  v <~ lift (py_truediv cpu_pct 100) ;;
  _ <~ modify (upd_prog_cpu (bar_set v)) ;;
  _ <~ modify (upd_prog_cpu (bar_configure (get_color_by_usage cpu_pct))) ;;
  update_cores 0 (cpu_percent_percpu s).

(** Step 2, UPDATE RAM & SWAP. *)
Definition update_memory (s : Sample) : M unit :=
  let mem := virtual_memory s in
  let swap := swap_memory s in
  total <~ lift (get_size (PyInt (vm_total mem)) "B") ;;
  used <~ lift (get_size (PyInt (vm_used mem)) "B") ;;
  avail <~ lift (get_size (PyInt (vm_available mem)) "B") ;;
  _ <~ modify (upd_lbl_ram_text (configure_text
         ("Total: " ++ str_of_size total ++ " | Used: " ++ str_of_size used
          ++ " (" ++ py_str (PyFloat (vm_percent mem)) ++ "%) | Free: "
          ++ str_of_size avail))) ;;
  v <~ lift (py_truediv (PyFloat (vm_percent mem)) 100) ;;
  _ <~ modify (upd_prog_ram (bar_set v)) ;;
  _ <~ modify (upd_prog_ram
         (bar_configure (get_color_by_usage (PyFloat (vm_percent mem))))) ;;
  stotal <~ lift (get_size (PyInt (sw_total swap)) "B") ;;
  sused <~ lift (get_size (PyInt (sw_used swap)) "B") ;;
  _ <~ modify (upd_lbl_swap_text (configure_text
         ("Total: " ++ str_of_size stotal ++ " | Used: " ++ str_of_size sused
          ++ " (" ++ py_str (PyFloat (sw_percent swap)) ++ "%)"))) ;;
  sv <~ lift (py_truediv (PyFloat (sw_percent swap)) 100) ;;
  _ <~ modify (upd_prog_swap (bar_set sv)) ;;
  modify (upd_prog_swap
         (bar_configure (get_color_by_usage (PyFloat (sw_percent swap))))).

(** The partitions that the scan leaves out before asking for their usage. *)
Definition excluded (p : sdiskpart) : bool :=
  str_contains "cdrom" (opts p) || String.eqb (fstype p) EmptyString.

(** The new row of a drive: frame, name label, bar and details label; the
    pair (bar, details) is entered in [drive_widgets] under the name. *)
Definition create_drive_row (drive_name : string) : M unit :=
  _ <~ modify (upd_drives_container (fun rows => (rows ++ [drive_name])%list)) ;;
  modify (upd_drive_widgets (dict_set drive_name (new_bar, new_label EmptyString))).

(** Body of the [try] for one partition. *)
Definition drive_body (s : Sample) (p : sdiskpart) : M unit :=
  if excluded p then ret tt
  else
    usage <~ lift (disk_usage s (mountpoint p)) ;;
    let drive_name := device p in
    known <~ gets (fun a => dict_mem drive_name (drive_widgets a)) ;;
    _ <~ (if negb known then create_drive_row drive_name else ret tt) ;;
    let pct := PyFloat (du_percent usage) in
    v <~ lift (py_truediv pct 100) ;;
    _ <~ modify (upd_drive_widgets (dict_alter
           (fun w => (bar_set v (fst w), snd w)) drive_name)) ;;
    _ <~ modify (upd_drive_widgets (dict_alter
           (fun w => (bar_configure (get_color_by_usage pct) (fst w), snd w))
           drive_name)) ;;
    used <~ lift (get_size (PyInt (du_used usage)) "B") ;;
    total <~ lift (get_size (PyInt (du_total usage)) "B") ;;
    modify (upd_drive_widgets (dict_alter
           (fun w => (fst w,
                      configure_text
                        (py_str pct ++ "% (" ++ str_of_size used ++ " / "
                         ++ str_of_size total ++ ")") (snd w)))
           drive_name)).

(** Step 3, UPDATE STORAGE:
    [for p in partitions: try: ... except: continue] *)
Definition update_storage (s : Sample) : M unit :=
  for_each (disk_partitions s)
           (fun p => try_except (drive_body s p) (ret tt)).

(** The two subtractions of the network step: (download, upload) bytes
    since the retained counters were taken. *)
Definition net_delta (new_net old : snetio) : Z * Z :=
  (bytes_recv new_net - bytes_recv old, bytes_sent new_net - bytes_sent old).

(** Step 4, UPDATE NETWORK: the rates, then (below) the ping label. *)
Definition update_network (s : Sample) : M unit :=
  let new_net := net_io_counters s in
  old <~ gets old_net_io ;;
  let ds := fst (net_delta new_net old) in
  let us := snd (net_delta new_net old) in
  _ <~ modify (set_old_net_io new_net) ;;
  down <~ lift (get_size (PyInt ds) "B") ;;
  _ <~ modify (upd_lbl_down_val (configure_text (str_of_size down ++ "/s"))) ;;
  up <~ lift (get_size (PyInt us) "B") ;;
  modify (upd_lbl_up_val (configure_text (str_of_size up ++ "/s"))).

(** The cross mark on the offline label, U+274C in UTF-8. *)
Definition cross_mark : string :=
  String (ascii_of_nat 226) (String (ascii_of_nat 157)
    (String (ascii_of_nat 140) EmptyString)).

Definition offline_text : string := "Ping: Offline " ++ cross_mark.

(** The ping label (end of step 4).  The shared scalar is read where the
    source first reads it; a probe cycle is an event between ticks (see
    [run]), so the later reads of the same pass see the same value.  This
    is the pass during which no probe cycle finishes between the reads of
    lines 418, 421 and 422; [update_ping_reads] below has the three reads
    with probe cycles finishing in between. *)
Definition update_ping : M unit :=
  latency <~ gets ping_latency ;;
  if py_eq latency (PyInt (-1)) then
    modify (upd_lbl_ping (configure_text_color offline_text COLOR_CRIT))
  else
    let p_color := if py_lt latency (PyInt 100) then COLOR_GOOD
                   else COLOR_WARN in
    txt <~ lift (py_format_f 0 latency) ;;
    modify (upd_lbl_ping (configure_text_color
              ("Ping (Google): " ++ txt ++ " ms") p_color)).

(** Step 5, UPDATE UPTIME. *)
Definition update_uptime (s : Sample) : M unit :=
  modify (upd_lbl_uptime (configure_text
            ("System Uptime: " ++ system_uptime s))).

(** One pass of [update_ui_loop].  [Returns tt] means the pass reached its
    last line and re-armed the timer with [self.after]. *)
Definition update_ui_loop (s : Sample) : M unit :=
  _ <~ update_cpu s ;;
  _ <~ update_memory s ;;
  _ <~ update_storage s ;;
  _ <~ update_network s ;;
  _ <~ update_ping ;;
  update_uptime s.

(** ** Runs *)

(** What can happen to the shared state: the background thread finishes a
    probe cycle, or the timer fires a tick. *)
Inductive event :=
| Probe (r : connect_result)
| Tick (s : Sample).

(** The state after a sequence of events.  A tick that raises does not
    re-arm the timer: later ticks do not run, the prober continues.  The
    first pass of the program is the call at the end of [__init__]: when
    that one raises, the exception leaves the constructor and the program
    ends, so that the events after it do not happen.  The runs of the
    program are among the runs described here. *)
Fixpoint run (evs : list event) (armed : bool) (a : App) : App :=
  match evs with
  | [] => a
  | Probe r :: rest => run rest armed (check_ping_logic r a)
  | Tick s :: rest =>
      if armed then
        match update_ui_loop s a with
        | (a', Returns _) => run rest true a'
        | (a', Raises _) => run rest false a'
        end
      else run rest false a
  end.

(** The drive scans of successive ticks. *)
Definition storage_run (ss : list Sample) (a : App) : App :=
  fold_left (fun a s => fst (update_storage s a)) ss a.

(** The partitions whose usage the scan displays: not excluded, and the
    usage query answers. *)
Definition shown (s : Sample) (p : sdiskpart) : bool :=
  negb (excluded p)
  && match disk_usage s (mountpoint p) with
     | Returns _ => true
     | Raises _ => false
     end.

(** The devices displayed during the given ticks, in the order in which
    the scans reach them (with repetitions). *)
Definition observed (ss : list Sample) : list string :=
  flat_map (fun s => map device (filter (shown s) (disk_partitions s))) ss.

(** ** The ping label while the prober is writing

    The pass reads [self.ping_latency] afresh at each of the lines 418,
    421 and 422, and the prober thread writes it without a lock. *)

(** The shared state after the given probe cycles have finished, one
    after the other. *)
Definition prober_writes (rs : list connect_result) (a : App) : App :=
  fold_left (fun b r => check_ping_logic r b) rs a.

(** The ping label (end of step 4) when the probe cycles [w1] finish
    between the test of line 418 and the comparison of line 421, and the
    cycles [w2] between that comparison and the formatting of
    line 422. *)
Definition update_ping_reads (w1 w2 : list connect_result) : M unit :=
  latency <~ gets ping_latency ;;
  if py_eq latency (PyInt (-1)) then
    modify (upd_lbl_ping (configure_text_color offline_text COLOR_CRIT))
  else
    _ <~ modify (prober_writes w1) ;;
    latency <~ gets ping_latency ;;
    let p_color := if py_lt latency (PyInt 100) then COLOR_GOOD
                   else COLOR_WARN in
    _ <~ modify (prober_writes w2) ;;
    latency <~ gets ping_latency ;;
    txt <~ lift (py_format_f 0 latency) ;;
    modify (upd_lbl_ping (configure_text_color
              ("Ping (Google): " ++ txt ++ " ms") p_color)).

(** One pass of [update_ui_loop] with these probe cycles finishing while
    it is at the ping label. *)
Definition update_ui_loop_reads (s : Sample) (w1 w2 : list connect_result)
  : M unit :=
  _ <~ update_cpu s ;;
  _ <~ update_memory s ;;
  _ <~ update_storage s ;;
  _ <~ update_network s ;;
  _ <~ update_ping_reads w1 w2 ;;
  update_uptime s.

(** ** Placement of the core frames *)

(** [f.grid(row=i//4, column=i%4)]: the cell of the frame of core [i]. *)
Definition core_cell (i : nat) : nat * nat := (i / 4, i mod 4)%nat.

(** The cells of the frames that [create_cpu_section] places, in the order
    of its loop. *)
Definition core_cells (cpu_count : nat) : list (nat * nat) :=
  map core_cell (seq 0 (Nat.min cpu_count 32)).

(** ** The uptime text *)

(** A [timedelta] as Python keeps it: any number of days,
    [0 <= seconds < 86400] and [0 <= microseconds < 1000000]. *)
Record timedelta :=
  { td_days : Z; td_seconds : Z; td_microseconds : Z }.

(** The difference of two datetimes that lie [us] microseconds apart
    (negative when the second one is later). *)
Definition timedelta_of_microseconds (us : Z) : timedelta :=
  {| td_days := us / 86400000000;
     td_seconds := (us / 1000000) mod 86400;
     td_microseconds := us mod 1000000 |}.

(** [str(delta)]: hours, minutes and seconds as [%d:%02d:%02d], preceded
    by the days when there are any, followed by [.%06d] of the
    microseconds when there are any. *)
Definition timedelta_str (d : timedelta) : string :=
  let minutes := td_seconds d / 60 in
  let seconds := td_seconds d mod 60 in
  let hours := minutes / 60 in
  let minutes := minutes mod 60 in
  let s := Zstr hours ++ ":" ++ pad0 2 (Zstr minutes)
           ++ ":" ++ pad0 2 (Zstr seconds) in
  let s := if td_days d =? 0 then s
           else Zstr (td_days d) ++ " day"
                ++ (if Z.abs (td_days d) =? 1 then EmptyString else "s")
                ++ ", " ++ s in
  if td_microseconds d =? 0 then s
  else s ++ "." ++ pad0 6 (Zstr (td_microseconds d)).

(** [text.split('.')[0]]: the text before the first dot, all of it when
    there is none. *)
Fixpoint before_dot (s : string) : string :=
  match s with
  | EmptyString => EmptyString
  | String c rest =>
      if Ascii.eqb c "." then EmptyString else String c (before_dot rest)
  end.

(** [get_system_uptime], when the clock reads [now] and the machine
    booted at [boot], both datetimes counted in microseconds. *)
Definition get_system_uptime (now boot : Z) : string :=
  before_dot (timedelta_str (timedelta_of_microseconds (now - boot))).

(** ** Auxiliary definitions for the statements and proofs *)

(** [X <= m * 2^e] and [m * 2^e <= X] over the integers. *)
Definition le_scaled (X m e : Z) : Prop :=
  if 0 <=? e then X <= m * 2 ^ e else X * 2 ^ (- e) <= m.

Definition scaled_le (m e X : Z) : Prop :=
  if 0 <=? e then m * 2 ^ e <= X else m <= X * 2 ^ (- e).

Definition preserves {X A} (f : App -> X) (m : M A) : Prop :=
  forall a, f (fst (m a)) = f a.

(** What one core's pair shows after a tick that reported [usage]. *)
Definition core_shown (i : nat) (usage : Q) (w : core_widget) : core_widget :=
  (configure_text
     ("Core " ++ Zstr (Z.of_nat i + 1) ++ ": " ++ format_fixed 0 usage ++ "%")
     (fst w),
   bar_configure (get_color_by_usage (PyFloat usage))
     (bar_set (PyFloat (b64_round (usage / (100 # 1)))) (snd w))).

(** The header of the CPU panel after a tick. *)
Definition cpu_header (s : Sample) (a : App) : App :=
  let x := cpu_percent s in
  upd_prog_cpu (bar_configure (get_color_by_usage (PyFloat x)))
    (upd_prog_cpu (bar_set (PyFloat (b64_round (x / (100 # 1)))))
       (upd_lbl_cpu_freq
          (configure_text
             ("Clock: " ++ format_fixed 0 (cpu_freq_current s) ++ " MHz"))
          (upd_lbl_cpu_val
             (configure_text
                ("Used: " ++ float_repr x ++ "% | Free: "
                 ++ format_fixed 1 (b64_round ((100 # 1) - x)) ++ "%"))
             a))).

(** A sample of an idle machine without drives, for the worked examples. *)
Definition quiet_sample (cpu : Q) (cores : list Q) (net : snetio) : Sample :=
  {| cpu_percent := cpu;
     cpu_freq_current := 2400;
     cpu_percent_percpu := cores;
     virtual_memory :=
       {| vm_total := 8 * 2 ^ 30; vm_available := 4 * 2 ^ 30;
          vm_percent := 50; vm_used := 4 * 2 ^ 30 |};
     swap_memory := {| sw_total := 0; sw_used := 0; sw_percent := 0 |};
     disk_partitions := [];
     disk_usage := fun _ => Raises OSError;
     net_io_counters := net;
     system_uptime := "0:00:01" |}.

Definition counters (recv sent : Z) : snetio :=
  {| bytes_sent := sent; bytes_recv := recv |}.

(** Membership of a name in a list of names. *)
Definition mem_str (k : string) (ks : list string) : bool :=
  existsb (String.eqb k) ks.

(** A name joins the end of the list unless it is there already. *)
Definition add_key (k : string) (ks : list string) : list string :=
  if mem_str k ks then ks else (ks ++ [k])%list.

(** Every element once, at the place of its first occurrence. *)
Fixpoint first_seen (l : list string) : list string :=
  match l with
  | [] => []
  | x :: rest => x :: filter (fun y => negb (String.eqb y x)) (first_seen rest)
  end.

(** The row of [drive_name] exists after this. *)
Definition ensure_row (drive_name : string) (a : App) : App :=
  if dict_mem drive_name (drive_widgets a) then a
  else upd_drive_widgets (dict_set drive_name (new_bar, new_label EmptyString))
         (upd_drives_container (fun rows => (rows ++ [drive_name])%list) a).

(** The bar of [drive_name] shows the usage [u]. *)
Definition show_drive_bar (u : sdiskusage) (drive_name : string) (a : App)
  : App :=
  upd_drive_widgets
    (dict_alter
       (fun w => (bar_configure
                    (get_color_by_usage (PyFloat (du_percent u))) (fst w),
                  snd w)) drive_name)
    (upd_drive_widgets
       (dict_alter
          (fun w => (bar_set (PyFloat (b64_round (du_percent u / (100 # 1))))
                             (fst w), snd w)) drive_name)
       a).

Definition drive_details (u : sdiskusage) (used total : option string)
  : string :=
  float_repr (du_percent u) ++ "% (" ++ str_of_size used ++ " / "
  ++ str_of_size total ++ ")".

(** One partition of the scan, exceptions swallowed. *)
Definition drive_step (s : Sample) (p : sdiskpart) (a : App) : App :=
  fst (try_except (drive_body s p) (ret tt) a).

(** The two facts that the drive panel keeps: one key per row, in the
    order of the rows, and no key twice. *)
Definition registry_ok (a : App) : Prop :=
  NoDup (dict_keys (drive_widgets a))
  /\ drives_container a = dict_keys (drive_widgets a).

(** A sample of a machine with the given partitions, whose usage query
    answers by mount point. *)
Definition drive_sample (ps : list sdiskpart)
           (usage : string -> outcome sdiskusage) : Sample :=
  {| cpu_percent := 10;
     cpu_freq_current := 2400;
     cpu_percent_percpu := [10%Q];
     virtual_memory :=
       {| vm_total := 8 * 2 ^ 30; vm_available := 4 * 2 ^ 30;
          vm_percent := 50; vm_used := 4 * 2 ^ 30 |};
     swap_memory := {| sw_total := 0; sw_used := 0; sw_percent := 0 |};
     disk_partitions := ps;
     disk_usage := usage;
     net_io_counters := counters 0 0;
     system_uptime := "0:00:01" |}.

(** * Properties *)

(** ** The number model on known values

    The right-hand sides are what CPython prints for these values. *)

Example float_repr_values :
  float_repr (b64_round (1 # 10)) = "0.1"
  /\ float_repr (b64_round (453 # 10)) = "45.3"
  /\ float_repr (b64_round (1 # 3)) = "0.3333333333333333"
  /\ float_repr (inject_Z (10 ^ 16)) = "1e+16"
  /\ float_repr (b64_round (1 # 100000)) = "1e-05"
  /\ float_repr (inject_Z 9007199254740992) = "9007199254740992.0".
Proof. repeat split; vm_compute; reflexivity. Qed.

Example format_fixed_values :
  format_fixed 2 (1 # 8) = "0.12"
  /\ format_fixed 2 (3 # 8) = "0.38"
  /\ format_fixed 0 (5 # 2) = "2"
  /\ format_fixed 0 (3 # 2) = "2"
  /\ format_fixed 2 (b64_round (-1 # 1000)) = "-0.00"
  /\ format_fixed 2 (b64_round (1005 # 1000)) = "1.00".
Proof. repeat split; vm_compute; reflexivity. Qed.

Example int_division_rounds :
  py_truediv (PyInt (2 ^ 60 - 1)) 1024 = Returns (PyFloat (inject_Z (2 ^ 50)))
  /\ get_size (PyInt (1024 ^ 6 - 100)) "B" = Returns (Some "1024.00PB")
  /\ get_size (PyInt (1024 ^ 6 - 1)) "B" = Returns None.
Proof. repeat split; vm_compute; reflexivity. Qed.

(** [str] of a number: an int prints without a decimal point, a float
    always with one. *)
Example py_str_int_and_float :
  py_str (PyInt 45) = "45" /\ py_str (PyFloat 45) = "45.0".
Proof. split; vm_compute; reflexivity. Qed.

(** The memory scenario of the specification: 8 GiB in total, 4 GiB used,
    50.0 percent. *)
Example memory_label_scenario :
  text (lbl_ram_text
          (fst (update_ui_loop (quiet_sample 45 [45%Q] (counters 0 0))
                               (init 1 (counters 0 0)))))
  = "Total: 8.00GB | Used: 4.00GB (50.0%) | Free: 4.00GB"
  /\ progress_color
       (prog_ram
          (fst (update_ui_loop (quiet_sample 45 [45%Q] (counters 0 0))
                               (init 1 (counters 0 0)))))
     = Some (band_color Medium).
Proof. split; vm_compute; reflexivity. Qed.

Lemma Zdiv_half_even_lower (a b N : Z) :
  0 < b -> N * b <= a -> N <= Zdiv_half_even a b.
Proof.
  intros Hb H. unfold Zdiv_half_even.
  assert (N <= a / b) by (apply Z.div_le_lower_bound; lia).
  destruct (2 * (a mod b) ?= b); [destruct (Z.even (a / b))| |]; lia.
Qed.

Lemma Zdiv_half_even_upper (a b N : Z) :
  0 < b -> a <= N * b -> Zdiv_half_even a b <= N.
Proof.
  intros Hb H. unfold Zdiv_half_even.
  pose proof (Z.div_mod a b ltac:(lia)) as E.
  pose proof (Z.mod_pos_bound a b Hb) as R.
  assert (a / b <= N) by nia.
  destruct (Z.compare_spec (2 * (a mod b)) b);
    [destruct (Z.even (a / b))| |]; nia.
Qed.

Lemma Zdiv_half_even_opp (a b : Z) :
  0 < b -> Zdiv_half_even (- a) b = - Zdiv_half_even a b.
Proof.
  intros Hb. unfold Zdiv_half_even.
  pose proof (Z.div_mod a b ltac:(lia)) as E.
  pose proof (Z.mod_pos_bound a b Hb) as R.
  destruct (Z.eq_dec (a mod b) 0) as [Hz|Hnz].
  - rewrite Z.div_opp_l_z, Z.mod_opp_l_z by lia.
    rewrite Hz. replace (2 * 0 ?= b) with Lt by (symmetry; apply Z.compare_lt_iff; lia).
    reflexivity.
  - rewrite Z.div_opp_l_nz, Z.mod_opp_l_nz by lia.
    destruct (Z.compare_spec (2 * (a mod b)) b) as [H|H|H].
    + replace (2 * (b - a mod b) ?= b) with Eq by (symmetry; apply Z.compare_eq_iff; lia).
      replace (- (a / b) - 1) with (- (a / b + 1)) by lia.
      rewrite Z.even_opp, Z.even_add. simpl.
      destruct (Z.even (a / b)); simpl; lia.
    + replace (2 * (b - a mod b) ?= b) with Gt by (symmetry; apply Z.compare_gt_iff; lia).
      lia.
    + replace (2 * (b - a mod b) ?= b) with Lt by (symmetry; apply Z.compare_lt_iff; lia).
      lia.
Qed.

Lemma le_scaled_Q (X m e : Z) :
  le_scaled X m e -> (inject_Z X <= inject_Z m * pow2Q e)%Q.
Proof.
  unfold le_scaled, pow2Q. destruct (0 <=? e) eqn:He; intros H.
  - rewrite <- inject_Z_mult, <- Zle_Qle. exact H.
  - apply Z.leb_gt in He.
    assert (0 < 2 ^ (- e)) by (apply Z.pow_pos_nonneg; lia).
    unfold Qle, Qmult, inject_Z; simpl.
    rewrite Z2Pos.id by lia. lia.
Qed.

Lemma scaled_le_Q (X m e : Z) :
  scaled_le m e X -> (inject_Z m * pow2Q e <= inject_Z X)%Q.
Proof.
  unfold scaled_le, pow2Q. destruct (0 <=? e) eqn:He; intros H.
  - rewrite <- inject_Z_mult, <- Zle_Qle. exact H.
  - apply Z.leb_gt in He.
    assert (0 < 2 ^ (- e)) by (apply Z.pow_pos_nonneg; lia).
    unfold Qle, Qmult, inject_Z; simpl.
    rewrite Z2Pos.id by lia. lia.
Qed.

(** [ilog2_frac] never overshoots: 2^(ilog2_frac a b) <= a / b. *)
Lemma ilog2_frac_lower (a b : Z) :
  0 < a -> 0 < b -> frac_ge1 (scale2 a b (ilog2_frac a b)) = true.
Proof.
  intros Ha Hb. unfold ilog2_frac.
  set (k := Z.log2 a - Z.log2 b).
  destruct (frac_ge1 (scale2 a b k)) eqn:E; [exact E|].
  pose proof (Z.log2_spec a Ha) as [La _].
  pose proof (Z.log2_spec b Hb) as [_ Lb].
  pose proof (Z.log2_nonneg a). pose proof (Z.log2_nonneg b).
  unfold frac_ge1, scale2.
  destruct (0 <=? k - 1) eqn:Hk; simpl; apply Z.leb_le.
  - apply Z.leb_le in Hk.
    assert (2 ^ (Z.log2 b + 1) * 2 ^ (k - 1) = 2 ^ Z.log2 a) as P.
    { rewrite <- Z.pow_add_r by lia. f_equal. unfold k. lia. }
    assert (0 < 2 ^ (k - 1)) by (apply Z.pow_pos_nonneg; lia).
    nia.
  - apply Z.leb_gt in Hk.
    assert (2 ^ Z.log2 a * 2 ^ (- (k - 1)) = 2 ^ (Z.log2 b + 1)) as P.
    { rewrite <- Z.pow_add_r by lia. f_equal. unfold k. lia. }
    assert (0 < 2 ^ (- (k - 1))) by (apply Z.pow_pos_nonneg; lia).
    nia.
Qed.

(** Rounding does not cross a power of two from above ... *)
Lemma round_lower (n d k : Z) :
  0 < n -> 0 < d -> 0 <= k -> 2 ^ k * d <= n ->
  le_scaled (2 ^ k)
            (Zdiv_half_even (fst (scale2 n d (b64_ulp_exp n d)))
                            (snd (scale2 n d (b64_ulp_exp n d))))
            (b64_ulp_exp n d).
Proof.
  intros Hn Hd Hk H.
  pose proof (ilog2_frac_lower n d Hn Hd) as L.
  unfold b64_ulp_exp in *.
  set (ex := ilog2_frac n d) in *.
  set (e := Z.max (ex - 52) (-1074)).
  assert (0 < 2 ^ k) by (apply Z.pow_pos_nonneg; lia).
  destruct (Z_le_gt_dec e k) as [Hek|Hek].
  - (* the unit in the last place is at most 2^k *)
    assert (0 < 2 ^ (k - e)) by (apply Z.pow_pos_nonneg; lia).
    assert (2 ^ (k - e) <=
            Zdiv_half_even (fst (scale2 n d e)) (snd (scale2 n d e))) as M.
    { unfold scale2. destruct (0 <=? e) eqn:He; simpl.
      - apply Z.leb_le in He.
        assert (0 < 2 ^ e) by (apply Z.pow_pos_nonneg; lia).
        apply Zdiv_half_even_lower; [nia|].
        replace (2 ^ (k - e) * (d * 2 ^ e)) with (2 ^ (k - e + e) * d)
          by (rewrite Z.pow_add_r by lia; ring).
        replace (k - e + e) with k by lia. exact H.
      - apply Z.leb_gt in He.
        assert (0 < 2 ^ (- e)) by (apply Z.pow_pos_nonneg; lia).
        apply Zdiv_half_even_lower; [lia|].
        replace (k - e) with (k + - e) by lia.
        rewrite Z.pow_add_r by lia. nia. }
    unfold le_scaled. destruct (0 <=? e) eqn:He.
    + apply Z.leb_le in He.
      assert (0 < 2 ^ e) by (apply Z.pow_pos_nonneg; lia).
      replace (2 ^ k) with (2 ^ (k - e) * 2 ^ e)
        by (rewrite <- Z.pow_add_r by lia; f_equal; lia).
      nia.
    + apply Z.leb_gt in He.
      replace (2 ^ k * 2 ^ (- e)) with (2 ^ (k - e))
        by (rewrite <- Z.pow_add_r by lia; f_equal; lia).
      exact M.
  - (* the unit in the last place exceeds 2^k: the significand has 53 bits *)
    assert (e = ex - 52) as Ee by lia.
    assert (0 < e) as Hpos by lia.
    assert (0 < 2 ^ e) by (apply Z.pow_pos_nonneg; lia).
    assert (2 ^ 52 <=
            Zdiv_half_even (fst (scale2 n d e)) (snd (scale2 n d e))) as M.
    { unfold scale2. replace (0 <=? e) with true by (symmetry; apply Z.leb_le; lia).
      simpl. apply Zdiv_half_even_lower; [nia|].
      unfold frac_ge1, scale2 in L.
      replace (0 <=? ex) with true in L by (symmetry; apply Z.leb_le; lia).
      simpl in L. apply Z.leb_le in L.
      replace ex with (52 + e) in L by lia.
      rewrite Z.pow_add_r in L by lia. lia. }
    unfold le_scaled. replace (0 <=? e) with true by (symmetry; apply Z.leb_le; lia).
    assert (2 ^ k <= 2 ^ e) by (apply Z.pow_le_mono_r; lia).
    assert (0 < 2 ^ 52) by (apply Z.pow_pos_nonneg; lia).
    nia.
Qed.

(** ... nor from below. *)
Lemma round_upper (n d K : Z) :
  0 < n -> 0 < d -> 0 <= K -> n <= 2 ^ K * d ->
  scaled_le (Zdiv_half_even (fst (scale2 n d (b64_ulp_exp n d)))
                            (snd (scale2 n d (b64_ulp_exp n d))))
            (b64_ulp_exp n d) (2 ^ K).
Proof.
  intros Hn Hd HK H.
  pose proof (ilog2_frac_lower n d Hn Hd) as L.
  unfold b64_ulp_exp in *.
  set (ex := ilog2_frac n d) in *.
  set (e := Z.max (ex - 52) (-1074)).
  assert (0 < 2 ^ K) by (apply Z.pow_pos_nonneg; lia).
  assert (ex <= K) as HexK.
  { destruct (Z_le_gt_dec ex K); [assumption|exfalso].
    unfold frac_ge1, scale2 in L.
    replace (0 <=? ex) with true in L by (symmetry; apply Z.leb_le; lia).
    simpl in L. apply Z.leb_le in L.
    assert (2 ^ K < 2 ^ ex) by (apply Z.pow_lt_mono_r; lia).
    nia. }
  assert (e <= K) by lia.
  assert (0 < 2 ^ (K - e)) by (apply Z.pow_pos_nonneg; lia).
  assert (Zdiv_half_even (fst (scale2 n d e)) (snd (scale2 n d e))
          <= 2 ^ (K - e)) as M.
  { unfold scale2. destruct (0 <=? e) eqn:He; simpl.
    - apply Z.leb_le in He.
      assert (0 < 2 ^ e) by (apply Z.pow_pos_nonneg; lia).
      apply Zdiv_half_even_upper; [nia|].
      replace (2 ^ (K - e) * (d * 2 ^ e)) with (2 ^ (K - e + e) * d)
        by (rewrite Z.pow_add_r by lia; ring).
      replace (K - e + e) with K by lia. exact H.
    - apply Z.leb_gt in He.
      assert (0 < 2 ^ (- e)) by (apply Z.pow_pos_nonneg; lia).
      apply Zdiv_half_even_upper; [lia|].
      replace (K - e) with (K + - e) by lia.
      rewrite Z.pow_add_r by lia. nia. }
  unfold scaled_le. destruct (0 <=? e) eqn:He.
  - apply Z.leb_le in He.
    assert (0 < 2 ^ e) by (apply Z.pow_pos_nonneg; lia).
    replace (2 ^ K) with (2 ^ (K - e) * 2 ^ e)
      by (rewrite <- Z.pow_add_r by lia; f_equal; lia).
    nia.
  - apply Z.leb_gt in He.
    replace (2 ^ K * 2 ^ (- e)) with (2 ^ (K - e))
      by (rewrite <- Z.pow_add_r by lia; f_equal; lia).
    exact M.
Qed.

Lemma b64_round_unfold (q : Q) :
  Qnum q <> 0 ->
  (b64_round q ==
   inject_Z (Zdiv_half_even
               (fst (scale2 (Qnum q) (Zpos (Qden q))
                            (b64_ulp_exp (Z.abs (Qnum q)) (Zpos (Qden q)))))
               (snd (scale2 (Qnum q) (Zpos (Qden q))
                            (b64_ulp_exp (Z.abs (Qnum q)) (Zpos (Qden q))))))
   * pow2Q (b64_ulp_exp (Z.abs (Qnum q)) (Zpos (Qden q))))%Q.
Proof.
  intros Hn. unfold b64_round.
  destruct (Qnum q) eqn:E; [congruence| |];
    destruct (scale2 _ _ _); simpl fst; simpl snd; apply Qred_correct.
Qed.

Lemma b64_round_ge_pow2 (q : Q) (k : Z) :
  0 <= k -> (inject_Z (2 ^ k) <= q)%Q -> (inject_Z (2 ^ k) <= b64_round q)%Q.
Proof.
  intros Hk H.
  assert (0 < 2 ^ k) by (apply Z.pow_pos_nonneg; lia).
  destruct q as [n d]. unfold Qle in H; simpl in H.
  assert (0 < n) by nia.
  rewrite b64_round_unfold by (simpl; lia). simpl Qnum. simpl Qden.
  rewrite Z.abs_eq by lia.
  apply le_scaled_Q, round_lower; lia.
Qed.

Lemma b64_round_le_pow2 (q : Q) (K : Z) :
  0 <= K -> (0 < q)%Q -> (q <= inject_Z (2 ^ K))%Q ->
  (b64_round q <= inject_Z (2 ^ K))%Q.
Proof.
  intros HK Hq H.
  destruct q as [n d]. unfold Qle in H; unfold Qlt in Hq; simpl in H, Hq.
  assert (0 < n) by lia.
  rewrite b64_round_unfold by (simpl; lia). simpl Qnum. simpl Qden.
  rewrite Z.abs_eq by lia.
  apply scaled_le_Q, round_upper; lia.
Qed.

Lemma scale2_snd_pos (n d e : Z) : 0 < d -> 0 < snd (scale2 n d e).
Proof.
  intros Hd. unfold scale2. destruct (0 <=? e) eqn:He; simpl; [|exact Hd].
  apply Z.leb_le in He.
  assert (0 < 2 ^ e) by (apply Z.pow_pos_nonneg; lia). nia.
Qed.

Lemma scale2_opp (n d e : Z) :
  scale2 (- n) d e = (- fst (scale2 n d e), snd (scale2 n d e)).
Proof.
  unfold scale2. destruct (0 <=? e); simpl; f_equal; ring.
Qed.

Lemma b64_round_opp (q : Q) : (b64_round (- q) == - b64_round q)%Q.
Proof.
  destruct q as [n d].
  destruct (Z.eq_dec n 0) as [->|Hn]; [reflexivity|].
  rewrite (b64_round_unfold (- (n # d))) by (simpl; lia).
  rewrite (b64_round_unfold (n # d)) by (simpl; lia).
  simpl Qnum. simpl Qden. rewrite Z.abs_opp, scale2_opp. simpl fst. simpl snd.
  rewrite Zdiv_half_even_opp by (apply scale2_snd_pos; lia).
  rewrite inject_Z_opp. ring.
Qed.

(** Rounding keeps a value between the powers of two that bracket it. *)
Lemma b64_round_neg_bounds (q : Q) (K : Z) :
  0 <= K -> (- inject_Z (2 ^ K) <= q)%Q -> (q <= -1)%Q ->
  (- inject_Z (2 ^ K) <= b64_round q)%Q /\ (b64_round q <= -1)%Q.
Proof.
  intros HK Hlo Hhi.
  assert (b64_round q == - b64_round (- q))%Q as E.
  { rewrite b64_round_opp. ring. }
  assert (inject_Z (2 ^ 0) <= - q)%Q as H1.
  { apply Qopp_le_compat in Hhi. exact Hhi. }
  assert (- q <= inject_Z (2 ^ K))%Q as H2.
  { apply Qopp_le_compat in Hlo. rewrite Qopp_involutive in Hlo. exact Hlo. }
  assert (0 < - q)%Q as H0.
  { eapply Qlt_le_trans; [|exact H1]. reflexivity. }
  pose proof (b64_round_ge_pow2 (- q) 0 ltac:(lia) H1) as G.
  pose proof (b64_round_le_pow2 (- q) K HK H0 H2) as L.
  apply Qopp_le_compat in G. apply Qopp_le_compat in L.
  rewrite E. split; [exact L|exact G].
Qed.

Lemma pow2_le_b64_max (K : Z) :
  0 <= K <= 1023 -> (inject_Z (2 ^ K) <= b64_max)%Q.
Proof.
  intros HK. unfold b64_max. rewrite <- Zle_Qle.
  assert (2 ^ K <= 2 ^ 1023) by (apply Z.pow_le_mono_r; lia).
  assert (2 ^ 1023 <= 2 ^ 1024 - 2 ^ 971) by (vm_compute; discriminate).
  lia.
Qed.

Lemma b64_finite_pos (x : Q) (K : Z) :
  0 <= K <= 1023 -> (0 <= x)%Q -> (x <= inject_Z (2 ^ K))%Q ->
  b64_finite x = true.
Proof.
  intros HK H0 H. unfold b64_finite. apply Qle_bool_iff.
  rewrite Qabs_pos by exact H0.
  eapply Qle_trans; [exact H|]. now apply pow2_le_b64_max.
Qed.

Lemma b64_finite_neg (x : Q) (K : Z) :
  0 <= K <= 1023 -> (x <= 0)%Q -> (- inject_Z (2 ^ K) <= x)%Q ->
  b64_finite x = true.
Proof.
  intros HK H0 H. unfold b64_finite. apply Qle_bool_iff.
  rewrite Qabs_neg by exact H0.
  apply Qopp_le_compat in H. rewrite Qopp_involutive in H.
  eapply Qle_trans; [exact H|]. now apply pow2_le_b64_max.
Qed.

(** *** Comparisons *)

Lemma py_lt_int_true (v : pynum) (c : Z) :
  py_lt v (PyInt c) = true <-> (value v < inject_Z c)%Q.
Proof.
  unfold py_lt. simpl value. rewrite negb_true_iff.
  split; intros H.
  - apply Qnot_le_lt. intros L. apply Qle_bool_iff in L. congruence.
  - destruct (Qle_bool (inject_Z c) (value v)) eqn:E; [|reflexivity].
    apply Qle_bool_iff in E. exfalso. now apply (Qlt_not_le _ _ H).
Qed.

Lemma py_lt_int_false (v : pynum) (c : Z) :
  py_lt v (PyInt c) = false <-> (inject_Z c <= value v)%Q.
Proof.
  unfold py_lt. simpl value. rewrite negb_false_iff. apply Qle_bool_iff.
Qed.

(** *** get_size *)

Lemma float_of_int_factor : float_of_int factor = Returns (1024 # 1).
Proof. vm_compute. reflexivity. Qed.

Lemma float_of_int_100 : float_of_int 100 = Returns (100 # 1).
Proof. vm_compute. reflexivity. Qed.

Lemma py_truediv_float_factor (x : Q) :
  py_truediv (PyFloat x) factor
  = Returns (PyFloat (b64_round (x / (1024 # 1)))).
Proof.
  unfold py_truediv. change (factor =? 0) with false. cbv iota.
  rewrite float_of_int_factor. reflexivity.
Qed.

Lemma py_truediv_float_100 (x : Q) :
  py_truediv (PyFloat x) 100 = Returns (PyFloat (b64_round (x / (100 # 1)))).
Proof.
  unfold py_truediv. change (100 =? 0) with false. cbv iota.
  rewrite float_of_int_100. reflexivity.
Qed.

Lemma py_truediv_int_factor (n : Z) :
  py_truediv (PyInt n) factor
  = (x <- to_float_checked (n * 1 # 1024) ;; Returns (PyFloat x)).
Proof. reflexivity. Qed.

Lemma get_size_loop_cons (u : string) (us : list string) (b : pynum)
      (suffix : string) :
  get_size_loop (u :: us) b suffix
  = if py_lt b (PyInt factor) then
      s <- py_format_f 2 b ;; Returns (Some (s ++ u ++ suffix))
    else
      b' <- py_truediv b factor ;; get_size_loop us b' suffix.
Proof. reflexivity. Qed.

(** A float of at least 1024^(number of units left) runs the loop dry. *)
Lemma get_size_loop_exhausts (us : list string) (x : Q) (suffix : string) :
  (inject_Z (2 ^ (10 * Z.of_nat (List.length us))) <= x)%Q ->
  get_size_loop us (PyFloat x) suffix = Returns None.
Proof.
  revert x. induction us as [|u us IH]; intros x H; [reflexivity|].
  rewrite get_size_loop_cons.
  replace (10 * Z.of_nat (List.length (u :: us)))
    with (10 + 10 * Z.of_nat (List.length us)) in H
    by (cbn [List.length]; lia).
  rewrite Z.pow_add_r in H by lia.
  set (k := 10 * Z.of_nat (List.length us)) in *.
  assert (0 < 2 ^ k) as Hk by (apply Z.pow_pos_nonneg; unfold k; lia).
  assert (inject_Z factor <= x)%Q as Hx.
  { eapply Qle_trans; [|exact H]. rewrite <- Zle_Qle. unfold factor.
    change (2 ^ 10) with 1024. lia. }
  rewrite (proj2 (py_lt_int_false (PyFloat x) factor) Hx).
  rewrite py_truediv_float_factor. cbn [bind].
  apply IH. apply b64_round_ge_pow2; [unfold k; lia|].
  clear IH Hx. change (2 ^ 10) with 1024 in H.
  remember (2 ^ k) as P eqn:EP. clear EP k.
  destruct x as [n d]. unfold Qle in *.
  cbn [Qnum Qden inject_Z Qdiv Qmult Qinv] in *.
  rewrite Pos2Z.inj_mul. lia.
Qed.

Lemma get_size_int_large (n : Z) (suffix : string) :
  1024 ^ 6 <= n ->
  get_size (PyInt n) suffix
  = (if b64_finite (b64_round (n * 1 # 1024)) then Returns None
     else Raises OverflowError).
Proof.
  intros H. change (1024 ^ 6) with 1152921504606846976 in H.
  unfold get_size, units. rewrite get_size_loop_cons.
  assert (inject_Z factor <= value (PyInt n))%Q as Hx.
  { simpl value. rewrite <- Zle_Qle. unfold factor. lia. }
  rewrite (proj2 (py_lt_int_false (PyInt n) factor) Hx).
  rewrite py_truediv_int_factor. unfold to_float_checked.
  destruct (b64_finite _); cbn [bind]; [|reflexivity].
  apply get_size_loop_exhausts.
  apply b64_round_ge_pow2; [cbn; lia|].
  unfold Qle. cbn. lia.
Qed.

(** C10, as amended.  For every int of at least 1024^6 whose quotient by
    1024 is in the range of a float (below 2^1033) the loop of [get_size]
    runs out of suffixes and the result is [None]; for every int of at
    least 1024^6 no string is returned. *)
Theorem get_size_partial (n : Z) (suffix : string) :
  1024 ^ 6 <= n ->
  (n < 2 ^ 1033 -> get_size (PyInt n) suffix = Returns None)
  /\ (forall s, get_size (PyInt n) suffix <> Returns (Some s)).
Proof.
  intros H. rewrite get_size_int_large by exact H.
  change (1024 ^ 6) with 1152921504606846976 in H.
  split.
  - intros Hn.
    rewrite (b64_finite_pos _ 1023); [reflexivity|lia| |].
    + eapply Qle_trans; [|apply (b64_round_ge_pow2 _ 0); [lia|]].
      * discriminate.
      * unfold Qle. cbn. lia.
    + apply b64_round_le_pow2; [lia| |].
      * unfold Qlt. cbn. lia.
      * unfold Qle. cbn - [Z.pow].
        replace (2 ^ 1033) with (2 ^ 1023 * 1024) in Hn by (vm_compute; reflexivity).
        lia.
  - intros s. destruct (b64_finite _); discriminate.
Qed.

Lemma get_size_partial_witness :
  get_size (PyInt (1024 ^ 6)) "B" = Returns None.
Proof.
  apply (get_size_partial (1024 ^ 6) "B"); vm_compute; [discriminate|reflexivity].
Defined.

Lemma get_size_overflow :
  1024 ^ 6 <= 2 ^ 1100
  /\ get_size (PyInt (2 ^ 1100)) "B" = Raises OverflowError
  /\ get_size (PyInt (2 ^ 1100)) "B" <> Returns None.
Proof.
  split; [vm_compute; discriminate|].
  assert (get_size (PyInt (2 ^ 1100)) "B" = Raises OverflowError) as E
    by (vm_compute; reflexivity).
  split; [exact E|]. rewrite E. discriminate.
Qed.

(** C2.  [get_size] answers "0.00B" for 0, "1.00KB" for 1024, "1.50KB" for
    1536 and "1.00GB" for 1073741824. *)
Theorem get_size_examples :
  get_size (PyInt 0) "B" = Returns (Some "0.00B")
  /\ get_size (PyInt 1024) "B" = Returns (Some "1.00KB")
  /\ get_size (PyInt 1536) "B" = Returns (Some "1.50KB")
  /\ get_size (PyInt 1073741824) "B" = Returns (Some "1.00GB").
Proof. repeat split; vm_compute; reflexivity. Qed.

(** ** Severity bands *)

(** C1.  For every percentage [p] in [0,100), [get_color_by_usage] returns
    the Low colour exactly when [p < 50], the Medium colour exactly when
    [50 <= p < 80] and the High colour exactly when [80 <= p]; the floats
    49.9, 50, 79.9 and 80 fall in Low, Medium, Medium and High. *)
Theorem get_color_by_usage_bands (p : pynum) :
  (0 <= value p)%Q -> (value p < 100)%Q ->
  (get_color_by_usage p = band_color Low <-> (value p < 50)%Q)
  /\ (get_color_by_usage p = band_color Medium
      <-> (50 <= value p)%Q /\ (value p < 80)%Q)
  /\ (get_color_by_usage p = band_color High <-> (80 <= value p)%Q)
  /\ get_color_by_usage (PyFloat (b64_round (499 # 10))) = band_color Low
  /\ get_color_by_usage (PyFloat 50) = band_color Medium
  /\ get_color_by_usage (PyFloat (b64_round (799 # 10))) = band_color Medium
  /\ get_color_by_usage (PyFloat 80) = band_color High.
Proof.
  intros _ _. unfold get_color_by_usage, band_color.
  repeat split; try (vm_compute; reflexivity);
  destruct (py_lt p (PyInt 50)) eqn:E1;
  destruct (py_lt p (PyInt 80)) eqn:E2;
  try apply py_lt_int_true in E1; try apply py_lt_int_true in E2;
  try apply py_lt_int_false in E1; try apply py_lt_int_false in E2;
  unfold inject_Z, COLOR_GOOD, COLOR_WARN, COLOR_CRIT in *;
  intros; try discriminate; try reflexivity; try lra.
Qed.

Lemma get_color_by_usage_bands_witness :
  get_color_by_usage (PyFloat 45) = band_color Low
  <-> (value (PyFloat 45) < 50)%Q.
Proof.
  apply (get_color_by_usage_bands (PyFloat 45)); vm_compute;
    [discriminate|reflexivity].
Defined.

(** ** Reasoning in the monad of a tick *)

Section Frames.
Context {X : Type} (f : App -> X).

Lemma preserves_ret {A} (x : A) : preserves f (ret x).
Proof. intros a. reflexivity. Qed.

Lemma preserves_lift {A} (o : outcome A) : preserves f (lift o).
Proof. intros a. reflexivity. Qed.

Lemma preserves_gets {A} (g : App -> A) : preserves f (gets g).
Proof. intros a. reflexivity. Qed.

Lemma preserves_modify (g : App -> App) :
  (forall a, f (g a) = f a) -> preserves f (modify g).
Proof. intros H a. apply H. Qed.

Lemma preserves_bind {A B} (m : M A) (k : A -> M B) :
  preserves f m -> (forall x, preserves f (k x)) ->
  preserves f (mbind m k).
Proof.
  intros Hm Hk a. unfold mbind. specialize (Hm a).
  destruct (m a) as [a' [x|e]]; simpl in *; [rewrite Hk|]; exact Hm.
Qed.

Lemma preserves_try (body handler : M unit) :
  preserves f body -> preserves f handler ->
  preserves f (try_except body handler).
Proof.
  intros Hb Hh a. unfold try_except. specialize (Hb a).
  destruct (body a) as [a' [x|e]]; simpl in *; [|rewrite Hh]; exact Hb.
Qed.

Lemma preserves_for_each {A} (xs : list A) (body : A -> M unit) :
  (forall x, preserves f (body x)) -> preserves f (for_each xs body).
Proof.
  intros H. induction xs as [|x xs IH]; simpl.
  - apply preserves_ret.
  - apply preserves_bind; [apply H|intros _; exact IH].
Qed.
End Frames.

Ltac frame :=
  repeat first
    [ apply preserves_ret | apply preserves_lift | apply preserves_gets
    | apply preserves_modify; intros; reflexivity
    | apply preserves_bind; [|intros ?]
    | apply preserves_try
    | apply preserves_for_each; intros ?
    | match goal with
      | |- preserves _ (if ?b then _ else _) => destruct b
      end ].

Lemma mbind_returns {A B} (m : M A) (k : A -> M B) a a' y :
  mbind m k a = (a', Returns y) ->
  exists a1 x, m a = (a1, Returns x) /\ k x a1 = (a', Returns y).
Proof.
  unfold mbind. destruct (m a) as [a1 [x|e]]; intros H.
  - exists a1, x. split; [reflexivity|exact H].
  - discriminate.
Qed.

(** What each step touches: a projection that the step's setters leave
    alone is preserved by the step. *)
Section StepFrames.
Context {X : Type} (f : App -> X).

Lemma update_cores_frame (i : nat) (cores : list Q) :
  (forall g a, f (upd_core_widgets g a) = f a) ->
  preserves f (update_cores i cores).
Proof.
  intros H. revert i. induction cores as [|u cores IH]; intros i; simpl.
  - apply preserves_ret.
  - unfold core_body.
    repeat first
      [ apply preserves_lift | apply preserves_gets | apply preserves_ret
      | apply preserves_modify; intros; apply H
      | apply preserves_bind; [|intros ?]
      | apply IH
      | match goal with
        | |- preserves _ (if ?b then _ else _) => destruct b
        end ].
Qed.

Lemma update_cpu_frame (s : Sample) :
  (forall g a, f (upd_core_widgets g a) = f a) ->
  (forall g a, f (upd_lbl_cpu_val g a) = f a) ->
  (forall g a, f (upd_lbl_cpu_freq g a) = f a) ->
  (forall g a, f (upd_prog_cpu g a) = f a) ->
  preserves f (update_cpu s).
Proof.
  intros H1 H2 H3 H4. unfold update_cpu.
  repeat first
    [ apply preserves_lift
    | apply preserves_modify; intros; first [apply H2|apply H3|apply H4]
    | apply preserves_bind; [|intros ?]
    | apply update_cores_frame; exact H1 ].
Qed.

Lemma update_memory_frame (s : Sample) :
  (forall g a, f (upd_lbl_ram_text g a) = f a) ->
  (forall g a, f (upd_prog_ram g a) = f a) ->
  (forall g a, f (upd_lbl_swap_text g a) = f a) ->
  (forall g a, f (upd_prog_swap g a) = f a) ->
  preserves f (update_memory s).
Proof.
  intros H1 H2 H3 H4. unfold update_memory.
  repeat first
    [ apply preserves_lift
    | apply preserves_modify; intros;
      first [apply H1|apply H2|apply H3|apply H4]
    | apply preserves_bind; [|intros ?] ].
Qed.

Lemma update_storage_frame (s : Sample) :
  (forall g a, f (upd_drive_widgets g a) = f a) ->
  (forall g a, f (upd_drives_container g a) = f a) ->
  preserves f (update_storage s).
Proof.
  intros H1 H2. unfold update_storage.
  apply preserves_for_each. intros p.
  apply preserves_try; [|apply preserves_ret].
  unfold drive_body, create_drive_row.
  repeat first
    [ apply preserves_lift | apply preserves_gets | apply preserves_ret
    | apply preserves_modify; intros; first [apply H1|apply H2]
    | apply preserves_bind; [|intros ?]
    | match goal with
      | |- preserves _ (if ?b then _ else _) => destruct b
      end ].
Qed.

Lemma update_ping_frame :
  (forall g a, f (upd_lbl_ping g a) = f a) ->
  preserves f update_ping.
Proof.
  intros H. unfold update_ping.
  apply preserves_bind; [apply preserves_gets|intros x].
  destruct (py_eq x (PyInt (-1))).
  - apply preserves_modify; intros; apply H.
  - apply preserves_bind; [apply preserves_lift|intros ?].
    apply preserves_modify; intros; apply H.
Qed.

Lemma update_uptime_frame (s : Sample) :
  (forall g a, f (upd_lbl_uptime g a) = f a) ->
  preserves f (update_uptime s).
Proof. intros H. apply preserves_modify; intros; apply H. Qed.
End StepFrames.

(** ** The network step *)

Lemma update_network_run (s : Sample) (a : App) :
  update_network s a =
  let d := net_delta (net_io_counters s) (old_net_io a) in
  let a1 := set_old_net_io (net_io_counters s) a in
  match get_size (PyInt (fst d)) "B" with
  | Raises e => (a1, Raises e)
  | Returns down =>
      let a2 :=
        upd_lbl_down_val (configure_text (str_of_size down ++ "/s")) a1 in
      match get_size (PyInt (snd d)) "B" with
      | Raises e => (a2, Raises e)
      | Returns up =>
          (upd_lbl_up_val (configure_text (str_of_size up ++ "/s")) a2,
           Returns tt)
      end
  end.
Proof.
  unfold update_network, mbind, gets, modify, lift. cbv zeta.
  change (old_net_io (set_old_net_io (net_io_counters s) a))
    with (net_io_counters s).
  destruct (get_size (PyInt (fst _)) "B"); [|reflexivity].
  destruct (get_size (PyInt (snd _)) "B"); reflexivity.
Qed.

Lemma get_size_zero : get_size (PyInt 0) "B" = Returns (Some "0.00B").
Proof. vm_compute. reflexivity. Qed.

Lemma get_size_loop_float_returns (us : list string) (x : Q) (suffix : string) :
  exists r, get_size_loop us (PyFloat x) suffix = Returns r.
Proof.
  revert x. induction us as [|u us IH]; intros x.
  - exists None. reflexivity.
  - rewrite get_size_loop_cons. destruct (py_lt _ _).
    + eexists. reflexivity.
    + rewrite py_truediv_float_factor. apply IH.
Qed.

Lemma float_of_int_negative (n : Z) :
  - 2 ^ 1023 <= n -> n < 0 ->
  float_of_int n = Returns (b64_round (inject_Z n))
  /\ (b64_round (inject_Z n) <= -1)%Q.
Proof.
  intros Hlo Hneg.
  destruct (b64_round_neg_bounds (inject_Z n) 1023) as [B1 B2]; [lia| | |].
  - rewrite <- inject_Z_opp, <- Zle_Qle. lia.
  - change (-1)%Q with (inject_Z (-1)). rewrite <- Zle_Qle. lia.
  - split; [|exact B2].
    unfold float_of_int, to_float_checked.
    rewrite (b64_finite_neg _ 1023); [reflexivity|lia| |exact B1].
    eapply Qle_trans; [exact B2|]. discriminate.
Qed.

Lemma float_of_int_small (n : Z) :
  0 <= n -> n < 2 ^ 1023 ->
  exists x, float_of_int n = Returns x.
Proof.
  intros H0 H. unfold float_of_int, to_float_checked.
  destruct (Z.eq_dec n 0) as [->|Hn]; [eexists; reflexivity|].
  rewrite (b64_finite_pos _ 1023); [eexists; reflexivity|lia| |].
  - eapply Qle_trans; [|apply (b64_round_ge_pow2 _ 0); [lia|]].
    + discriminate.
    + change (inject_Z (2 ^ 0)) with (inject_Z 1). rewrite <- Zle_Qle. lia.
  - apply b64_round_le_pow2; [lia| |].
    + change 0%Q with (inject_Z 0). rewrite <- Zlt_Qlt. lia.
    + rewrite <- Zle_Qle. lia.
Qed.

Lemma append_assoc (a b c : string) : (a ++ b) ++ c = a ++ (b ++ c).
Proof. induction a as [|ch a IH]; simpl; [reflexivity|now rewrite IH]. Qed.

Lemma prefix_dash (s : string) : prefix "-" (String "-" s) = true.
Proof. simpl. destruct s; reflexivity. Qed.

(** The sign of a negative float is printed. *)
Lemma format_fixed_negative (prec : nat) (x : Q) (rest : string) :
  (x <= -1)%Q -> prefix "-" (format_fixed prec x ++ rest) = true.
Proof.
  intros H. unfold format_fixed.
  assert ((Qnum x <? 0) = true) as ->.
  { apply Z.ltb_lt. destruct x as [n d]. unfold Qle in H. simpl in *. lia. }
  destruct prec; cbn [append]; apply prefix_dash.
Qed.

Lemma get_size_negative (n : Z) :
  - 2 ^ 1023 <= n -> n < 0 ->
  get_size (PyInt n) "B"
  = Returns (Some (format_fixed 2 (b64_round (inject_Z n)) ++ "B")).
Proof.
  intros Hlo Hneg. unfold get_size, units. rewrite get_size_loop_cons.
  assert (py_lt (PyInt n) (PyInt factor) = true) as ->.
  { apply py_lt_int_true. simpl value. rewrite <- Zlt_Qlt. unfold factor. lia. }
  unfold py_format_f.
  destruct (float_of_int_negative n Hlo Hneg) as [-> _]. reflexivity.
Qed.

(** Byte counts in the range of a float are always formatted or answered
    by [None]: [get_size] does not raise on them. *)
Lemma get_size_returns (n : Z) :
  - 2 ^ 1023 <= n -> n < 2 ^ 1033 ->
  exists r, get_size (PyInt n) "B" = Returns r.
Proof.
  intros Hlo Hhi.
  destruct (Z_lt_le_dec n 0) as [Hneg|Hpos].
  - rewrite get_size_negative by assumption. eexists. reflexivity.
  - unfold get_size, units. rewrite get_size_loop_cons.
    destruct (py_lt (PyInt n) (PyInt factor)) eqn:E.
    + apply py_lt_int_true in E. simpl value in E. rewrite <- Zlt_Qlt in E.
      unfold factor in E. unfold py_format_f.
      destruct (float_of_int_small n Hpos) as [x ->].
      * assert (2 ^ 10 <= 2 ^ 1023) by (apply Z.pow_le_mono_r; lia).
        change (2 ^ 10) with 1024 in *. lia.
      * eexists. reflexivity.
    + apply py_lt_int_false in E. simpl value in E. rewrite <- Zle_Qle in E.
      unfold factor in E.
      rewrite py_truediv_int_factor. unfold to_float_checked.
      rewrite (b64_finite_pos _ 1023); [|lia| |].
      * cbn [bind]. apply get_size_loop_float_returns.
      * eapply Qle_trans; [|apply (b64_round_ge_pow2 _ 0); [lia|]].
        -- discriminate.
        -- unfold Qle. cbn. lia.
      * apply b64_round_le_pow2; [lia| |].
        -- unfold Qlt. cbn. lia.
        -- unfold Qle. cbn - [Z.pow].
           replace (2 ^ 1033) with (2 ^ 1023 * 1024) in Hhi
             by (vm_compute; reflexivity).
           lia.
Qed.

(** C3.  On each tick the network rate is the componentwise difference of
    the current and the retained counters, and the retained counters are
    then replaced by the current ones (also at the end of a completed pass
    of [update_ui_loop]); with unchanged counters the rate is exactly 0 in
    both directions, on one tick and on two consecutive ticks; for prior
    (100, 200) and current (150, 250) the rate is (50, 50). *)
Theorem network_rate_is_counter_delta (s : Sample) (a : App) :
  let cur := net_io_counters s in
  let old := old_net_io a in
  let d := net_delta cur old in
  (* the rate is the componentwise difference *)
  d = (bytes_recv cur - bytes_recv old, bytes_sent cur - bytes_sent old)
  (* the retained counters become the current ones *)
  /\ old_net_io (fst (update_network s a)) = cur
  (* a completed tick retains them too and shows the formatted rates *)
  /\ (forall a', update_ui_loop s a = (a', Returns tt) ->
        old_net_io a' = cur
        /\ exists down up,
             get_size (PyInt (fst d)) "B" = Returns down
             /\ get_size (PyInt (snd d)) "B" = Returns up
             /\ text (lbl_down_val a') = str_of_size down ++ "/s"
             /\ text (lbl_up_val a') = str_of_size up ++ "/s")
  (* unchanged counters: rate exactly zero in both directions *)
  /\ (cur = old ->
        d = (0, 0)
        /\ snd (update_network s a) = Returns tt
        /\ text (lbl_down_val (fst (update_network s a))) = "0.00B/s"
        /\ text (lbl_up_val (fst (update_network s a))) = "0.00B/s")
  (* two consecutive ticks with the same counters *)
  /\ (forall s2, net_io_counters s2 = cur ->
        let a1 := fst (update_network s a) in
        net_delta (net_io_counters s2) (old_net_io a1) = (0, 0)
        /\ text (lbl_down_val (fst (update_network s2 a1))) = "0.00B/s"
        /\ text (lbl_up_val (fst (update_network s2 a1))) = "0.00B/s")
  (* the example of the specification *)
  /\ net_delta {| bytes_sent := 250; bytes_recv := 150 |}
               {| bytes_sent := 200; bytes_recv := 100 |} = (50, 50).
Proof.
  intros cur old d.
  assert (old_net_io (fst (update_network s a)) = cur) as Hret.
  { rewrite update_network_run. cbv zeta.
    destruct (get_size (PyInt (fst _)) "B"); [|reflexivity].
    destruct (get_size (PyInt (snd _)) "B"); reflexivity. }
  assert (forall (s' : Sample) (b : App),
             net_io_counters s' = old_net_io b ->
             net_delta (net_io_counters s') (old_net_io b) = (0, 0)
             /\ snd (update_network s' b) = Returns tt
             /\ text (lbl_down_val (fst (update_network s' b))) = "0.00B/s"
             /\ text (lbl_up_val (fst (update_network s' b))) = "0.00B/s")
    as Hsame.
  { intros s' b E. rewrite update_network_run. cbv zeta.
    assert (net_delta (net_io_counters s') (old_net_io b) = (0, 0)) as ->.
    { rewrite E. unfold net_delta. f_equal; lia. }
    cbn [fst snd]. rewrite get_size_zero.
    repeat split; reflexivity. }
  split; [reflexivity|]. split; [exact Hret|]. split; [|split; [|split]].
  - intros a' H. unfold update_ui_loop in H.
    apply mbind_returns in H as (a1 & [] & H1 & H).
    apply mbind_returns in H as (a2 & [] & H2 & H).
    apply mbind_returns in H as (a3 & [] & H3 & H).
    apply mbind_returns in H as (a4 & [] & H4 & H).
    apply mbind_returns in H as (a5 & [] & H5 & H).
    assert (old_net_io a3 = old) as E3.
    { pose proof (update_cpu_frame old_net_io s) as F1.
      pose proof (update_memory_frame old_net_io s) as F2.
      pose proof (update_storage_frame old_net_io s) as F3.
      specialize (F1 ltac:(reflexivity) ltac:(reflexivity)
                     ltac:(reflexivity) ltac:(reflexivity) a).
      specialize (F2 ltac:(reflexivity) ltac:(reflexivity)
                     ltac:(reflexivity) ltac:(reflexivity) a1).
      specialize (F3 ltac:(reflexivity) ltac:(reflexivity) a2).
      rewrite H1 in F1. rewrite H2 in F2. rewrite H3 in F3. simpl in *.
      unfold old. congruence. }
    assert (forall {X} (f : App -> X),
               (forall g b, f (upd_lbl_ping g b) = f b) ->
               (forall g b, f (upd_lbl_uptime g b) = f b) ->
               f a' = f a4) as Ftail.
    { intros X f P1 P2.
      pose proof (update_ping_frame f P1 a4) as F5.
      pose proof (update_uptime_frame f s P2 a5) as F6.
      rewrite H5 in F5. rewrite H in F6. simpl in *. congruence. }
    rewrite (Ftail _ old_net_io), (Ftail _ lbl_down_val),
      (Ftail _ lbl_up_val) by reflexivity.
    rewrite update_network_run in H4. cbv zeta in H4. rewrite E3 in H4.
    fold cur in H4. fold d in H4.
    destruct (get_size (PyInt (fst d)) "B") as [down|]; [|discriminate].
    destruct (get_size (PyInt (snd d)) "B") as [up|]; [|discriminate].
    injection H4 as <-. split; [reflexivity|].
    exists down, up. repeat split; reflexivity.
  - intros E. apply Hsame. exact E.
  - intros s2 E a1. 
    destruct (Hsame s2 a1) as (D & _ & T1 & T2).
    + unfold a1. rewrite Hret. exact E.
    + repeat split; assumption.
  - reflexivity.
Qed.

(** ** Counter reset *)

(** C4, as amended.  When a current counter is below the retained one and
    the differences are in the range of a float, the network step does not
    raise: it retains the current counters and shows each negative
    difference as it is, a negative number with two decimals and the bare
    suffix B, without clamping. *)
Theorem update_network_counter_reset (s : Sample) (a : App) :
  let d := net_delta (net_io_counters s) (old_net_io a) in
  fst d < 0 \/ snd d < 0 ->
  - 2 ^ 1023 <= fst d < 2 ^ 1033 ->
  - 2 ^ 1023 <= snd d < 2 ^ 1033 ->
  snd (update_network s a) = Returns tt
  /\ old_net_io (fst (update_network s a)) = net_io_counters s
  /\ (fst d < 0 ->
        (b64_round (inject_Z (fst d)) <= -1)%Q
        /\ text (lbl_down_val (fst (update_network s a)))
           = format_fixed 2 (b64_round (inject_Z (fst d))) ++ "B/s"
        /\ prefix "-" (text (lbl_down_val (fst (update_network s a)))) = true)
  /\ (snd d < 0 ->
        (b64_round (inject_Z (snd d)) <= -1)%Q
        /\ text (lbl_up_val (fst (update_network s a)))
           = format_fixed 2 (b64_round (inject_Z (snd d))) ++ "B/s"
        /\ prefix "-" (text (lbl_up_val (fst (update_network s a)))) = true).
Proof.
  intros d _ [Hd1 Hd2] [Hu1 Hu2].
  destruct (get_size_returns (fst d) Hd1 Hd2) as [down Ed].
  destruct (get_size_returns (snd d) Hu1 Hu2) as [up Eu].
  rewrite update_network_run. cbv zeta. fold d. rewrite Ed, Eu.
  cbn [fst snd]. split; [reflexivity|]. split; [reflexivity|].
  split; intros Hneg.
  - destruct (float_of_int_negative (fst d) Hd1 Hneg) as [_ B].
    rewrite get_size_negative in Ed by assumption.
    assert (down = Some (format_fixed 2 (b64_round (inject_Z (fst d))) ++ "B"))
      as -> by congruence.
    assert (text (lbl_down_val
                    (upd_lbl_up_val (configure_text (str_of_size up ++ "/s"))
                       (upd_lbl_down_val
                          (configure_text
                             (str_of_size
                                (Some (format_fixed 2
                                         (b64_round (inject_Z (fst d))) ++ "B"))
                              ++ "/s"))
                          (set_old_net_io (net_io_counters s) a))))
            = format_fixed 2 (b64_round (inject_Z (fst d))) ++ "B/s") as T.
    { cbn [lbl_down_val upd_lbl_up_val upd_lbl_down_val text configure_text
           str_of_size]. apply append_assoc. }
    split; [exact B|]. split; [exact T|].
    rewrite T. apply format_fixed_negative. exact B.
  - destruct (float_of_int_negative (snd d) Hu1 Hneg) as [_ B].
    rewrite get_size_negative in Eu by assumption.
    assert (up = Some (format_fixed 2 (b64_round (inject_Z (snd d))) ++ "B"))
      as -> by congruence.
    assert (text (lbl_up_val
                    (upd_lbl_up_val
                       (configure_text
                          (str_of_size
                             (Some (format_fixed 2
                                      (b64_round (inject_Z (snd d))) ++ "B"))
                           ++ "/s"))
                       (upd_lbl_down_val
                          (configure_text (str_of_size down ++ "/s"))
                          (set_old_net_io (net_io_counters s) a))))
            = format_fixed 2 (b64_round (inject_Z (snd d))) ++ "B/s") as T.
    { cbn [lbl_up_val upd_lbl_up_val upd_lbl_down_val text configure_text
           str_of_size]. apply append_assoc. }
    split; [exact B|]. split; [exact T|].
    rewrite T. apply format_fixed_negative. exact B.
Qed.

Lemma counter_reset_witness :
  snd (update_network (quiet_sample 0 [] (counters 100 200))
                      (init 1 (counters 150 250))) = Returns tt.
Proof.
  apply (update_network_counter_reset
           (quiet_sample 0 [] (counters 100 200)) (init 1 (counters 150 250)));
    vm_compute; intuition discriminate.
Defined.

Lemma counter_reset_not_clamped :
  net_delta (counters 100 200) (counters 150 250) = (-50, -50)
  /\ text (lbl_down_val
             (fst (update_network (quiet_sample 0 [] (counters 100 200))
                                  (init 1 (counters 150 250)))))
     = "-50.00B/s"
  /\ text (lbl_down_val
             (fst (update_network (quiet_sample 0 [] (counters 100 200))
                                  (init 1 (counters 150 250)))))
     <> "0.00B/s".
Proof.
  split; [reflexivity|].
  assert (text (lbl_down_val
             (fst (update_network (quiet_sample 0 [] (counters 100 200))
                                  (init 1 (counters 150 250)))))
          = "-50.00B/s") as E by (vm_compute; reflexivity).
  split; [exact E|]. rewrite E. discriminate.
Qed.

(** ** Lists *)

Lemma length_list_alter {A} (f : A -> A) (i : nat) (l : list A) :
  List.length (list_alter f i l) = List.length l.
Proof.
  revert i. induction l as [|x l IH]; intros [|i]; simpl; auto.
Qed.

Lemma nth_error_list_alter {A} (f : A -> A) (i j : nat) (l : list A) :
  nth_error (list_alter f i l) j
  = if Nat.eqb j i then option_map f (nth_error l j) else nth_error l j.
Proof.
  revert i j. induction l as [|x l IH]; intros [|i] [|j]; simpl; auto.
  destruct (Nat.eqb j i); reflexivity.
Qed.

Lemma list_alter_ge {A} (f : A -> A) (i : nat) (l : list A) :
  (List.length l <= i)%nat -> list_alter f i l = l.
Proof.
  revert i. induction l as [|x l IH]; intros [|i] L; simpl in *;
    try reflexivity; try lia.
  f_equal. apply IH. lia.
Qed.

Lemma list_alter_compose {A} (f g : A -> A) (i : nat) (l : list A) :
  list_alter g i (list_alter f i l) = list_alter (fun x => g (f x)) i l.
Proof.
  revert i. induction l as [|x l IH]; intros [|i]; simpl; auto.
  now rewrite IH.
Qed.

(** ** The CPU step *)

Lemma core_body_run (i : nat) (usage : Q) (a : App) :
  core_body i usage a
  = (upd_core_widgets (list_alter (core_shown i usage) i) a, Returns tt).
Proof.
  unfold core_body, mbind, lift, modify. cbn [py_format_f].
  rewrite py_truediv_float_100.
  unfold upd_core_widgets. cbn [core_widgets old_net_io ping_latency
    lbl_uptime lbl_cpu_val prog_cpu lbl_cpu_freq lbl_ram_text prog_ram
    lbl_swap_text prog_swap drives_container drive_widgets lbl_ping
    lbl_down_val lbl_up_val].
  rewrite !list_alter_compose. reflexivity.
Qed.

Lemma update_cores_spec (cores : list Q) (i : nat) (a : App) :
  snd (update_cores i cores a) = Returns tt
  /\ List.length (core_widgets (fst (update_cores i cores a)))
     = List.length (core_widgets a)
  /\ forall j,
       nth_error (core_widgets (fst (update_cores i cores a))) j
       = match (if Nat.leb i j then nth_error cores (j - i) else None) with
         | Some u => option_map (core_shown j u) (nth_error (core_widgets a) j)
         | None => nth_error (core_widgets a) j
         end.
Proof.
  revert i a. induction cores as [|u cores IH]; intros i a.
  - simpl. repeat split. intros j. destruct (Nat.leb i j); [|reflexivity].
    destruct (j - i)%nat; reflexivity.
  - cbn [update_cores]. unfold mbind at 1, gets.
    set (ws := core_widgets a).
    assert (exists a1,
               (if Nat.ltb i (List.length ws) then core_body i u else ret tt) a
               = (a1, Returns tt)
               /\ core_widgets a1 = list_alter (core_shown i u) i ws)
      as (a1 & E1 & W1).
    { destruct (Nat.ltb i (List.length ws)) eqn:L.
      - rewrite core_body_run. eexists. split; reflexivity.
      - exists a. split; [reflexivity|]. apply Nat.ltb_ge in L.
        symmetry. now apply list_alter_ge. }
    unfold mbind. unfold ws in *. rewrite !E1. cbv beta iota.
    destruct (IH (S i) a1) as (R & Len & Nth).
    split; [exact R|]. split.
    + rewrite Len, W1. apply length_list_alter.
    + intros j. rewrite Nth, W1, nth_error_list_alter.
      destruct (Nat.leb (S i) j) eqn:L1.
      * apply Nat.leb_le in L1.
        replace (Nat.leb i j) with true by (symmetry; apply Nat.leb_le; lia).
        replace (Nat.eqb j i) with false by (symmetry; apply Nat.eqb_neq; lia).
        replace (j - i)%nat with (S (j - S i)) by lia. reflexivity.
      * apply Nat.leb_gt in L1.
        destruct (Nat.eqb j i) eqn:L2.
        -- apply Nat.eqb_eq in L2. subst j.
           rewrite Nat.leb_refl, Nat.sub_diag. reflexivity.
        -- apply Nat.eqb_neq in L2.
           replace (Nat.leb i j) with false by (symmetry; apply Nat.leb_gt; lia).
           reflexivity.
Qed.

Lemma update_cpu_run (s : Sample) (a : App) :
  update_cpu s a = update_cores 0 (cpu_percent_percpu s) (cpu_header s a).
Proof.
  unfold update_cpu, mbind, lift, modify, py_rsub.
  rewrite float_of_int_100. cbn [bind py_format_f].
  rewrite py_truediv_float_100. reflexivity.
Qed.

(** What the rest of the tick leaves alone is what the first step left. *)
Lemma mbind_frame {X A B} (f : App -> X) (m : M A) (k : A -> M B) (a : App) :
  (forall x, preserves f (k x)) -> f (fst (mbind m k a)) = f (fst (m a)).
Proof.
  intros H. unfold mbind. destruct (m a) as [a' [x|e]]; simpl; [apply H|reflexivity].
Qed.

Lemma tick_cpu_frame {X} (f : App -> X) (s : Sample) (a : App) :
  (forall g b, f (upd_lbl_ram_text g b) = f b) ->
  (forall g b, f (upd_prog_ram g b) = f b) ->
  (forall g b, f (upd_lbl_swap_text g b) = f b) ->
  (forall g b, f (upd_prog_swap g b) = f b) ->
  (forall g b, f (upd_drive_widgets g b) = f b) ->
  (forall g b, f (upd_drives_container g b) = f b) ->
  (forall g b, f (set_old_net_io g b) = f b) ->
  (forall g b, f (upd_lbl_down_val g b) = f b) ->
  (forall g b, f (upd_lbl_up_val g b) = f b) ->
  (forall g b, f (upd_lbl_ping g b) = f b) ->
  (forall g b, f (upd_lbl_uptime g b) = f b) ->
  f (fst (update_ui_loop s a)) = f (fst (update_cpu s a)).
Proof.
  intros H1 H2 H3 H4 H5 H6 H7 H8 H9 H10 H11.
  unfold update_ui_loop. apply mbind_frame. intros _.
  apply preserves_bind; [now apply update_memory_frame|intros _].
  apply preserves_bind; [now apply update_storage_frame|intros _].
  apply preserves_bind; [|intros _].
  { unfold update_network.
    repeat first
      [ apply preserves_lift | apply preserves_gets
      | apply preserves_modify; intros; first [apply H7|apply H8|apply H9]
      | apply preserves_bind; [|intros ?] ]. }
  apply preserves_bind; [now apply update_ping_frame|intros _].
  now apply update_uptime_frame.
Qed.

Lemma float_repr_45 : float_repr 45 = "45.0".
Proof. vm_compute. reflexivity. Qed.

Lemma cpu_free_45 : format_fixed 1 (b64_round ((100 # 1) - 45)) = "55.0".
Proof. vm_compute. reflexivity. Qed.

(** C7, as amended.  On every tick, whatever the aggregate CPU reports,
    the label shows the used percentage as [str] prints the float and,
    behind [Free:], the float [100 - used] with one decimal, and the bar
    gets the colour of the used percentage.  When the aggregate CPU
    reports 45 (the float 45.0) the label therefore reads
    "Used: 45.0% | Free: 55.0%" and the bar has the Low colour. *)
Theorem cpu_label_at_45 (s : Sample) (a : App) :
  let a' := fst (update_ui_loop s a) in
  py_rsub 100 (PyFloat (cpu_percent s))
  = Returns (PyFloat (b64_round ((100 # 1) - cpu_percent s)))
  /\ text (lbl_cpu_val a')
     = "Used: " ++ float_repr (cpu_percent s) ++ "% | Free: "
       ++ format_fixed 1 (b64_round ((100 # 1) - cpu_percent s)) ++ "%"
  /\ progress_color (prog_cpu a')
     = Some (get_color_by_usage (PyFloat (cpu_percent s)))
  /\ (cpu_percent s = 45%Q ->
      text (lbl_cpu_val a') = "Used: 45.0% | Free: 55.0%"
      /\ progress_color (prog_cpu a') = Some (band_color Low)).
Proof.
  intros a'.
  assert (lbl_cpu_val a' = lbl_cpu_val (cpu_header s a)) as EL.
  { unfold a'. rewrite (tick_cpu_frame lbl_cpu_val) by reflexivity.
    rewrite update_cpu_run.
    apply (update_cores_frame lbl_cpu_val). reflexivity. }
  assert (prog_cpu a' = prog_cpu (cpu_header s a)) as EP.
  { unfold a'. rewrite (tick_cpu_frame prog_cpu) by reflexivity.
    rewrite update_cpu_run.
    apply (update_cores_frame prog_cpu). reflexivity. }
  rewrite EL, EP. unfold cpu_header. cbv zeta.
  cbn [lbl_cpu_val prog_cpu upd_prog_cpu upd_lbl_cpu_freq upd_lbl_cpu_val
       text configure_text progress_color bar_configure].
  split; [|split; [reflexivity|split; [reflexivity|]]].
  - unfold py_rsub. rewrite float_of_int_100. reflexivity.
  - intros H. split.
    + rewrite H, float_repr_45, cpu_free_45. reflexivity.
    + rewrite H. reflexivity.
Qed.

Lemma cpu_label_at_45_witness :
  text (lbl_cpu_val
          (fst (update_ui_loop (quiet_sample 45 [45%Q] (counters 0 0))
                               (init 1 (counters 0 0)))))
  = "Used: 45.0% | Free: 55.0%".
Proof.
  apply (cpu_label_at_45 (quiet_sample 45 [45%Q] (counters 0 0))
                         (init 1 (counters 0 0))).
  reflexivity.
Defined.

Lemma cpu_label_is_float_repr :
  text (lbl_cpu_val
          (fst (update_ui_loop (quiet_sample 45 [45%Q] (counters 0 0))
                               (init 1 (counters 0 0)))))
  = "Used: 45.0% | Free: 55.0%"
  /\ text (lbl_cpu_val
             (fst (update_ui_loop (quiet_sample 45 [45%Q] (counters 0 0))
                                  (init 1 (counters 0 0)))))
     <> "Used: 45% | Free: 55.0%".
Proof.
  assert (text (lbl_cpu_val
             (fst (update_ui_loop (quiet_sample 45 [45%Q] (counters 0 0))
                                  (init 1 (counters 0 0)))))
          = "Used: 45.0% | Free: 55.0%") as E by (vm_compute; reflexivity).
  split; [exact E|]. rewrite E. discriminate.
Qed.

(** ** Per-core entries *)

Lemma tick_core_widgets (s : Sample) (a : App) :
  core_widgets (fst (update_ui_loop s a))
  = core_widgets (fst (update_cores 0 (cpu_percent_percpu s) (cpu_header s a))).
Proof.
  rewrite (tick_cpu_frame core_widgets) by reflexivity.
  now rewrite update_cpu_run.
Qed.

(** C9, as amended.  The window holds one (label, bar) pair for every core
    index below min(cpu_count, 32) and none from index 32 on; a tick keeps
    the number and the positions of the pairs, rewrites the pair of every
    core of the sequence that has one, and leaves the other pairs and the
    other cores alone. *)
Theorem core_entries_capped_at_32
  (cpu_count : nat) (net0 : snetio) (s : Sample) (a : App) :
  List.length (core_widgets (init cpu_count net0)) = Nat.min cpu_count 32
  /\ (forall i, (i < Nat.min cpu_count 32)%nat ->
        nth_error (core_widgets (init cpu_count net0)) i
        = Some (new_core_widget i))
  /\ (forall i, (32 <= i)%nat ->
        nth_error (core_widgets (init cpu_count net0)) i = None)
  /\ List.length (core_widgets (fst (update_ui_loop s a)))
     = List.length (core_widgets a)
  /\ (forall i w u,
        nth_error (core_widgets a) i = Some w ->
        nth_error (cpu_percent_percpu s) i = Some u ->
        nth_error (core_widgets (fst (update_ui_loop s a))) i
        = Some (core_shown i u w))
  /\ (forall i,
        nth_error (cpu_percent_percpu s) i = None ->
        nth_error (core_widgets (fst (update_ui_loop s a))) i
        = nth_error (core_widgets a) i)
  /\ (forall i,
        nth_error (core_widgets a) i = None ->
        nth_error (core_widgets (fst (update_ui_loop s a))) i = None).
Proof.
  assert (List.length (core_widgets (init cpu_count net0))
          = Nat.min cpu_count 32) as Len.
  { cbn [init core_widgets]. unfold create_cpu_section.
    now rewrite length_map, length_seq. }
  split; [exact Len|]. split; [|split].
  - intros i Hi. cbn [init core_widgets]. unfold create_cpu_section.
    rewrite nth_error_map, nth_error_seq.
    replace (Nat.ltb i (Nat.min cpu_count 32)) with true
      by (symmetry; apply Nat.ltb_lt; exact Hi).
    reflexivity.
  - intros i Hi. apply nth_error_None. rewrite Len. lia.
  - rewrite tick_core_widgets.
    destruct (update_cores_spec (cpu_percent_percpu s) 0 (cpu_header s a))
      as (_ & L & N).
    change (core_widgets (cpu_header s a)) with (core_widgets a) in *.
    split; [exact L|]. split; [|split].
    + intros i w u Hw Hu. rewrite N. cbn [Nat.leb].
      rewrite Nat.sub_0_r, Hu, Hw. reflexivity.
    + intros i Hu. rewrite N. cbn [Nat.leb].
      rewrite Nat.sub_0_r, Hu. reflexivity.
    + intros i Hw. rewrite N. cbn [Nat.leb]. rewrite Nat.sub_0_r, Hw.
      destruct (nth_error (cpu_percent_percpu s) i); reflexivity.
Qed.

Lemma thirty_third_core_has_no_entry :
  nth_error (cpu_percent_percpu
               (quiet_sample 50 (repeat 50%Q 33) (counters 0 0))) 32
  = Some 50%Q
  /\ nth_error (core_widgets (init 33 (counters 0 0))) 32 = None
  /\ nth_error
       (core_widgets
          (fst (update_ui_loop
                  (quiet_sample 50 (repeat 50%Q 33) (counters 0 0))
                  (init 33 (counters 0 0))))) 32
     = None.
Proof. repeat split; vm_compute; reflexivity. Qed.

(** ** Latency *)

Lemma run_ends_with_failed_probe (evs : list event) (e : exn)
      (armed : bool) (a : App) :
  ping_latency (run (evs ++ [Probe (ConnectFailed e)]) armed a) = PyInt (-1).
Proof.
  revert armed a. induction evs as [|[r|s] evs IH]; intros armed a; simpl.
  - reflexivity.
  - apply IH.
  - destruct armed; [|apply IH].
    destruct (update_ui_loop s a) as [a' [[]|x]]; apply IH.
Qed.

Lemma offline_is_not_numeric (txt : string) :
  offline_text <> "Ping (Google): " ++ txt ++ " ms".
Proof. unfold offline_text. simpl. discriminate. Qed.

(** C6.  After any history that ends with a failed probe cycle the latency
    state is the sentinel -1, and a tick that then completes shows the
    offline text in the critical colour, which is none of the numeric
    renderings. *)
Theorem failed_probe_renders_offline
  (evs : list event) (e : exn) (armed : bool) (a : App)
  (s : Sample) (a' : App) :
  update_ui_loop s (run (evs ++ [Probe (ConnectFailed e)]) armed a)
  = (a', Returns tt) ->
  ping_latency (check_ping_logic (ConnectFailed e) a) = PyInt (-1)
  /\ ping_latency (run (evs ++ [Probe (ConnectFailed e)]) armed a)
     = PyInt (-1)
  /\ text (lbl_ping a') = offline_text
  /\ text_color (lbl_ping a') = Some COLOR_CRIT
  /\ (forall txt, text (lbl_ping a') <> "Ping (Google): " ++ txt ++ " ms").
Proof.
  intros H.
  pose proof (run_ends_with_failed_probe evs e armed a) as P.
  set (a0 := run (evs ++ [Probe (ConnectFailed e)]) armed a) in *.
  unfold update_ui_loop in H.
  apply mbind_returns in H as (a1 & [] & H1 & H).
  apply mbind_returns in H as (a2 & [] & H2 & H).
  apply mbind_returns in H as (a3 & [] & H3 & H).
  apply mbind_returns in H as (a4 & [] & H4 & H).
  apply mbind_returns in H as (a5 & [] & H5 & H).
  assert (ping_latency a4 = PyInt (-1)) as E4.
  { pose proof (update_cpu_frame ping_latency s
                  ltac:(reflexivity) ltac:(reflexivity)
                  ltac:(reflexivity) ltac:(reflexivity) a0) as F1.
    pose proof (update_memory_frame ping_latency s
                  ltac:(reflexivity) ltac:(reflexivity)
                  ltac:(reflexivity) ltac:(reflexivity) a1) as F2.
    pose proof (update_storage_frame ping_latency s
                  ltac:(reflexivity) ltac:(reflexivity) a2) as F3.
    assert (preserves ping_latency (update_network s)) as F4.
    { unfold update_network. frame. }
    specialize (F4 a3).
    rewrite H1 in F1. rewrite H2 in F2. rewrite H3 in F3. rewrite H4 in F4.
    simpl in *. congruence. }
  assert (lbl_ping a5
          = {| text := offline_text; text_color := Some COLOR_CRIT |}) as E5.
  { unfold update_ping, mbind, gets in H5. rewrite E4 in H5.
    change (py_eq (PyInt (-1)) (PyInt (-1))) with true in H5.
    cbv iota in H5. unfold modify in H5. injection H5 as <-. reflexivity. }
  assert (lbl_ping a' = lbl_ping a5) as E6.
  { pose proof (update_uptime_frame lbl_ping s ltac:(reflexivity) a5) as F6.
    rewrite H in F6. exact F6. }
  rewrite E6, E5. cbn [text text_color].
  repeat split; try assumption. apply offline_is_not_numeric.
Qed.

Lemma failed_probe_renders_offline_witness :
  text (lbl_ping
          (fst (update_ui_loop
                  (quiet_sample 10 [10%Q] (counters 0 0))
                  (run ([Tick (quiet_sample 10 [10%Q] (counters 0 0));
                         Probe (Connected (25 # 2))]
                        ++ [Probe (ConnectFailed OSError)])
                       true (init 1 (counters 0 0))))))
  = offline_text.
Proof.
  apply (failed_probe_renders_offline
           [Tick (quiet_sample 10 [10%Q] (counters 0 0));
            Probe (Connected (25 # 2))]
           OSError true (init 1 (counters 0 0))
           (quiet_sample 10 [10%Q] (counters 0 0))).
  vm_compute. reflexivity.
Defined.

(** ** Dictionaries *)

Section DictFacts.
Context {V : Type}.
Implicit Types (d : dict V) (k : string).

Lemma dict_mem_keys k d : dict_mem k d = mem_str k (dict_keys d).
Proof.
  unfold dict_mem, mem_str. induction d as [|[k' v] d IH]; simpl.
  - reflexivity.
  - destruct (String.eqb k k'); [reflexivity|exact IH].
Qed.

Lemma dict_keys_set k (v : V) d :
  dict_keys (dict_set k v d) = add_key k (dict_keys d).
Proof.
  unfold add_key, mem_str. induction d as [|[k' v'] d IH]; simpl.
  - reflexivity.
  - destruct (String.eqb k k'); simpl; [reflexivity|].
    rewrite IH. destruct (existsb _ _); reflexivity.
Qed.

Lemma dict_keys_alter (f : V -> V) k d :
  dict_keys (dict_alter f k d) = dict_keys d.
Proof.
  induction d as [|[k' v'] d IH]; simpl; [reflexivity|].
  destruct (String.eqb k k'); simpl; [reflexivity|now rewrite IH].
Qed.

Lemma dict_get_set_eq k (v : V) d :
  dict_mem k d = false -> dict_get k (dict_set k v d) = Some v.
Proof.
  unfold dict_mem. induction d as [|[k' v'] d IH]; simpl.
  - now rewrite String.eqb_refl.
  - destruct (String.eqb k k') eqn:E; [discriminate|]. simpl.
    now rewrite E.
Qed.

Lemma dict_get_set_ne k k' (v : V) d :
  k <> k' -> dict_get k' (dict_set k v d) = dict_get k' d.
Proof.
  intros N. induction d as [|[k0 v0] d IH]; simpl.
  - replace (String.eqb k' k) with false; [reflexivity|].
    symmetry. apply String.eqb_neq. congruence.
  - destruct (String.eqb k k0) eqn:E; simpl.
    + apply String.eqb_eq in E. subst k0.
      replace (String.eqb k' k) with false; [reflexivity|].
      symmetry. apply String.eqb_neq. congruence.
    + destruct (String.eqb k' k0); [reflexivity|exact IH].
Qed.

Lemma dict_get_alter_eq (f : V -> V) k d :
  dict_get k (dict_alter f k d) = option_map f (dict_get k d).
Proof.
  induction d as [|[k' v'] d IH]; simpl; [reflexivity|].
  destruct (String.eqb k k') eqn:E; simpl; rewrite E; [reflexivity|exact IH].
Qed.

Lemma dict_get_alter_ne (f : V -> V) k k' d :
  k <> k' -> dict_get k' (dict_alter f k d) = dict_get k' d.
Proof.
  intros N. induction d as [|[k0 v0] d IH]; simpl; [reflexivity|].
  destruct (String.eqb k k0) eqn:E; simpl.
  - apply String.eqb_eq in E. subst k0.
    replace (String.eqb k' k) with false; [reflexivity|].
    symmetry. apply String.eqb_neq. congruence.
  - destruct (String.eqb k' k0); [reflexivity|exact IH].
Qed.
End DictFacts.

(** ** Discovery order *)

Lemma mem_str_app (k : string) (l1 l2 : list string) :
  mem_str k (l1 ++ l2) = mem_str k l1 || mem_str k l2.
Proof. unfold mem_str. apply existsb_app. Qed.

Lemma filter_filter {A} (f g : A -> bool) (l : list A) :
  filter f (filter g l) = filter (fun x => g x && f x) l.
Proof.
  induction l as [|x l IH]; simpl; [reflexivity|].
  destruct (g x); simpl; [destruct (f x)|]; now rewrite IH.
Qed.

Lemma fold_add_first_seen (l ks : list string) :
  fold_left (fun acc d => add_key d acc) l ks
  = (ks ++ filter (fun y => negb (mem_str y ks)) (first_seen l))%list.
Proof.
  revert ks. induction l as [|x l IH]; intros ks; simpl.
  - now rewrite app_nil_r.
  - rewrite IH. unfold add_key. rewrite filter_filter.
    destruct (mem_str x ks) eqn:E; simpl.
    + f_equal. apply filter_ext. intros y.
      destruct (String.eqb y x) eqn:Eyx; simpl; [|reflexivity].
      apply String.eqb_eq in Eyx. subst y. now rewrite E.
    + rewrite <- app_assoc. simpl. do 2 f_equal.
      apply filter_ext. intros y. rewrite mem_str_app. unfold mem_str at 2.
      simpl. rewrite orb_false_r, negb_orb. apply andb_comm.
  Qed.

Lemma first_seen_In (l : list string) (x : string) :
  In x (first_seen l) <-> In x l.
Proof.
  induction l as [|y l IH]; simpl; [tauto|].
  rewrite filter_In, IH, negb_true_iff, String.eqb_neq.
  destruct (string_dec y x); [tauto|]. intuition congruence.
Qed.

Lemma first_seen_NoDup (l : list string) : NoDup (first_seen l).
Proof.
  induction l as [|y l IH]; simpl; constructor.
  - rewrite filter_In, negb_true_iff, String.eqb_neq. tauto.
  - now apply NoDup_filter.
Qed.

(** ** The drive scan *)

Lemma try_except_returns (body : M unit) (a : App) :
  try_except body (ret tt) a = (fst (try_except body (ret tt) a), Returns tt).
Proof.
  unfold try_except, ret. destruct (body a) as [a' [[]|e]]; reflexivity.
Qed.

Lemma drive_body_excluded (s : Sample) (p : sdiskpart) (a : App) :
  excluded p = true -> drive_body s p a = (a, Returns tt).
Proof. intros E. unfold drive_body. now rewrite E. Qed.

Lemma drive_body_unreadable (s : Sample) (p : sdiskpart) (a : App) e :
  excluded p = false -> disk_usage s (mountpoint p) = Raises e ->
  drive_body s p a = (a, Raises e).
Proof.
  intros E U. unfold drive_body. rewrite E. unfold mbind, lift.
  now rewrite U.
Qed.

Lemma drive_body_run (s : Sample) (p : sdiskpart) (a : App) u :
  excluded p = false -> disk_usage s (mountpoint p) = Returns u ->
  drive_body s p a =
  let a2 := show_drive_bar u (device p) (ensure_row (device p) a) in
  match get_size (PyInt (du_used u)) "B" with
  | Raises e => (a2, Raises e)
  | Returns used =>
      match get_size (PyInt (du_total u)) "B" with
      | Raises e => (a2, Raises e)
      | Returns total =>
          (upd_drive_widgets
             (dict_alter
                (fun w => (fst w,
                           configure_text (drive_details u used total)
                                          (snd w)))
                (device p)) a2,
           Returns tt)
      end
  end.
Proof.
  intros E U. unfold drive_body. rewrite E.
  unfold mbind at 1, lift at 1. rewrite U. cbv beta iota zeta.
  unfold mbind at 1, gets. cbv beta iota.
  unfold ensure_row, show_drive_bar, create_drive_row.
  destruct (dict_mem (device p) (drive_widgets a)); cbn [negb];
    unfold mbind, modify, lift, ret; rewrite py_truediv_float_100;
    cbn [py_str];
    destruct (get_size (PyInt (du_used u)) "B");
    try destruct (get_size (PyInt (du_total u)) "B"); reflexivity.
Qed.

Lemma shown_false (s : Sample) (p : sdiskpart) :
  shown s p = false ->
  excluded p = true
  \/ (excluded p = false /\ exists e, disk_usage s (mountpoint p) = Raises e).
Proof.
  unfold shown. destruct (excluded p); [now left|right]. simpl in H.
  destruct (disk_usage s (mountpoint p)) as [u|e]; [discriminate|].
  split; [reflexivity|now exists e].
Qed.

Lemma shown_true (s : Sample) (p : sdiskpart) :
  shown s p = true ->
  excluded p = false /\ exists u, disk_usage s (mountpoint p) = Returns u.
Proof.
  unfold shown. destruct (excluded p); [discriminate|]. simpl.
  destruct (disk_usage s (mountpoint p)) as [u|e]; [|discriminate].
  intros _. split; [reflexivity|now exists u].
Qed.

Lemma drive_step_skip (s : Sample) (p : sdiskpart) (a : App) :
  shown s p = false ->
  try_except (drive_body s p) (ret tt) a = (a, Returns tt).
Proof.
  intros H. unfold try_except.
  destruct (shown_false s p H) as [E|(E & e & U)].
  - now rewrite drive_body_excluded.
  - now rewrite (drive_body_unreadable s p a e).
Qed.

Lemma ensure_row_keys (name : string) (a : App) :
  dict_keys (drive_widgets (ensure_row name a))
  = add_key name (dict_keys (drive_widgets a))
  /\ (drives_container a = dict_keys (drive_widgets a) ->
      drives_container (ensure_row name a)
      = dict_keys (drive_widgets (ensure_row name a))).
Proof.
  unfold ensure_row, add_key. rewrite <- dict_mem_keys.
  destruct (dict_mem name (drive_widgets a)) eqn:E.
  - split; [reflexivity|auto].
  - cbn [drive_widgets drives_container upd_drive_widgets
         upd_drives_container].
    rewrite dict_keys_set. unfold add_key. rewrite <- dict_mem_keys, E.
    split; [reflexivity|]. intros ->. reflexivity.
Qed.

(** A displayed partition: its key is added once; the rows on screen stay
    in step with the registry. *)
Lemma drive_step_shown (s : Sample) (p : sdiskpart) (a : App) :
  shown s p = true ->
  dict_keys (drive_widgets (drive_step s p a))
  = add_key (device p) (dict_keys (drive_widgets a))
  /\ (drives_container a = dict_keys (drive_widgets a) ->
      drives_container (drive_step s p a)
      = dict_keys (drive_widgets (drive_step s p a))).
Proof.
  intros H. destruct (shown_true s p H) as (E & u & U).
  destruct (ensure_row_keys (device p) a) as [K C].
  unfold drive_step, try_except. rewrite (drive_body_run s p a u E U).
  cbv zeta.
  destruct (get_size (PyInt (du_used u)) "B");
    try destruct (get_size (PyInt (du_total u)) "B");
    unfold ret; cbn [fst]; unfold show_drive_bar;
    cbn [drive_widgets drives_container upd_drive_widgets];
    rewrite ?dict_keys_alter; (split; [exact K|exact C]).
Qed.

Lemma drive_step_keys (s : Sample) (p : sdiskpart) (a : App) :
  dict_keys (drive_widgets (drive_step s p a))
  = (if shown s p then add_key (device p) (dict_keys (drive_widgets a))
     else dict_keys (drive_widgets a))
  /\ (drives_container a = dict_keys (drive_widgets a) ->
      drives_container (drive_step s p a)
      = dict_keys (drive_widgets (drive_step s p a))).
Proof.
  destruct (shown s p) eqn:H.
  - now apply drive_step_shown.
  - unfold drive_step. rewrite drive_step_skip by exact H. simpl. auto.
Qed.

Lemma for_each_steps (s : Sample) (ps : list sdiskpart) (a : App) :
  for_each ps (fun p => try_except (drive_body s p) (ret tt)) a
  = (fold_left (fun b p => drive_step s p b) ps a, Returns tt).
Proof.
  revert a. induction ps as [|p ps IH]; intros a; [reflexivity|].
  cbn [for_each fold_left]. unfold mbind.
  rewrite try_except_returns. cbv beta iota. apply IH.
Qed.

Lemma update_storage_steps (s : Sample) (a : App) :
  update_storage s a
  = (fold_left (fun b p => drive_step s p b) (disk_partitions s) a,
     Returns tt).
Proof. apply for_each_steps. Qed.

Lemma for_each_filter_shown (s : Sample) (ps : list sdiskpart) (a : App) :
  for_each ps (fun p => try_except (drive_body s p) (ret tt)) a
  = for_each (filter (shown s) ps)
             (fun p => try_except (drive_body s p) (ret tt)) a.
Proof.
  revert a. induction ps as [|p ps IH]; intros a; [reflexivity|].
  cbn [for_each filter]. destruct (shown s p) eqn:H.
  - cbn [for_each]. unfold mbind.
    destruct (try_except (drive_body s p) (ret tt) a) as [a' [[]|e]];
      [apply IH|reflexivity].
  - unfold mbind. rewrite drive_step_skip by exact H. apply IH.
Qed.

Lemma fold_steps_keys (s : Sample) (ps : list sdiskpart) (a : App) :
  dict_keys (drive_widgets (fold_left (fun b p => drive_step s p b) ps a))
  = fold_left (fun acc d => add_key d acc)
              (map device (filter (shown s) ps))
              (dict_keys (drive_widgets a))
  /\ (drives_container a = dict_keys (drive_widgets a) ->
      drives_container (fold_left (fun b p => drive_step s p b) ps a)
      = dict_keys
          (drive_widgets (fold_left (fun b p => drive_step s p b) ps a))).
Proof.
  revert a. induction ps as [|p ps IH]; intros a; [simpl; auto|].
  cbn [fold_left filter].
  destruct (drive_step_keys s p a) as [K C].
  destruct (IH (drive_step s p a)) as [K' C'].
  split; [|auto].
  rewrite K', K. destruct (shown s p); reflexivity.
Qed.

Lemma storage_run_keys (ss : list Sample) (a : App) :
  dict_keys (drive_widgets (storage_run ss a))
  = fold_left (fun acc d => add_key d acc) (observed ss)
              (dict_keys (drive_widgets a))
  /\ (drives_container a = dict_keys (drive_widgets a) ->
      drives_container (storage_run ss a)
      = dict_keys (drive_widgets (storage_run ss a))).
Proof.
  unfold storage_run, observed.
  revert a. induction ss as [|s ss IH]; intros a; [simpl; auto|].
  cbn [fold_left flat_map]. rewrite fold_left_app.
  rewrite update_storage_steps. cbn [fst].
  destruct (fold_steps_keys s (disk_partitions s) a) as [K C].
  destruct (IH (fold_left (fun b p => drive_step s p b)
                          (disk_partitions s) a)) as [K' C'].
  split; [|auto]. rewrite K', K. reflexivity.
Qed.

(** What one displayed partition leaves in the registry. *)
Lemma drive_step_values (s : Sample) (p : sdiskpart) (b : App) u used total :
  excluded p = false ->
  disk_usage s (mountpoint p) = Returns u ->
  get_size (PyInt (du_used u)) "B" = Returns used ->
  get_size (PyInt (du_total u)) "B" = Returns total ->
  (exists w,
      dict_get (device p) (drive_widgets (drive_step s p b)) = Some w
      /\ bar_value (fst w)
         = Some (PyFloat (b64_round (du_percent u / (100 # 1))))
      /\ progress_color (fst w)
         = Some (get_color_by_usage (PyFloat (du_percent u)))
      /\ text (snd w) = drive_details u used total)
  /\ (forall d', d' <> device p ->
        dict_get d' (drive_widgets (drive_step s p b))
        = dict_get d' (drive_widgets b)).
Proof.
  intros E U G1 G2. unfold drive_step, try_except.
  rewrite (drive_body_run s p b u E U). cbv zeta. rewrite G1, G2.
  cbn [fst]. unfold show_drive_bar.
  cbn [drive_widgets upd_drive_widgets].
  assert (exists w0, dict_get (device p)
                       (drive_widgets (ensure_row (device p) b)) = Some w0)
    as [w0 W0].
  { unfold ensure_row.
    destruct (dict_mem (device p) (drive_widgets b)) eqn:Em.
    - unfold dict_mem in Em.
      destruct (dict_get (device p) (drive_widgets b)) as [w|];
        [now exists w|discriminate].
    - cbn [drive_widgets upd_drive_widgets upd_drives_container].
      eexists. now apply dict_get_set_eq. }
  split.
  - rewrite !dict_get_alter_eq, W0. cbn [option_map].
    eexists. split; [reflexivity|]. cbn. repeat split.
  - intros d' N. rewrite !dict_get_alter_ne by congruence.
    unfold ensure_row.
    destruct (dict_mem (device p) (drive_widgets b)); [reflexivity|].
    cbn [drive_widgets upd_drive_widgets upd_drives_container].
    apply dict_get_set_ne. congruence.
Qed.

(** C5.  After any number of drive scans from the initial state the
    registry has no duplicate key, holds exactly the devices that were
    displayed, each once, in the order of their first observation, and the
    rows on screen follow it; a later scan only appends keys; and one
    displayed observation leaves under the device's key the values of that
    observation and changes no other entry. *)
Theorem drive_registry_one_entry_per_device
  (ss : list Sample) (cpu_count : nat) (net0 : snetio) :
  let a := storage_run ss (init cpu_count net0) in
  let keys := dict_keys (drive_widgets a) in
  NoDup keys
  /\ (forall d, In d keys <-> In d (observed ss))
  /\ (forall d, In d (observed ss) -> count_occ string_dec keys d = 1%nat)
  /\ keys = first_seen (observed ss)
  /\ drives_container a = keys
  /\ (forall s, exists fresh,
        dict_keys (drive_widgets (fst (update_storage s a)))
        = (keys ++ fresh)%list)
  /\ (forall (s : Sample) (p : sdiskpart) (b : App) u used total,
        excluded p = false ->
        disk_usage s (mountpoint p) = Returns u ->
        get_size (PyInt (du_used u)) "B" = Returns used ->
        get_size (PyInt (du_total u)) "B" = Returns total ->
        (exists w,
            dict_get (device p) (drive_widgets (drive_step s p b)) = Some w
            /\ bar_value (fst w)
               = Some (PyFloat (b64_round (du_percent u / (100 # 1))))
            /\ progress_color (fst w)
               = Some (get_color_by_usage (PyFloat (du_percent u)))
            /\ text (snd w) = drive_details u used total)
        /\ (forall d', d' <> device p ->
              dict_get d' (drive_widgets (drive_step s p b))
              = dict_get d' (drive_widgets b))).
Proof.
  intros a keys.
  destruct (storage_run_keys ss (init cpu_count net0)) as [K C].
  fold a in K, C. fold keys in K, C.
  cbn [init drive_widgets drives_container dict_keys map] in K, C.
  rewrite fold_add_first_seen in K. cbn [app] in K.
  assert (keys = first_seen (observed ss)) as Ek.
  { rewrite K. clear. induction (first_seen (observed ss)) as [|x l IH];
      [reflexivity|]. cbn [filter mem_str existsb negb]. now f_equal. }
  assert (NoDup keys) as Nd by (rewrite Ek; apply first_seen_NoDup).
  split; [exact Nd|]. split; [|split; [|split; [|split; [|split]]]].
  - intros d. rewrite Ek. apply first_seen_In.
  - intros d Hd. apply NoDup_count_occ'; [exact Nd|].
    rewrite Ek. now apply first_seen_In.
  - exact Ek.
  - apply C. reflexivity.
  - intros s. rewrite update_storage_steps. cbn [fst].
    destruct (fold_steps_keys s (disk_partitions s) a) as [K2 _].
    rewrite K2, fold_add_first_seen. fold keys. eexists. reflexivity.
  - intros s p b u used total. apply drive_step_values.
Qed.

(** C8.  The drive scan never raises; a partition with an empty file
    system type or with cdrom among its options leaves the state as it is,
    and so does a partition whose usage query raises; the scan is the scan
    of the remaining partitions; and a tick that reaches the scan goes on
    with the network step, from the state the scan left. *)
Theorem drive_scan_skips_and_survives (s : Sample) (a : App) :
  snd (update_storage s a) = Returns tt
  /\ (forall p b,
        fstype p = EmptyString \/ str_contains "cdrom" (opts p) = true ->
        try_except (drive_body s p) (ret tt) b = (b, Returns tt))
  /\ (forall p b e,
        disk_usage s (mountpoint p) = Raises e ->
        try_except (drive_body s p) (ret tt) b = (b, Returns tt))
  /\ update_storage s a
     = for_each (filter (shown s) (disk_partitions s))
                (fun p => try_except (drive_body s p) (ret tt)) a
  /\ (forall a1 a2,
        update_cpu s a = (a1, Returns tt) ->
        update_memory s a1 = (a2, Returns tt) ->
        update_ui_loop s a
        = (_ <~ update_network s ;; _ <~ update_ping ;; update_uptime s)
            (fst (update_storage s a2))).
Proof.
  split; [now rewrite update_storage_steps|]. split; [|split; [|split]];
    [| | |intros a1 a2 H1 H2; unfold update_ui_loop;
           unfold mbind at 1; rewrite H1;
           unfold mbind at 1; rewrite H2;
           unfold mbind at 1; rewrite update_storage_steps; reflexivity].
  - intros p b H. apply drive_step_skip. unfold shown.
    assert (excluded p = true) as ->; [|reflexivity].
    unfold excluded. destruct H as [-> | ->]; [|reflexivity].
    apply orb_true_r.
  - intros p b e U. apply drive_step_skip. unfold shown. rewrite U.
    apply andb_false_r.
  - apply for_each_filter_shown.
Qed.

(** * Further properties of the code *)

(** ** Exact results of the rounding *)

Lemma Zdiv_half_even_exact (N b : Z) : 0 < b -> Zdiv_half_even (N * b) b = N.
Proof.
  intros Hb. unfold Zdiv_half_even.
  rewrite Z.div_mul, Z.mod_mul by lia.
  replace (2 * 0 ?= b) with Lt by (symmetry; apply Z.compare_lt_iff; lia).
  reflexivity.
Qed.

Lemma Zdiv_half_even_scale (a b c : Z) :
  0 < b -> 0 < c -> Zdiv_half_even (a * c) (b * c) = Zdiv_half_even a b.
Proof.
  intros Hb Hc. unfold Zdiv_half_even.
  rewrite Z.div_mul_cancel_r, Z.mul_mod_distr_r by lia.
  replace (2 * (a mod b * c)) with (2 * (a mod b) * c) by ring.
  rewrite <- (Zmult_compare_compat_r (2 * (a mod b)) b c) by lia.
  reflexivity.
Qed.

Lemma Zdiv_half_even_ratio (a b a' b' : Z) :
  0 < b -> 0 < b' -> a * b' = a' * b ->
  Zdiv_half_even a b = Zdiv_half_even a' b'.
Proof.
  intros Hb Hb' E.
  rewrite <- (Zdiv_half_even_scale a b b'), <- (Zdiv_half_even_scale a' b' b)
    by lia.
  rewrite E. f_equal. ring.
Qed.

Lemma pow2Q_Qpower (e : Z) : (pow2Q e == 2 ^ e)%Q.
Proof.
  unfold pow2Q. destruct (0 <=? e) eqn:He.
  - apply Z.leb_le in He. now rewrite Zpower_Qpower.
  - apply Z.leb_gt in He.
    assert (0 < 2 ^ (- e)) as P by (apply Z.pow_pos_nonneg; lia).
    replace e with (- - e) at 2 by lia.
    rewrite Qpower_opp, <- (Zpower_Qpower 2 (- e)) by lia.
    destruct (2 ^ (- e)) as [|p|p]; try lia. reflexivity.
Qed.

Lemma pow2Q_pos (e : Z) : (0 < pow2Q e)%Q.
Proof. rewrite pow2Q_Qpower. now apply Qpower_0_lt. Qed.

Lemma pow2Q_add (x y : Z) : (pow2Q (x + y) == pow2Q x * pow2Q y)%Q.
Proof. rewrite !pow2Q_Qpower. now apply Qpower_plus. Qed.

Lemma pow2Q_lt_inv (x y : Z) : (pow2Q x < pow2Q y)%Q -> x < y.
Proof.
  rewrite !pow2Q_Qpower. intros H.
  now apply (Qpower_lt_compat_l_inv 2).
Qed.

Lemma ilog2_frac_lower_Q (a b : Z) :
  0 < a -> 0 < b ->
  (pow2Q (ilog2_frac a b) <= a # Z.to_pos b)%Q.
Proof.
  intros Ha Hb. pose proof (ilog2_frac_lower a b Ha Hb) as L.
  unfold frac_ge1, scale2, pow2Q in *.
  destruct (0 <=? ilog2_frac a b) eqn:E; simpl in L; apply Z.leb_le in L.
  - unfold Qle. simpl. rewrite Z2Pos.id by lia. lia.
  - apply Z.leb_gt in E.
    assert (0 < 2 ^ (- ilog2_frac a b)) by (apply Z.pow_pos_nonneg; lia).
    unfold Qle. simpl. rewrite !Z2Pos.id by lia. lia.
Qed.

(** The scaled fraction of an exact value is an integer. *)
Lemma scale2_exact (a : Z) (b : positive) (N e : Z) :
  (a # b == inject_Z N * pow2Q e)%Q ->
  fst (scale2 a (Zpos b) e) = N * snd (scale2 a (Zpos b) e).
Proof.
  unfold scale2, pow2Q. destruct (0 <=? e) eqn:E; intros H; cbn [fst snd].
  - rewrite <- inject_Z_mult in H. unfold Qeq in H.
    cbn [Qnum Qden inject_Z] in H. rewrite Z.mul_1_r in H. rewrite H. ring.
  - apply Z.leb_gt in E.
    assert (0 < 2 ^ (- e)) by (apply Z.pow_pos_nonneg; lia).
    unfold Qeq in H. cbn [Qnum Qden inject_Z Qmult] in H.
    rewrite Pos.mul_1_l, Z2Pos.id, Z.mul_1_r in H by lia. exact H.
Qed.

(** A binary64 value is its own rounding. *)
Lemma b64_round_exact (q : Q) (m e' : Z) :
  Z.abs m < 2 ^ 53 -> -1074 <= e' ->
  (q == inject_Z m * pow2Q e')%Q -> (b64_round q == q)%Q.
Proof.
  intros Hm He' Hq. destruct q as [a b].
  destruct (Z.eq_dec a 0) as [->|Ha]; [reflexivity|].
  rewrite b64_round_unfold by (simpl; exact Ha). simpl Qnum. simpl Qden.
  set (ex := ilog2_frac (Z.abs a) (Z.pos b)).
  assert (ex < 53 + e') as Hex.
  { apply pow2Q_lt_inv.
    eapply Qle_lt_trans;
      [apply (ilog2_frac_lower_Q (Z.abs a) (Z.pos b)); lia|].
    change (Z.abs a # Z.to_pos (Z.pos b)) with (Qabs (a # b)).
    rewrite Hq, Qabs_Qmult, (Qabs_pos (pow2Q e'))
      by (apply Qlt_le_weak, pow2Q_pos).
    rewrite pow2Q_add.
    apply Qmult_lt_compat_r; [apply pow2Q_pos|].
    change (Qabs (inject_Z m)) with (inject_Z (Z.abs m)).
    change (pow2Q 53) with (inject_Z (2 ^ 53)).
    now rewrite <- Zlt_Qlt. }
  unfold b64_ulp_exp. fold ex.
  set (e := Z.max (ex - 52) (-1074)).
  assert (e <= e') as Hee by lia.
  assert (a # b == inject_Z (m * 2 ^ (e' - e)) * pow2Q e)%Q as HN.
  { rewrite Hq, inject_Z_mult.
    replace e' with ((e' - e) + e) at 1 by lia.
    rewrite pow2Q_add. unfold pow2Q at 1.
    replace (0 <=? e' - e) with true by (symmetry; apply Z.leb_le; lia).
    ring. }
  rewrite (scale2_exact a b _ e HN).
  rewrite Zdiv_half_even_exact by (apply scale2_snd_pos; lia).
  symmetry. exact HN.
Qed.

Lemma b64_round_int_exact (n : Z) :
  Z.abs n < 2 ^ 53 -> (b64_round (inject_Z n) == inject_Z n)%Q.
Proof.
  intros H. apply (b64_round_exact _ n 0); [exact H|lia|].
  change (pow2Q 0) with 1%Q. ring.
Qed.

(** ** Formatting respects the value *)

Lemma format_fixed_compat (prec : nat) (x y : Q) :
  (x == y)%Q -> format_fixed prec x = format_fixed prec y.
Proof.
  intros E. unfold format_fixed.
  assert ((Qnum x <? 0) = (Qnum y <? 0)) as ->.
  { destruct x as [a b], y as [a' b']. unfold Qeq in E. simpl in *.
    destruct (Z.ltb_spec a 0), (Z.ltb_spec a' 0); try reflexivity; nia. }
  assert (Zdiv_half_even (Z.abs (Qnum x) * 10 ^ Z.of_nat prec) (QDen x)
          = Zdiv_half_even (Z.abs (Qnum y) * 10 ^ Z.of_nat prec) (QDen y))
    as ->; [|reflexivity].
  apply Zdiv_half_even_ratio; try lia.
  destruct x as [a b], y as [a' b']. unfold Qeq in E. simpl in *.
  assert (Z.abs a * Z.pos b' = Z.abs a' * Z.pos b) by nia. nia.
Qed.

Lemma py_lt_int_compat (x y : Q) (c : Z) :
  (x == y)%Q -> py_lt (PyFloat x) (PyInt c) = py_lt (PyFloat y) (PyInt c).
Proof.
  intros E. unfold py_lt. simpl value. f_equal.
  destruct (Qle_bool (inject_Z c) x) eqn:A, (Qle_bool (inject_Z c) y) eqn:B;
    try reflexivity.
  - apply Qle_bool_iff in A. rewrite E in A. apply Qle_bool_iff in A. congruence.
  - apply Qle_bool_iff in B. rewrite <- E in B. apply Qle_bool_iff in B.
    congruence.
Qed.

(** ** Sizes that are computed without rounding *)

Lemma pow2Q_le (x y : Z) : x <= y -> (pow2Q x <= pow2Q y)%Q.
Proof.
  intros H. rewrite !pow2Q_Qpower. apply Qpower_le_compat_l; [exact H|].
  discriminate.
Qed.

Lemma pow2Q_nonneg_exp (e : Z) : 0 <= e -> pow2Q e = inject_Z (2 ^ e).
Proof.
  intros H. unfold pow2Q.
  now replace (0 <=? e) with true by (symmetry; apply Z.leb_le; lia).
Qed.

Lemma scaled_lt_pow2Q (n a b : Z) :
  (inject_Z n < pow2Q a)%Q -> (inject_Z n * pow2Q b < pow2Q (a + b))%Q.
Proof.
  intros H. rewrite pow2Q_add. apply Qmult_lt_compat_r; [apply pow2Q_pos|exact H].
Qed.

Lemma scaled_ge_pow2Q (n a b : Z) :
  (pow2Q a <= inject_Z n)%Q -> (pow2Q (a + b) <= inject_Z n * pow2Q b)%Q.
Proof.
  intros H. rewrite pow2Q_add.
  apply Qmult_le_compat_r; [exact H|apply Qlt_le_weak, pow2Q_pos].
Qed.

Lemma div_factor_pow2Q (x : Q) (n e : Z) :
  (x == inject_Z n * pow2Q e)%Q ->
  (x / (1024 # 1) == inject_Z n * pow2Q (e - 10))%Q.
Proof.
  intros ->. unfold Z.sub. rewrite pow2Q_add.
  change (pow2Q (- (10))) with (1 # 1024)%Q. field.
Qed.

Lemma quotient_pow2Q (n K : Z) :
  0 <= K ->
  (inject_Z n * pow2Q (- (10 * K)) == n # Z.to_pos (1024 ^ K))%Q.
Proof.
  intros HK. destruct (Z.eq_dec K 0) as [->|Hn].
  - change (pow2Q (- (10 * 0))) with 1%Q. change (Z.to_pos (1024 ^ 0)) with 1%positive.
    unfold inject_Z. ring.
  - unfold pow2Q.
    replace (0 <=? - (10 * K)) with false by (symmetry; apply Z.leb_gt; lia).
    rewrite Z.opp_involutive, Z.pow_mul_r by lia. change (2 ^ 10) with 1024.
    unfold Qeq. cbn [Qnum Qden Qmult inject_Z]. rewrite Pos.mul_1_l. ring.
Qed.

(** The loop on a float that holds [n / 1024^j] exactly, for [n < 2^53]:
    every further division is exact, and the unit chosen is the one whose
    range contains [n]. *)
Lemma get_size_loop_exact (k : nat) :
  forall (us : list string) (x : Q) (n j : Z) (u suffix : string),
    0 <= n < 2 ^ 53 -> 0 <= j -> j + Z.of_nat k <= 100 ->
    (x == inject_Z n * pow2Q (- (10 * j)))%Q ->
    nth_error us k = Some u ->
    (k = O \/ (pow2Q (10 * (j + Z.of_nat k)) <= inject_Z n)%Q) ->
    (inject_Z n < pow2Q (10 * (j + Z.of_nat k + 1)))%Q ->
    get_size_loop us (PyFloat x) suffix
    = Returns (Some (format_fixed 2
                       (inject_Z n * pow2Q (- (10 * (j + Z.of_nat k))))
                     ++ u ++ suffix)).
Proof.
  induction k as [|k IH]; intros us x n j u suffix Hn Hj Hjk Hx Hu Hlo Hhi;
    (destruct us as [|u0 us]; [discriminate|]); cbn [nth_error] in Hu.
  - injection Hu as ->. rewrite get_size_loop_cons.
    assert (py_lt (PyFloat x) (PyInt factor) = true) as ->.
    { apply py_lt_int_true. cbn [value]. rewrite Hx.
      change (inject_Z factor) with (pow2Q 10).
      replace 10 with (10 * (j + Z.of_nat 0 + 1) + - (10 * j)) at 2 by lia.
      now apply scaled_lt_pow2Q. }
    cbn [py_format_f bind]. do 3 f_equal.
    apply format_fixed_compat. rewrite Hx.
    now replace (j + Z.of_nat 0) with j by lia.
  - destruct Hlo as [Hlo|Hlo]; [discriminate|].
    rewrite get_size_loop_cons.
    assert (py_lt (PyFloat x) (PyInt factor) = false) as ->.
    { apply py_lt_int_false. cbn [value]. rewrite Hx.
      change (inject_Z factor) with (pow2Q 10).
      replace 10 with (10 * (j + 1) + - (10 * j)) at 1 by lia.
      apply scaled_ge_pow2Q.
      eapply Qle_trans; [|exact Hlo]. apply pow2Q_le. lia. }
    rewrite py_truediv_float_factor. cbn [bind].
    pose proof (div_factor_pow2Q x n _ Hx) as Hd.
    replace (- (10 * j) - 10) with (- (10 * (j + 1))) in Hd by lia.
    rewrite (IH us (b64_round (x / (1024 # 1))) n (j + 1) u suffix);
      try assumption; try lia.
    + now replace (j + 1 + Z.of_nat k) with (j + Z.of_nat (S k)) by lia.
    + rewrite <- Hd.
      apply (b64_round_exact _ n (- (10 * (j + 1)))); [lia|lia|exact Hd].
    + right. now replace (j + 1 + Z.of_nat k) with (j + Z.of_nat (S k)) by lia.
    + now replace (j + 1 + Z.of_nat k + 1) with (j + Z.of_nat (S k) + 1) by lia.
Qed.

Lemma to_float_checked_exact (q : Q) (m e' : Z) :
  Z.abs m < 2 ^ 53 -> -1074 <= e' -> e' <= 0 ->
  (q == inject_Z m * pow2Q e')%Q ->
  to_float_checked q = Returns (b64_round q) /\ (b64_round q == q)%Q.
Proof.
  intros Hm He Hneg Hq.
  pose proof (b64_round_exact q m e' Hm He Hq) as E.
  split; [|exact E]. unfold to_float_checked.
  assert (b64_finite (b64_round q) = true) as ->; [|reflexivity].
  unfold b64_finite. apply Qle_bool_iff. rewrite E, Hq.
  rewrite Qabs_Qmult, (Qabs_pos (pow2Q e')) by (apply Qlt_le_weak, pow2Q_pos).
  change (Qabs (inject_Z m)) with (inject_Z (Z.abs m)).
  apply Qle_trans with (inject_Z (2 ^ 53)); [|apply pow2_le_b64_max; lia].
  apply Qle_trans with (pow2Q 0 * inject_Z (Z.abs m))%Q.
  - rewrite (Qmult_comm (inject_Z (Z.abs m))).
    apply Qmult_le_compat_r; [now apply pow2Q_le|].
    change 0%Q with (inject_Z 0). rewrite <- Zle_Qle. lia.
  - change (pow2Q 0) with 1%Q. rewrite Qmult_1_l, <- Zle_Qle. lia.
Qed.

Lemma nth_error_units_bound (k : nat) (u : string) :
  nth_error units k = Some u -> (k <= 5)%nat.
Proof.
  intros H. assert (nth_error units k <> None) as N by congruence.
  apply nth_error_Some in N. cbn in N. lia.
Qed.

(** X1.  [get_size] loses nothing on the counts below 2^53: for an int [n]
    with [0 <= n < 2^53] that lies in the range of the unit of index [k]
    ([1024^k <= n < 1024^(k+1)], or [n < 1024] for [k = 0]), the result is
    the exact quotient [n / 1024^k], formatted with two decimals, followed
    by that unit and the suffix.  The repeated float divisions by 1024
    introduce no rounding error of their own. *)
Theorem get_size_exact_quotient (n : Z) (k : nat) (u suffix : string) :
  nth_error units k = Some u ->
  0 <= n < 2 ^ 53 ->
  (k = O \/ 1024 ^ Z.of_nat k <= n) ->
  n < 1024 ^ (Z.of_nat k + 1) ->
  get_size (PyInt n) suffix
  = Returns (Some (format_fixed 2 (n # Z.to_pos (1024 ^ Z.of_nat k))
                   ++ u ++ suffix)).
Proof.
  intros Hu Hn Hlo Hhi. pose proof (nth_error_units_bound k u Hu) as Hk.
  unfold get_size. destruct k as [|k].
  - injection Hu as <-. unfold units. rewrite get_size_loop_cons.
    change (1024 ^ (Z.of_nat 0 + 1)) with 1024 in Hhi.
    assert (py_lt (PyInt n) (PyInt factor) = true) as ->.
    { apply py_lt_int_true. cbn [value]. rewrite <- Zlt_Qlt. exact Hhi. }
    unfold py_format_f, float_of_int.
    destruct (to_float_checked_exact (inject_Z n) n 0) as [-> E];
      [lia|lia|lia| |].
    { change (pow2Q 0) with 1%Q. ring. }
    cbn [bind]. do 3 f_equal. apply format_fixed_compat. exact E.
  - destruct Hlo as [Hlo|Hlo]; [discriminate|].
    assert (1024 <= n) as H1.
    { eapply Z.le_trans; [|exact Hlo]. change 1024 with (1024 ^ 1) at 1.
      apply Z.pow_le_mono_r; lia. }
    unfold units. rewrite get_size_loop_cons.
    assert (py_lt (PyInt n) (PyInt factor) = false) as ->.
    { apply py_lt_int_false. cbn [value]. rewrite <- Zle_Qle. exact H1. }
    rewrite py_truediv_int_factor.
    assert (n * 1 # 1024 == inject_Z n * pow2Q (- (10 * 1)))%Q as Hq.
    { change (pow2Q (- (10 * 1))) with (1 # 1024)%Q.
      unfold Qeq. cbn [Qnum Qden Qmult inject_Z Pos.mul]. ring. }
    destruct (to_float_checked_exact (n * 1 # 1024) n (- (10 * 1)))
      as [-> E]; [lia|lia|lia|exact Hq|].
    cbn [bind]. cbn [nth_error units] in Hu.
    rewrite (get_size_loop_exact k _ _ n 1 u suffix); try assumption; try lia.
    + do 3 f_equal. apply format_fixed_compat.
      replace (1 + Z.of_nat k) with (Z.of_nat (S k)) by lia.
      apply quotient_pow2Q. lia.
    + right. replace (1 + Z.of_nat k) with (Z.of_nat (S k)) by lia.
      rewrite pow2Q_nonneg_exp, <- Zle_Qle, Z.pow_mul_r by lia. exact Hlo.
    + replace (1 + Z.of_nat k + 1) with (Z.of_nat (S k) + 1) by lia.
      rewrite pow2Q_nonneg_exp, <- Zlt_Qlt, Z.pow_mul_r by lia. exact Hhi.
Qed.

Lemma get_size_exact_quotient_witness :
  get_size (PyInt 1610612736) "B" = Returns (Some "1.50GB").
Proof.
  apply (get_size_exact_quotient 1610612736 3 "G" "B");
    [reflexivity|vm_compute; intuition discriminate
    |right; vm_compute; discriminate|vm_compute; reflexivity].
Defined.

(** ** Whole numbers below one kilobyte *)

Lemma Zstr_neg (p : positive) : Zstr (Z.neg p) = "-" ++ Zstr (Z.pos p).
Proof. reflexivity. Qed.

Lemma format_fixed_whole (n : Z) :
  format_fixed 2 (inject_Z n) = Zstr n ++ ".00".
Proof.
  unfold format_fixed. cbn [Qnum Qden inject_Z]. cbv zeta.
  change (10 ^ Z.of_nat 2) with 100.
  replace (Zdiv_half_even (Z.abs n * 100) 1) with (Z.abs n * 100)
    by (rewrite <- (Z.mul_1_r (Z.abs n * 100)) at 2;
        now rewrite Zdiv_half_even_exact by lia).
  rewrite Z.div_mul, Z.mod_mul by lia.
  change (pad0 2 (Zstr 0)) with "00".
  destruct n as [|p|p]; cbn [Z.abs Z.ltb Z.compare].
  - reflexivity.
  - reflexivity.
  - rewrite Zstr_neg. reflexivity.
Qed.

(** X2.  An int below 1024 is never scaled: for every int [n] with
    [-2^53 < n < 1024], negative ones included, [get_size] returns the
    decimal digits of [n] followed by [.00] and the suffix, with an empty
    unit.  A negative count of any magnitude in that range stays in bytes. *)
Theorem get_size_below_factor (n : Z) (suffix : string) :
  - 2 ^ 53 < n -> n < 1024 ->
  get_size (PyInt n) suffix = Returns (Some (Zstr n ++ ".00" ++ suffix)).
Proof.
  intros Hlo Hhi. unfold get_size, units. rewrite get_size_loop_cons.
  assert (py_lt (PyInt n) (PyInt factor) = true) as ->.
  { apply py_lt_int_true. cbn [value]. rewrite <- Zlt_Qlt. exact Hhi. }
  unfold py_format_f, float_of_int.
  destruct (to_float_checked_exact (inject_Z n) n 0) as [-> E];
    [lia|lia|lia| |].
  { change (pow2Q 0) with 1%Q. ring. }
  cbn [bind]. rewrite (format_fixed_compat 2 _ _ E), format_fixed_whole.
  rewrite append_assoc. reflexivity.
Qed.

Lemma get_size_below_factor_witness :
  get_size (PyInt (-50)) "B" = Returns (Some "-50.00B").
Proof.
  apply (get_size_below_factor (-50) "B"); vm_compute; reflexivity.
Defined.

(** ** Where [get_size] runs out of units *)

Lemma scale2_le (a : Z) (b : positive) (N e : Z) :
  (a # b <= inject_Z N * pow2Q e)%Q ->
  fst (scale2 a (Zpos b) e) <= N * snd (scale2 a (Zpos b) e).
Proof.
  unfold scale2, pow2Q. destruct (0 <=? e) eqn:E; intros H; cbn [fst snd].
  - rewrite <- inject_Z_mult in H. unfold Qle in H.
    cbn [Qnum Qden inject_Z] in H. rewrite Z.mul_1_r in H.
    eapply Z.le_trans; [exact H|]. apply Z.eq_le_incl. ring.
  - apply Z.leb_gt in E.
    assert (0 < 2 ^ (- e)) by (apply Z.pow_pos_nonneg; lia).
    unfold Qle in H. cbn [Qnum Qden inject_Z Qmult] in H.
    rewrite Pos.mul_1_l, Z2Pos.id, Z.mul_1_r in H by lia. exact H.
Qed.

(** Rounding does not carry a value over a binary64 number above it. *)
Lemma b64_round_le_repr (q : Q) (m e' : Z) :
  (0 < q)%Q -> 0 <= m < 2 ^ 53 -> -1074 <= e' ->
  (q <= inject_Z m * pow2Q e')%Q ->
  (b64_round q <= inject_Z m * pow2Q e')%Q.
Proof.
  intros H0 Hm He' Hq. destruct q as [a b].
  assert (0 < a) as Ha by (unfold Qlt in H0; simpl in H0; lia).
  rewrite b64_round_unfold by (simpl; lia). simpl Qnum. simpl Qden.
  rewrite (Z.abs_eq a) by lia.
  set (ex := ilog2_frac a (Z.pos b)).
  assert (ex < 53 + e') as Hex.
  { apply pow2Q_lt_inv.
    eapply Qle_lt_trans; [apply (ilog2_frac_lower_Q a (Z.pos b)); lia|].
    change (a # Z.to_pos (Z.pos b)) with (a # b).
    eapply Qle_lt_trans; [exact Hq|].
    rewrite pow2Q_add.
    apply Qmult_lt_compat_r; [apply pow2Q_pos|].
    change (pow2Q 53) with (inject_Z (2 ^ 53)).
    rewrite <- Zlt_Qlt. lia. }
  unfold b64_ulp_exp. fold ex.
  set (e := Z.max (ex - 52) (-1074)).
  assert (e <= e') as Hee by lia.
  assert (inject_Z m * pow2Q e' == inject_Z (m * 2 ^ (e' - e)) * pow2Q e)%Q
    as HN.
  { rewrite inject_Z_mult.
    replace e' with ((e' - e) + e) at 1 by lia.
    rewrite pow2Q_add, (pow2Q_nonneg_exp (e' - e)) by lia. ring. }
  rewrite HN in Hq |- *.
  apply Qmult_le_compat_r; [|apply Qlt_le_weak, pow2Q_pos].
  rewrite <- Zle_Qle.
  apply Zdiv_half_even_upper; [apply scale2_snd_pos; lia|].
  now apply scale2_le.
Qed.

(** A float below 1024^(number of units left) gets a unit. *)
Lemma get_size_loop_float_some (us : list string) :
  forall (x : Q) (suffix : string),
    us <> [] ->
    (x <= inject_Z (2 ^ 53 - 1)
          * pow2Q (10 * Z.of_nat (List.length us) - 53))%Q ->
    exists s, get_size_loop us (PyFloat x) suffix = Returns (Some s).
Proof.
  induction us as [|u us IH]; intros x suffix Hne Hx; [congruence|].
  rewrite get_size_loop_cons.
  destruct (py_lt (PyFloat x) (PyInt factor)) eqn:E;
    [eexists; reflexivity|].
  apply py_lt_int_false in E. cbn [value] in E.
  rewrite py_truediv_float_factor. cbn [bind].
  destruct us as [|u' us'].
  - exfalso. apply (Qle_not_lt _ _ E).
    eapply Qle_lt_trans; [exact Hx|]. reflexivity.
  - apply IH; [discriminate|].
    apply b64_round_le_repr; [|lia|cbn [List.length] in *; lia|].
    + apply Qlt_shift_div_l; [reflexivity|].
      eapply Qlt_le_trans; [|exact E]. reflexivity.
    + apply Qle_shift_div_r; [reflexivity|].
      eapply Qle_trans; [exact Hx|].
      replace (10 * Z.of_nat (List.length (u :: u' :: us')) - 53)
        with ((10 * Z.of_nat (List.length (u' :: us')) - 53) + 10)
        by (cbn [List.length]; lia).
      rewrite pow2Q_add. change (pow2Q 10) with (1024 # 1)%Q.
      rewrite Qmult_assoc. apply Qle_refl.
Qed.

Lemma get_size_some_below (n : Z) :
  - 2 ^ 1023 <= n -> n <= 2 ^ 60 - 128 ->
  exists s, get_size (PyInt n) "B" = Returns (Some s).
Proof.
  intros Hlo Hhi.
  destruct (Z_lt_le_dec n 0) as [Hneg|Hpos].
  { rewrite get_size_negative by assumption. eexists. reflexivity. }
  unfold get_size, units. rewrite get_size_loop_cons.
  destruct (py_lt (PyInt n) (PyInt factor)) eqn:E.
  - apply py_lt_int_true in E. cbn [value] in E. rewrite <- Zlt_Qlt in E.
    unfold factor in E. unfold py_format_f.
    destruct (float_of_int_small n Hpos) as [x ->].
    + assert (2 ^ 10 <= 2 ^ 1023) by (apply Z.pow_le_mono_r; lia).
      change (2 ^ 10) with 1024 in *. lia.
    + eexists. reflexivity.
  - apply py_lt_int_false in E. cbn [value] in E. rewrite <- Zle_Qle in E.
    unfold factor in E.
    rewrite py_truediv_int_factor. unfold to_float_checked.
    assert (0 < n * 1 # 1024)%Q as Q0 by (unfold Qlt; cbn; lia).
    assert (b64_round (n * 1 # 1024)
            <= inject_Z (2 ^ 53 - 1) * pow2Q (-3))%Q as B.
    { apply b64_round_le_repr; [exact Q0|lia|lia|].
      change (pow2Q (-3)) with (1 # 8)%Q.
      unfold Qle. cbn [Qnum Qden Qmult inject_Z Pos.mul].
      change (2 ^ 60) with 1152921504606846976 in Hhi.
      change (2 ^ 53) with 9007199254740992. lia. }
    rewrite (b64_finite_pos _ 1023); [|lia| |].
    + cbn [bind]. apply get_size_loop_float_some; [discriminate|exact B].
    + eapply Qle_trans; [|apply (b64_round_ge_pow2 _ 0); [lia|]].
      * discriminate.
      * unfold Qle. cbn. lia.
    + eapply Qle_trans; [exact B|]. vm_compute. discriminate.
Qed.

Lemma get_size_none_above (n : Z) :
  2 ^ 60 <= n -> n < 2 ^ 1033 -> get_size (PyInt n) "B" = Returns None.
Proof.
  intros H Hn. rewrite get_size_int_large by exact H.
  change (2 ^ 60) with 1152921504606846976 in H.
  rewrite (b64_finite_pos _ 1023); [reflexivity|lia| |].
  - eapply Qle_trans; [|apply (b64_round_ge_pow2 _ 0); [lia|]].
    + discriminate.
    + unfold Qle. cbn. lia.
  - apply b64_round_le_pow2; [lia| |].
    + unfold Qlt. cbn. lia.
    + unfold Qle. cbn - [Z.pow].
      replace (2 ^ 1033) with (2 ^ 1023 * 1024) in Hn
        by (vm_compute; reflexivity).
      lia.
Qed.

(** The 127 counts around the threshold, one by one. *)
Lemma get_size_near_threshold (n : Z) :
  2 ^ 60 - 128 < n -> n < 2 ^ 60 ->
  (get_size (PyInt n) "B" = Returns None <-> 2 ^ 60 - 64 <= n).
Proof.
  intros Hlo Hhi.
  assert (forallb
            (fun i =>
               match get_size (PyInt (2 ^ 60 - 128 + Z.of_nat i)) "B" with
               | Returns None => 64 <=? Z.of_nat i
               | Returns (Some _) => Z.of_nat i <? 64
               | Raises _ => false
               end) (seq 0 128) = true) as F by (vm_compute; reflexivity).
  rewrite forallb_forall in F.
  specialize (F (Z.to_nat (n - (2 ^ 60 - 128)))).
  rewrite Z2Nat.id in F by lia.
  replace (2 ^ 60 - 128 + (n - (2 ^ 60 - 128))) with n in F by lia.
  assert (In (Z.to_nat (n - (2 ^ 60 - 128))) (seq 0 128)) as I
    by (apply in_seq; lia).
  specialize (F I).
  destruct (get_size (PyInt n) "B") as [[s|]|e]; [| |discriminate].
  - apply Z.ltb_lt in F. split; [discriminate|lia].
  - apply Z.leb_le in F. split; [lia|reflexivity].
Qed.

(** X3.  The exact point where [get_size] runs out of units: for an int
    [n] in the range where the first division does not overflow
    ([-2^1023 <= n < 2^1033]), the result is [None] exactly when
    [n >= 2^60 - 64], and a string for every smaller [n].  The threshold
    lies 64 below [1024^6] because the first division rounds to a float. *)
Theorem get_size_none_threshold (n : Z) :
  - 2 ^ 1023 <= n -> n < 2 ^ 1033 ->
  (get_size (PyInt n) "B" = Returns None <-> 2 ^ 60 - 64 <= n)
  /\ (n < 2 ^ 60 - 64 -> exists s, get_size (PyInt n) "B" = Returns (Some s)).
Proof.
  intros Hlo Hhi.
  destruct (Z_le_gt_dec n (2 ^ 60 - 128)) as [A|A].
  - destruct (get_size_some_below n Hlo A) as [s E]. rewrite E.
    split; [split; [discriminate|lia]|]. intros _. now exists s.
  - destruct (Z_lt_le_dec n (2 ^ 60)) as [B|B].
    + pose proof (get_size_near_threshold n ltac:(lia) B) as T.
      split; [exact T|]. intros C.
      destruct (get_size (PyInt n) "B") as [[s|]|e] eqn:E.
      * now exists s.
      * exfalso. assert (2 ^ 60 - 64 <= n) by (now apply T). lia.
      * exfalso.
        destruct (get_size_returns n Hlo Hhi) as [r R]. congruence.
    + rewrite (get_size_none_above n B Hhi).
      split; [split; [lia|reflexivity]|lia].
Qed.

Lemma get_size_none_threshold_witness :
  get_size (PyInt (2 ^ 60 - 64)) "B" = Returns None
  <-> 2 ^ 60 - 64 <= 2 ^ 60 - 64.
Proof.
  apply (get_size_none_threshold (2 ^ 60 - 64)); vm_compute;
    [discriminate|reflexivity].
Defined.

(** ** The registry along whole runs *)

Lemma mem_str_In (k : string) (ks : list string) :
  mem_str k ks = true <-> In k ks.
Proof.
  unfold mem_str. rewrite existsb_exists. split.
  - intros (x & I & E). apply String.eqb_eq in E. now subst.
  - intros I. exists k. split; [exact I|apply String.eqb_refl].
Qed.

Lemma add_key_NoDup (k : string) (ks : list string) :
  NoDup ks -> NoDup (add_key k ks).
Proof.
  intros N. unfold add_key. destruct (mem_str k ks) eqn:E; [exact N|].
  apply NoDup_app; [exact N|repeat constructor; intros []|].
  intros x I [<-|[]]. apply mem_str_In in I. congruence.
Qed.

Lemma fold_add_key_NoDup (l ks : list string) :
  NoDup ks -> NoDup (fold_left (fun acc d => add_key d acc) l ks).
Proof.
  revert ks. induction l as [|x l IH]; intros ks N; cbn [fold_left];
    [exact N|]. apply IH. now apply add_key_NoDup.
Qed.

Lemma registry_ok_frame (a b : App) :
  drive_widgets b = drive_widgets a ->
  drives_container b = drives_container a ->
  registry_ok a -> registry_ok b.
Proof. unfold registry_ok. intros -> ->. exact (fun H => H). Qed.

Lemma registry_ok_storage (s : Sample) (a : App) :
  registry_ok a -> registry_ok (fst (update_storage s a)).
Proof.
  intros [N C]. rewrite update_storage_steps. cbn [fst].
  destruct (fold_steps_keys s (disk_partitions s) a) as [K C'].
  split; [|now apply C']. rewrite K. now apply fold_add_key_NoDup.
Qed.

Lemma storage_keys_grow (s : Sample) (a : App) :
  exists fresh,
    dict_keys (drive_widgets (fst (update_storage s a)))
    = (dict_keys (drive_widgets a) ++ fresh)%list.
Proof.
  rewrite update_storage_steps. cbn [fst].
  destruct (fold_steps_keys s (disk_partitions s) a) as [K _].
  rewrite K, fold_add_first_seen. eexists. reflexivity.
Qed.

(** What a pass leaves in the drive panel is what its drive scan left,
    however far the pass got. *)
Lemma tick_drive_panel (s : Sample) (a : App) :
  exists b,
    drive_widgets b = drive_widgets a
    /\ drives_container b = drives_container a
    /\ ((drive_widgets (fst (update_ui_loop s a)) = drive_widgets a
         /\ drives_container (fst (update_ui_loop s a)) = drives_container a)
        \/ (drive_widgets (fst (update_ui_loop s a))
            = drive_widgets (fst (update_storage s b))
            /\ drives_container (fst (update_ui_loop s a))
               = drives_container (fst (update_storage s b)))).
Proof.
  pose proof (update_cpu_frame drive_widgets s
                ltac:(reflexivity) ltac:(reflexivity)
                ltac:(reflexivity) ltac:(reflexivity) a) as F1.
  pose proof (update_cpu_frame drives_container s
                ltac:(reflexivity) ltac:(reflexivity)
                ltac:(reflexivity) ltac:(reflexivity) a) as G1.
  unfold update_ui_loop.
  set (k3 := (_ <~ update_network s ;; _ <~ update_ping ;; update_uptime s)).
  set (k2 := (_ <~ update_storage s ;; k3)).
  set (k1 := (_ <~ update_memory s ;; k2)).
  unfold mbind.
  destruct (update_cpu s a) as [a1 [[]|e1]]; cbn [fst] in *;
    [|exists a; auto].
  pose proof (update_memory_frame drive_widgets s
                ltac:(reflexivity) ltac:(reflexivity)
                ltac:(reflexivity) ltac:(reflexivity) a1) as F2.
  pose proof (update_memory_frame drives_container s
                ltac:(reflexivity) ltac:(reflexivity)
                ltac:(reflexivity) ltac:(reflexivity) a1) as G2.
  unfold k1, mbind.
  destruct (update_memory s a1) as [a2 [[]|e2]]; cbn [fst] in *;
    [|exists a; split; [reflexivity|split; [reflexivity|left; split; congruence]]].
  exists a2. split; [congruence|]. split; [congruence|]. right.
  assert (preserves drive_widgets k3)
    as F by (unfold k3, update_network, update_uptime;
             repeat first [apply update_ping_frame; reflexivity | progress frame]).
  assert (preserves drives_container k3)
    as G by (unfold k3, update_network, update_uptime;
             repeat first [apply update_ping_frame; reflexivity | progress frame]).
  unfold k2, mbind. rewrite update_storage_steps. cbn [fst].
  split; [apply F|apply G].
Qed.

Lemma registry_ok_tick (s : Sample) (a : App) :
  registry_ok a -> registry_ok (fst (update_ui_loop s a)).
Proof.
  intros H. destruct (tick_drive_panel s a) as (b & B1 & B2 & [[E1 E2]|[E1 E2]]).
  - now apply (registry_ok_frame a).
  - apply (registry_ok_frame (fst (update_storage s b))); try assumption.
    apply registry_ok_storage. now apply (registry_ok_frame a).
Qed.

Lemma tick_keys_grow (s : Sample) (a : App) :
  exists fresh,
    dict_keys (drive_widgets (fst (update_ui_loop s a)))
    = (dict_keys (drive_widgets a) ++ fresh)%list.
Proof.
  destruct (tick_drive_panel s a) as (b & B1 & B2 & [[E1 E2]|[E1 E2]]).
  - exists []. now rewrite E1, app_nil_r.
  - rewrite E1, <- B1. apply storage_keys_grow.
Qed.

Lemma run_registry (evs : list event) :
  forall (armed : bool) (a : App),
    registry_ok a ->
    registry_ok (run evs armed a)
    /\ exists fresh,
         dict_keys (drive_widgets (run evs armed a))
         = (dict_keys (drive_widgets a) ++ fresh)%list.
Proof.
  induction evs as [|[r|s] evs IH]; intros armed a H; cbn [run].
  - split; [exact H|]. exists []. now rewrite app_nil_r.
  - assert (registry_ok (check_ping_logic r a)) as H'
      by (destruct r; exact H).
    destruct (IH armed _ H') as [R [f K]]. split; [exact R|].
    exists f. rewrite K. destruct r; reflexivity.
  - destruct armed; [|now apply IH].
    pose proof (registry_ok_tick s a H) as H'.
    destruct (tick_keys_grow s a) as [f1 K1].
    destruct (update_ui_loop s a) as [a' [[]|e]]; cbn [fst] in *;
      [destruct (IH true a' H') as [R [f2 K2]]
      |destruct (IH false a' H') as [R [f2 K2]]];
      (split; [exact R|];
       exists (f1 ++ f2)%list; now rewrite K2, K1, app_assoc).
Qed.

(** X6.  The drive panel along whole runs: after any sequence of timer
    passes and probe cycles from the initial state (passes that raise
    included), no device is twice among the keys of [drive_widgets], the
    rows packed in [drives_container] are exactly those keys, in the same
    order, and whatever events follow only append keys: no row is ever
    removed or reordered. *)
Theorem drive_registry_along_runs
  (evs later : list event) (cpu_count : nat) (net0 : snetio) :
  let a := run evs true (init cpu_count net0) in
  NoDup (dict_keys (drive_widgets a))
  /\ drives_container a = dict_keys (drive_widgets a)
  /\ forall armed, exists fresh,
       dict_keys (drive_widgets (run later armed a))
       = (dict_keys (drive_widgets a) ++ fresh)%list.
Proof.
  intros a.
  assert (registry_ok (init cpu_count net0)) as H0
    by (split; [constructor|reflexivity]).
  destruct (run_registry evs true _ H0) as [[N C] _]. fold a in N, C.
  split; [exact N|]. split; [exact C|].
  intros armed. apply run_registry. now split.
Qed.

(** ** Drives that a scan does not display *)

Lemma ensure_row_other (d name : string) (a : App) :
  d <> name ->
  dict_get d (drive_widgets (ensure_row name a)) = dict_get d (drive_widgets a).
Proof.
  intros N. unfold ensure_row.
  destruct (dict_mem name (drive_widgets a)); [reflexivity|].
  cbn [drive_widgets upd_drive_widgets upd_drives_container].
  apply dict_get_set_ne. congruence.
Qed.

Lemma drive_step_other (s : Sample) (p : sdiskpart) (b : App) (d : string) :
  (shown s p = true -> device p <> d) ->
  dict_get d (drive_widgets (drive_step s p b)) = dict_get d (drive_widgets b).
Proof.
  intros H. destruct (shown s p) eqn:Sh.
  - specialize (H eq_refl). destruct (shown_true s p Sh) as (E & u & U).
    unfold drive_step, try_except. rewrite (drive_body_run s p b u E U).
    cbv zeta.
    destruct (get_size (PyInt (du_used u)) "B");
      try destruct (get_size (PyInt (du_total u)) "B");
      unfold ret; cbn [fst]; unfold show_drive_bar;
      cbn [drive_widgets upd_drive_widgets];
      rewrite !dict_get_alter_ne by exact H;
      apply ensure_row_other; congruence.
  - unfold drive_step. now rewrite drive_step_skip.
Qed.

Lemma fold_steps_other (s : Sample) (ps : list sdiskpart) (b : App)
      (d : string) :
  (forall p, In p ps -> shown s p = true -> device p <> d) ->
  dict_get d (drive_widgets (fold_left (fun b p => drive_step s p b) ps b))
  = dict_get d (drive_widgets b).
Proof.
  revert b. induction ps as [|p ps IH]; intros b H; [reflexivity|].
  cbn [fold_left]. rewrite IH by (intros q I; apply H; now right).
  apply drive_step_other. apply H. now left.
Qed.

(** X7.  A drive that a scan does not display keeps its row as it was: if
    no partition that the scan displays (not excluded, usage query
    answered) has the device [d], then the entry of [d] in [drive_widgets]
    is the same after the drive scan as before, and the same after the
    whole pass.  A drive that is unplugged, or whose query starts to fail,
    keeps showing its last values. *)
Theorem undisplayed_drive_keeps_its_row (s : Sample) (a : App) (d : string) :
  (forall p, In p (disk_partitions s) -> shown s p = true -> device p <> d) ->
  dict_get d (drive_widgets (fst (update_storage s a)))
  = dict_get d (drive_widgets a)
  /\ dict_get d (drive_widgets (fst (update_ui_loop s a)))
     = dict_get d (drive_widgets a).
Proof.
  intros H.
  assert (forall b, dict_get d (drive_widgets (fst (update_storage s b)))
                    = dict_get d (drive_widgets b)) as S.
  { intros b. rewrite update_storage_steps. cbn [fst].
    now apply fold_steps_other. }
  split; [apply S|].
  destruct (tick_drive_panel s a) as (b & B1 & _ & [[E _]|[E _]]).
  - now rewrite E.
  - now rewrite E, S, B1.
Qed.

Lemma undisplayed_drive_keeps_its_row_witness :
  let s := drive_sample
             [ {| device := "/dev/sda1"; mountpoint := "/";
                  fstype := "ext4"; opts := "rw" |};
               {| device := "/dev/sr0"; mountpoint := "/media/cd";
                  fstype := "iso9660"; opts := "ro,cdrom" |} ]
             (fun _ => Returns {| du_total := 1000; du_used := 500;
                                  du_percent := 50 |}) in
  dict_get "/dev/sr0"
    (drive_widgets (fst (update_ui_loop s (init 1 (counters 0 0)))))
  = dict_get "/dev/sr0" (drive_widgets (init 1 (counters 0 0))).
Proof.
  intros s.
  apply (undisplayed_drive_keeps_its_row s (init 1 (counters 0 0)) "/dev/sr0").
  intros p [<-|[<-|[]]]; vm_compute; intros; discriminate.
Defined.

(** X8.  When several displayed partitions share a device, the last one
    in the list wins: if [p] is not excluded, its usage query answers [u],
    and no displayed partition after [p] has the same device, then after
    the scan the row of that device shows [u]: the bar at [u.percent / 100]
    with the colour of [u.percent], and the details text built from [u].
    What earlier partitions of the same device wrote is overwritten. *)
Theorem last_displayed_partition_wins
  (s : Sample) (a : App) (ps1 ps2 : list sdiskpart) (p : sdiskpart)
  (u : sdiskusage) (used total : option string) :
  disk_partitions s = (ps1 ++ p :: ps2)%list ->
  excluded p = false ->
  disk_usage s (mountpoint p) = Returns u ->
  get_size (PyInt (du_used u)) "B" = Returns used ->
  get_size (PyInt (du_total u)) "B" = Returns total ->
  (forall q, In q ps2 -> shown s q = true -> device q <> device p) ->
  exists w,
    dict_get (device p) (drive_widgets (fst (update_storage s a))) = Some w
    /\ bar_value (fst w)
       = Some (PyFloat (b64_round (du_percent u / (100 # 1))))
    /\ progress_color (fst w)
       = Some (get_color_by_usage (PyFloat (du_percent u)))
    /\ text (snd w) = drive_details u used total.
Proof.
  intros P E U G1 G2 H.
  rewrite update_storage_steps, P, fold_left_app. cbn [fst fold_left].
  rewrite fold_steps_other by exact H.
  apply (drive_step_values s p _ u used total E U G1 G2).
Qed.

Lemma last_displayed_partition_wins_witness :
  let root := {| device := "/dev/sda2"; mountpoint := "/";
                 fstype := "btrfs"; opts := "rw,subvol=/@" |} in
  let home := {| device := "/dev/sda2"; mountpoint := "/home";
                 fstype := "btrfs"; opts := "rw,subvol=/@home" |} in
  let u1 := {| du_total := 2048; du_used := 1024; du_percent := 50 |} in
  let u2 := {| du_total := 2048; du_used := 1536; du_percent := 75 |} in
  let s := drive_sample [root; home]
             (fun m => if String.eqb m "/home" then Returns u2
                       else Returns u1) in
  exists w,
    dict_get "/dev/sda2"
      (drive_widgets (fst (update_storage s (init 1 (counters 0 0)))))
    = Some w
    /\ text (snd w) = "75.0% (1.50KB / 2.00KB)".
Proof.
  intros root home u1 u2 s.
  destruct (last_displayed_partition_wins
              s (init 1 (counters 0 0)) [root] [] home u2
              (Some "1.50KB") (Some "2.00KB"))
    as (w & W & _ & _ & T);
    [reflexivity|reflexivity|reflexivity
    |vm_compute; reflexivity|vm_compute; reflexivity|intros q []|].
  exists w. split; [exact W|]. rewrite T. vm_compute. reflexivity.
Defined.

(** ** The latency label after a probe that connected *)

Lemma run_ends_with_probe (evs : list event) (r : connect_result)
      (armed : bool) (a : App) :
  ping_latency (run (evs ++ [Probe r]) armed a)
  = ping_latency (check_ping_logic r a).
Proof.
  revert armed a. induction evs as [|[r'|s] evs IH]; intros armed a;
    cbn [app run].
  - reflexivity.
  - rewrite IH. destruct r, r'; reflexivity.
  - destruct armed; [|apply IH].
    destruct (update_ui_loop s a) as [a' [[]|x]]; rewrite IH;
      destruct r; reflexivity.
Qed.

(** The ping label at the end of a completed pass is the one that
    [update_ping] computed, from the latency that the pass started with. *)
Lemma tick_ping_label (s : Sample) (a a' : App) :
  update_ui_loop s a = (a', Returns tt) ->
  exists b b',
    ping_latency b = ping_latency a
    /\ update_ping b = (b', Returns tt)
    /\ lbl_ping a' = lbl_ping b'.
Proof.
  intros H. unfold update_ui_loop in H.
  apply mbind_returns in H as (a1 & [] & H1 & H).
  apply mbind_returns in H as (a2 & [] & H2 & H).
  apply mbind_returns in H as (a3 & [] & H3 & H).
  apply mbind_returns in H as (a4 & [] & H4 & H).
  apply mbind_returns in H as (a5 & [] & H5 & H).
  exists a4, a5. split; [|split; [exact H5|]].
  - pose proof (update_cpu_frame ping_latency s
                  ltac:(reflexivity) ltac:(reflexivity)
                  ltac:(reflexivity) ltac:(reflexivity) a) as F1.
    pose proof (update_memory_frame ping_latency s
                  ltac:(reflexivity) ltac:(reflexivity)
                  ltac:(reflexivity) ltac:(reflexivity) a1) as F2.
    pose proof (update_storage_frame ping_latency s
                  ltac:(reflexivity) ltac:(reflexivity) a2) as F3.
    assert (preserves ping_latency (update_network s)) as F4
      by (unfold update_network; frame).
    specialize (F4 a3).
    rewrite H1 in F1. rewrite H2 in F2. rewrite H3 in F3. rewrite H4 in F4.
    simpl in *. congruence.
  - pose proof (update_uptime_frame lbl_ping s ltac:(reflexivity) a5) as F6.
    rewrite H in F6. exact F6.
Qed.

(** After a probe cycle that connected in [ms] milliseconds, a completed
    pass during which no other probe cycle finishes shows [ms] rounded
    to an integer, in the colour of the unrounded value. *)
Lemma connected_probe_label
  (evs : list event) (ms : Q) (armed : bool) (a : App)
  (s : Sample) (a' : App) :
  update_ui_loop s (run (evs ++ [Probe (Connected ms)]) armed a)
  = (a', Returns tt) ->
  (~ (ms == -1)%Q ->
   text (lbl_ping a') = "Ping (Google): " ++ format_fixed 0 ms ++ " ms"
   /\ ((ms < 100)%Q -> text_color (lbl_ping a') = Some COLOR_GOOD)
   /\ ((100 <= ms)%Q -> text_color (lbl_ping a') = Some COLOR_WARN))
  /\ ((ms == -1)%Q ->
      text (lbl_ping a') = offline_text
      /\ text_color (lbl_ping a') = Some COLOR_CRIT).
Proof.
  intros H.
  destruct (tick_ping_label _ _ _ H) as (b & b' & L & P & E).
  rewrite run_ends_with_probe in L. cbn [check_ping_logic ping_latency
    set_ping_latency] in L.
  rewrite E. clear E H.
  unfold update_ping, mbind, gets in P. rewrite L in P.
  unfold py_eq in P. cbn [value] in P.
  change (inject_Z (-1)) with (-1)%Q in P.
  split.
  - intros N.
    destruct (Qeq_bool ms (-1)) eqn:Q1.
    { apply Qeq_bool_iff in Q1. contradiction. }
    cbn [py_format_f lift] in P. unfold modify in P. injection P as <-.
    cbn [lbl_ping upd_lbl_ping configure_text_color text text_color].
    split; [reflexivity|]. split; intros C.
    + now rewrite (proj2 (py_lt_int_true (PyFloat ms) 100) C).
    + now rewrite (proj2 (py_lt_int_false (PyFloat ms) 100) C).
  - intros Y. apply Qeq_bool_iff in Y. rewrite Y in P.
    unfold modify in P. injection P as <-. split; reflexivity.
Qed.

(** ** The ping label while the prober is writing *)

Lemma update_ping_reads_quiet (a : App) :
  update_ping_reads [] [] a = update_ping a.
Proof.
  unfold update_ping_reads, update_ping, mbind, gets, modify, prober_writes.
  cbn [fold_left].
  destruct (py_eq (ping_latency a) (PyInt (-1))); reflexivity.
Qed.

(** When no probe cycle finishes during the pass, the pass is
    [update_ui_loop]. *)
Lemma update_ui_loop_reads_quiet (s : Sample) (a : App) :
  update_ui_loop_reads s [] [] a = update_ui_loop s a.
Proof.
  unfold update_ui_loop_reads, update_ui_loop, mbind.
  destruct (update_cpu s a) as [a1 [[]|e1]]; [|reflexivity].
  destruct (update_memory s a1) as [a2 [[]|e2]]; [|reflexivity].
  destruct (update_storage s a2) as [a3 [[]|e3]]; [|reflexivity].
  destruct (update_network s a3) as [a4 [[]|e4]]; [|reflexivity].
  now rewrite update_ping_reads_quiet.
Qed.

Lemma tick_reads_ping_label (s : Sample) (w1 w2 : list connect_result)
      (a a' : App) :
  update_ui_loop_reads s w1 w2 a = (a', Returns tt) ->
  exists b b',
    ping_latency b = ping_latency a
    /\ update_ping_reads w1 w2 b = (b', Returns tt)
    /\ lbl_ping a' = lbl_ping b'.
Proof.
  intros H. unfold update_ui_loop_reads in H.
  apply mbind_returns in H as (a1 & [] & H1 & H).
  apply mbind_returns in H as (a2 & [] & H2 & H).
  apply mbind_returns in H as (a3 & [] & H3 & H).
  apply mbind_returns in H as (a4 & [] & H4 & H).
  apply mbind_returns in H as (a5 & [] & H5 & H).
  exists a4, a5. split; [|split; [exact H5|]].
  - pose proof (update_cpu_frame ping_latency s
                  ltac:(reflexivity) ltac:(reflexivity)
                  ltac:(reflexivity) ltac:(reflexivity) a) as F1.
    pose proof (update_memory_frame ping_latency s
                  ltac:(reflexivity) ltac:(reflexivity)
                  ltac:(reflexivity) ltac:(reflexivity) a1) as F2.
    pose proof (update_storage_frame ping_latency s
                  ltac:(reflexivity) ltac:(reflexivity) a2) as F3.
    assert (preserves ping_latency (update_network s)) as F4
      by (unfold update_network; frame).
    specialize (F4 a3).
    rewrite H1 in F1. rewrite H2 in F2. rewrite H3 in F3. rewrite H4 in F4.
    simpl in *. congruence.
  - pose proof (update_uptime_frame lbl_ping s ltac:(reflexivity) a5) as F6.
    rewrite H in F6. exact F6.
Qed.

Lemma prober_writes_last (w : list connect_result) (r : connect_result)
      (a : App) :
  ping_latency (prober_writes (w ++ [r]) a)
  = ping_latency (check_ping_logic r a).
Proof.
  unfold prober_writes. rewrite fold_left_app. cbn [fold_left].
  destruct r; reflexivity.
Qed.

Lemma prober_writes_lbl_ping (w : list connect_result) (a : App) :
  lbl_ping (prober_writes w a) = lbl_ping a.
Proof.
  unfold prober_writes. revert a.
  induction w as [|r w IH]; intros a; cbn [fold_left]; [reflexivity|].
  rewrite IH. destruct r; reflexivity.
Qed.

(** X9.  The latency label after a probe cycle that connected in [ms]
    milliseconds, where the pass reads [self.ping_latency] three times
    (lines 418, 421, 422) and the prober may write in between.  For a
    completed pass: when no probe cycle finishes between the reads, the
    label is [Ping (Google): N ms] with N the value [ms] rounded to an
    integer, in [COLOR_GOOD] when [ms < 100] and [COLOR_WARN] otherwise
    (the colour comes from the unrounded value).  When a probe cycle
    fails between the comparison and the formatting, the label is
    [Ping (Google): -1 ms] in the colour chosen for [ms]: the failure
    sentinel is printed as a measurement.  A measured value equal to -1
    renders as offline, whatever is written afterwards. *)
Theorem connected_probe_rendering
  (evs : list event) (ms : Q) (armed : bool) (a : App)
  (s : Sample) (w1 w2 : list connect_result) (a' : App) :
  update_ui_loop_reads s w1 w2
    (run (evs ++ [Probe (Connected ms)]) armed a)
  = (a', Returns tt) ->
  (w1 = [] -> w2 = [] -> ~ (ms == -1)%Q ->
   text (lbl_ping a') = "Ping (Google): " ++ format_fixed 0 ms ++ " ms"
   /\ ((ms < 100)%Q -> text_color (lbl_ping a') = Some COLOR_GOOD)
   /\ ((100 <= ms)%Q -> text_color (lbl_ping a') = Some COLOR_WARN))
  /\ (w1 = [] -> (exists w e, w2 = (w ++ [ConnectFailed e])%list) ->
      ~ (ms == -1)%Q ->
      text (lbl_ping a') = "Ping (Google): -1 ms"
      /\ ((ms < 100)%Q -> text_color (lbl_ping a') = Some COLOR_GOOD)
      /\ ((100 <= ms)%Q -> text_color (lbl_ping a') = Some COLOR_WARN))
  /\ ((ms == -1)%Q ->
      text (lbl_ping a') = offline_text
      /\ text_color (lbl_ping a') = Some COLOR_CRIT).
Proof.
  intros H. split; [|split].
  - intros -> -> N. rewrite update_ui_loop_reads_quiet in H.
    now apply (connected_probe_label evs ms armed a s a' H).
  - intros -> (w & e & ->) N.
    destruct (tick_reads_ping_label _ _ _ _ _ H) as (b & b' & L & P & E).
    rewrite run_ends_with_probe in L.
    cbn [check_ping_logic ping_latency set_ping_latency] in L.
    rewrite E. clear E H.
    unfold update_ping_reads, mbind, gets, modify in P. rewrite L in P.
    unfold py_eq in P. cbn [value] in P.
    change (inject_Z (-1)) with (-1)%Q in P.
    destruct (Qeq_bool ms (-1)) eqn:Q1.
    { apply Qeq_bool_iff in Q1. contradiction. }
    change (prober_writes [] b) with b in P. rewrite L in P.
    rewrite prober_writes_last in P.
    cbn [check_ping_logic ping_latency set_ping_latency] in P.
    change (lift (py_format_f 0 (PyInt (-1))))
      with (@lift string (Returns "-1")) in P.
    unfold lift in P. injection P as <-.
    cbn [lbl_ping upd_lbl_ping configure_text_color text text_color].
    split; [reflexivity|]. split; intros C.
    + now rewrite (proj2 (py_lt_int_true (PyFloat ms) 100) C).
    + now rewrite (proj2 (py_lt_int_false (PyFloat ms) 100) C).
  - intros Y.
    destruct (tick_reads_ping_label _ _ _ _ _ H) as (b & b' & L & P & E).
    rewrite run_ends_with_probe in L.
    cbn [check_ping_logic ping_latency set_ping_latency] in L.
    rewrite E. clear E H.
    unfold update_ping_reads, mbind, gets, modify in P. rewrite L in P.
    unfold py_eq in P. cbn [value] in P.
    change (inject_Z (-1)) with (-1)%Q in P.
    apply Qeq_bool_iff in Y. rewrite Y in P.
    injection P as <-. split; reflexivity.
Qed.

Lemma connected_probe_rendering_witness :
  text (lbl_ping
          (fst (update_ui_loop_reads
                  (quiet_sample 10 [10%Q] (counters 0 0))
                  [] [ConnectFailed OSError]
                  (run ([] ++ [Probe (Connected 20)])
                       true (init 1 (counters 0 0))))))
  = "Ping (Google): -1 ms"
  /\ text_color
       (lbl_ping
          (fst (update_ui_loop_reads
                  (quiet_sample 10 [10%Q] (counters 0 0))
                  [] [ConnectFailed OSError]
                  (run ([] ++ [Probe (Connected 20)])
                       true (init 1 (counters 0 0))))))
     = Some COLOR_GOOD.
Proof.
  destruct (connected_probe_rendering
              [] 20 true (init 1 (counters 0 0))
              (quiet_sample 10 [10%Q] (counters 0 0))
              [] [ConnectFailed OSError]
              (fst (update_ui_loop_reads
                      (quiet_sample 10 [10%Q] (counters 0 0))
                      [] [ConnectFailed OSError]
                      (run ([] ++ [Probe (Connected 20)])
                           true (init 1 (counters 0 0))))))
    as (_ & R & _); [vm_compute; reflexivity|].
  destruct R as (T & G & _);
    [reflexivity|now exists [], OSError|vm_compute; discriminate|].
  split; [exact T|]. apply G. vm_compute. reflexivity.
Defined.

(** ** Bars show a fraction *)

Lemma b64_round_nonneg (q : Q) : (0 <= q)%Q -> (0 <= b64_round q)%Q.
Proof.
  intros H. destruct q as [n d].
  destruct (Z.eq_dec n 0) as [->|Hn]; [discriminate|].
  assert (0 < n) as Hp by (unfold Qle in H; simpl in H; lia).
  rewrite b64_round_unfold by (simpl; lia). simpl Qnum. simpl Qden.
  apply Qmult_le_0_compat; [|apply Qlt_le_weak, pow2Q_pos].
  change 0%Q with (inject_Z 0). rewrite <- Zle_Qle.
  apply Zdiv_half_even_lower; [apply scale2_snd_pos; lia|].
  unfold scale2. destruct (0 <=? _); cbn [fst snd]; [lia|].
  apply Z.mul_nonneg_nonneg; [lia|]. apply Z.pow_nonneg. lia.
Qed.

Lemma b64_round_unit (q : Q) :
  (0 <= q)%Q -> (q <= 1)%Q ->
  (0 <= b64_round q)%Q /\ (b64_round q <= 1)%Q.
Proof.
  intros A B. split; [now apply b64_round_nonneg|].
  destruct q as [n d].
  destruct (Z.eq_dec n 0) as [->|Hn]; [discriminate|].
  apply (b64_round_le_pow2 _ 0); [lia| |exact B].
  unfold Qle in A. unfold Qlt. simpl in *. lia.
Qed.

Lemma percent_fraction (p : Q) :
  (0 <= p)%Q -> (p <= 100)%Q ->
  (0 <= b64_round (p / (100 # 1)))%Q /\ (b64_round (p / (100 # 1)) <= 1)%Q.
Proof.
  intros H0 H1. apply b64_round_unit.
  - apply Qle_shift_div_l; [reflexivity|now rewrite Qmult_0_l].
  - apply Qle_shift_div_r; [reflexivity|now rewrite Qmult_1_l].
Qed.

(** X10.  The CPU bars are set to fractions: when the aggregate CPU
    percentage and every per-core percentage of the sample lie in
    [[0, 100]], a pass sets the main CPU bar, and the bar of every core
    that has a widget, to a float in [[0, 1]] (the division by 100 and its
    rounding never leave the unit interval). *)
Theorem cpu_bars_show_fractions (s : Sample) (a : App) :
  (0 <= cpu_percent s)%Q -> (cpu_percent s <= 100)%Q ->
  (forall u, In u (cpu_percent_percpu s) -> (0 <= u)%Q /\ (u <= 100)%Q) ->
  let a' := fst (update_ui_loop s a) in
  (exists v, bar_value (prog_cpu a') = Some (PyFloat v)
             /\ (0 <= v)%Q /\ (v <= 1)%Q)
  /\ (forall i w u,
        nth_error (core_widgets a') i = Some w ->
        nth_error (cpu_percent_percpu s) i = Some u ->
        exists v, bar_value (snd w) = Some (PyFloat v)
                  /\ (0 <= v)%Q /\ (v <= 1)%Q).
Proof.
  intros H0 H1 Hc a'. split.
  - assert (prog_cpu a' = prog_cpu (cpu_header s a)) as EP.
    { unfold a'. rewrite (tick_cpu_frame prog_cpu) by reflexivity.
      rewrite update_cpu_run.
      apply (update_cores_frame prog_cpu). reflexivity. }
    rewrite EP. eexists. split; [reflexivity|].
    now apply percent_fraction.
  - intros i w u Hw Hu.
    assert (core_widgets a'
            = core_widgets
                (fst (update_cores 0 (cpu_percent_percpu s) (cpu_header s a))))
      as EC.
    { unfold a'. rewrite (tick_cpu_frame core_widgets) by reflexivity.
      now rewrite update_cpu_run. }
    rewrite EC in Hw.
    destruct (update_cores_spec (cpu_percent_percpu s) 0 (cpu_header s a))
      as (_ & _ & N).
    rewrite N in Hw. cbn [Nat.leb] in Hw. rewrite Nat.sub_0_r, Hu in Hw.
    destruct (nth_error (core_widgets (cpu_header s a)) i) as [w0|];
      [|discriminate].
    injection Hw as <-. eexists. split; [reflexivity|].
    apply percent_fraction; apply (Hc u); eapply nth_error_In; exact Hu.
Qed.

Lemma cpu_bars_show_fractions_witness :
  exists v,
    bar_value
      (prog_cpu
         (fst (update_ui_loop (quiet_sample 45 [45%Q] (counters 0 0))
                              (init 1 (counters 0 0)))))
    = Some (PyFloat v)
    /\ (0 <= v)%Q /\ (v <= 1)%Q.
Proof.
  assert (0 <= cpu_percent (quiet_sample 45 [45%Q] (counters 0 0)))%Q as H0
    by (cbn; discriminate).
  assert (cpu_percent (quiet_sample 45 [45%Q] (counters 0 0)) <= 100)%Q as H1
    by (cbn; discriminate).
  assert (forall u, In u (cpu_percent_percpu (quiet_sample 45 [45%Q] (counters 0 0)))
                    -> (0 <= u)%Q /\ (u <= 100)%Q) as Hc
    by (intros u [<-|[]]; split; discriminate).
  exact (proj1 (cpu_bars_show_fractions
                  (quiet_sample 45 [45%Q] (counters 0 0))
                  (init 1 (counters 0 0)) H0 H1 Hc)).
Defined.

Lemma core_cell_inj (i j : nat) : core_cell i = core_cell j -> i = j.
Proof.
  unfold core_cell. intros H.
  pose proof (f_equal fst H) as Hd. pose proof (f_equal snd H) as Hm.
  cbn [fst snd] in Hd, Hm.
  pose proof (Nat.div_mod_eq i 4) as Hi. pose proof (Nat.div_mod_eq j 4) as Hj.
  rewrite Hi, Hj, Hd, Hm. reflexivity.
Qed.

(** X11.  The frames of the cores lie in distinct cells of a grid of four
    columns: [create_cpu_section] places as many frames as it records
    widgets, no two of them in the same cell (row [i // 4], column
    [i % 4]), every one in a column below 4 and, because of the cap of 32
    cores, in a row below 8. *)
Theorem core_frames_in_distinct_cells (cpu_count : nat) :
  List.length (core_cells cpu_count)
  = List.length (create_cpu_section cpu_count)
  /\ NoDup (core_cells cpu_count)
  /\ forall cell, In cell (core_cells cpu_count) ->
                  (fst cell < 8)%nat /\ (snd cell < 4)%nat.
Proof.
  unfold core_cells, create_cpu_section. split; [|split].
  - now rewrite !length_map.
  - apply NoDup_map_NoDup_ForallPairs; [|apply seq_NoDup].
    intros i j _ _. apply core_cell_inj.
  - intros cell I. apply in_map_iff in I as (i & <- & I).
    apply in_seq in I. cbn [core_cell fst snd]. split.
    + apply Nat.Div0.div_lt_upper_bound. lia.
    + apply Nat.mod_upper_bound. lia.
Qed.

(** ** Substrings *)

Lemma prefix_iff (n h : string) :
  prefix n h = true <-> exists post, h = n ++ post.
Proof.
  revert h. induction n as [|c n IH]; intros h.
  - split; [intros _; now exists h|intros _; now destruct h].
  - destruct h as [|c' h]; cbn [prefix].
    + split; [discriminate|intros [post E]; discriminate].
    + destruct (ascii_dec c c') as [->|N].
      * rewrite IH. split; intros [post E]; exists post;
          cbn [append] in *; congruence.
      * split; [discriminate|]. intros [post E]. cbn [append] in E.
        congruence.
Qed.

Lemma str_contains_iff (n h : string) :
  str_contains n h = true <-> exists pre post, h = pre ++ n ++ post.
Proof.
  induction h as [|c h IH]; cbn [str_contains]; rewrite orb_true_iff.
  - rewrite prefix_iff. split.
    + intros [[post E]|D]; [|discriminate]. now exists EmptyString, post.
    + intros (pre & post & E). left. destruct pre; [now exists post|].
      discriminate.
  - rewrite prefix_iff, IH. split.
    + intros [[post E]|(pre & post & E)].
      * now exists EmptyString, post.
      * exists (String c pre), post. cbn [append]. now rewrite E.
    + intros (pre & post & E). destruct pre as [|c' pre].
      * left. now exists post.
      * right. exists pre, post. cbn [append] in E. congruence.
Qed.

Lemma excluded_true_iff (p : sdiskpart) :
  excluded p = true
  <-> (exists pre post, opts p = pre ++ "cdrom" ++ post)
      \/ fstype p = EmptyString.
Proof.
  unfold excluded. rewrite orb_true_iff, str_contains_iff, String.eqb_eq.
  reflexivity.
Qed.

Lemma shown_iff (s : Sample) (q : sdiskpart) :
  shown s q = true
  <-> ~ ((exists pre post, opts q = pre ++ "cdrom" ++ post)
         \/ fstype q = EmptyString)
      /\ exists u, disk_usage s (mountpoint q) = Returns u.
Proof.
  rewrite <- excluded_true_iff. unfold shown.
  destruct (excluded q); cbn [negb andb].
  - split; [discriminate|]. intros [N _]. now contradiction N.
  - destruct (disk_usage s (mountpoint q)) as [u|e].
    + split; [|reflexivity]. intros _. split; [discriminate|now exists u].
    + split; [discriminate|]. intros [_ [u U]]. discriminate.
Qed.

Lemma In_fold_add_key (d : string) (l ks : list string) :
  In d (fold_left (fun acc k => add_key k acc) l ks) <-> In d ks \/ In d l.
Proof.
  revert ks. induction l as [|x l IH]; intros ks; cbn [fold_left].
  - cbn [In]. tauto.
  - rewrite IH. unfold add_key. destruct (mem_str x ks) eqn:E.
    + apply mem_str_In in E. cbn [In]. split; [tauto|].
      intros [H|[<-|H]]; tauto.
    + rewrite in_app_iff. cbn [In]. tauto.
Qed.

(** X12.  Which partitions the drive scan leaves out.  The body of the
    scan returns at once, without any effect and whatever the usage query
    would answer, for every sample and state, exactly when the text
    [cdrom] occurs somewhere in the mount options of the partition or its
    file system type is the empty string.  And a device has a row after a
    drive scan exactly when it had one before, or the sample has a
    partition of that device that is not left out in this way and whose
    usage query answers. *)
Theorem drive_scan_filter :
  (forall p : sdiskpart,
      (exists pre post, opts p = pre ++ "cdrom" ++ post)
      \/ fstype p = EmptyString
      <-> forall (s : Sample) (a : App), drive_body s p a = (a, Returns tt))
  /\ (forall (s : Sample) (a : App) (d : string),
         dict_mem d (drive_widgets (fst (update_storage s a))) = true
         <-> dict_mem d (drive_widgets a) = true
             \/ exists q,
                  In q (disk_partitions s) /\ device q = d
                  /\ ~ ((exists pre post, opts q = pre ++ "cdrom" ++ post)
                        \/ fstype q = EmptyString)
                  /\ exists u, disk_usage s (mountpoint q) = Returns u).
Proof.
  split.
  - intros p. rewrite <- excluded_true_iff. split.
    + intros E s a. unfold drive_body. now rewrite E.
    + intros H. destruct (excluded p) eqn:E; [reflexivity|].
      specialize (H (quiet_sample 0 [] (counters 0 0)) (init 0 (counters 0 0))).
      unfold drive_body in H. rewrite E in H. discriminate.
  - intros s a d. rewrite update_storage_steps. cbn [fst].
    destruct (fold_steps_keys s (disk_partitions s) a) as [K _].
    rewrite !dict_mem_keys, K, !mem_str_In, In_fold_add_key, in_map_iff.
    split; (intros [H|H]; [now left|right]).
    + destruct H as (q & D & I). apply filter_In in I as [I S].
      apply shown_iff in S. exists q. tauto.
    + destruct H as (q & I & D & N & U). exists q. split; [exact D|].
      apply filter_In. split; [exact I|]. apply shown_iff. tauto.
Qed.

(** ** The uptime text *)

Lemma before_dot_app (s t : string) :
  before_dot s = s -> before_dot (s ++ t) = s ++ before_dot t.
Proof.
  induction s as [|c s IH]; cbn [before_dot append]; [reflexivity|].
  destruct (Ascii.eqb c "."); [discriminate|].
  intros H. injection H as H. now rewrite IH.
Qed.

Lemma before_dot_uint (d : Decimal.uint) :
  before_dot (NilEmpty.string_of_uint d) = NilEmpty.string_of_uint d.
Proof.
  induction d; cbn [NilEmpty.string_of_uint before_dot]; [reflexivity|..];
    cbn [Ascii.eqb Bool.eqb]; now rewrite IHd.
Qed.

Lemma before_dot_Zstr (n : Z) : before_dot (Zstr n) = Zstr n.
Proof.
  unfold Zstr, NilZero.string_of_int, NilZero.string_of_uint.
  destruct (Z.to_int n) as [d|d]; destruct d;
    try reflexivity;
    try (apply before_dot_uint);
    cbn [before_dot]; cbn [Ascii.eqb Bool.eqb]; f_equal; apply before_dot_uint.
Qed.

Lemma before_dot_zeros (k : nat) : before_dot (zeros k) = zeros k.
Proof. induction k; cbn [zeros before_dot]; [reflexivity|]. cbn. now rewrite IHk. Qed.

Lemma before_dot_pad0 (w : nat) (n : Z) :
  before_dot (pad0 w (Zstr n)) = pad0 w (Zstr n).
Proof.
  unfold pad0. rewrite before_dot_app by apply before_dot_zeros.
  now rewrite before_dot_Zstr.
Qed.

Lemma before_dot_free_app (s t : string) :
  before_dot s = s -> before_dot t = t -> before_dot (s ++ t) = s ++ t.
Proof. intros Hs Ht. now rewrite before_dot_app, Ht. Qed.

Lemma before_dot_cut (s t : string) :
  before_dot s = s -> before_dot (s ++ "." ++ t) = s.
Proof.
  change ("." ++ t) with (String "." t).
  induction s as [|c s IH]; cbn [before_dot append]; [reflexivity|].
  destruct (Ascii.eqb c "."); [discriminate|].
  intros H. injection H as H. now rewrite IH.
Qed.

Ltac dotfree :=
  repeat first
    [ apply before_dot_Zstr
    | apply before_dot_pad0
    | reflexivity
    | apply before_dot_free_app
    | progress (cbn [append before_dot Ascii.eqb Bool.eqb]); f_equal ].

Lemma timedelta_whole_seconds (us : Z) :
  timedelta_of_microseconds (us / 1000000 * 1000000)
  = {| td_days := us / 86400000000;
       td_seconds := (us / 1000000) mod 86400;
       td_microseconds := 0 |}.
Proof.
  unfold timedelta_of_microseconds. f_equal.
  - replace 86400000000 with (1000000 * 86400) by reflexivity.
    rewrite <- !Z.div_div by lia. now rewrite Z.div_mul by lia.
  - now rewrite Z.div_mul by lia.
  - apply Z.mod_mul. lia.
Qed.

Lemma get_system_uptime_whole_seconds (now boot : Z) :
  get_system_uptime now boot
  = timedelta_str
      (timedelta_of_microseconds ((now - boot) / 1000000 * 1000000)).
Proof.
  unfold get_system_uptime. rewrite timedelta_whole_seconds.
  unfold timedelta_str, timedelta_of_microseconds.
  cbn [td_days td_seconds td_microseconds]. cbv zeta.
  change (0 =? 0) with true. cbv iota.
  set (us := now - boot).
  destruct (us mod 1000000 =? 0);
    [|apply before_dot_cut];
    destruct (us / 86400000000 =? 0);
    try destruct (Z.abs (us / 86400000000) =? 1);
    dotfree.
Qed.

Example get_system_uptime_values :
  get_system_uptime 93784500000 0 = "1 day, 2:03:04"
  /\ get_system_uptime 3723000001 0 = "1:02:03"
  /\ get_system_uptime 259200000000 0 = "3 days, 0:00:00"
  /\ get_system_uptime 0 1500000 = "-1 day, 23:59:58".
Proof. repeat split; vm_compute; reflexivity. Qed.

Lemma tick_uptime_label (s : Sample) (a a' : App) :
  update_ui_loop s a = (a', Returns tt) ->
  text (lbl_uptime a') = "System Uptime: " ++ system_uptime s.
Proof.
  intros H. unfold update_ui_loop in H.
  apply mbind_returns in H as (a1 & [] & H1 & H).
  apply mbind_returns in H as (a2 & [] & H2 & H).
  apply mbind_returns in H as (a3 & [] & H3 & H).
  apply mbind_returns in H as (a4 & [] & H4 & H).
  apply mbind_returns in H as (a5 & [] & H5 & H).
  unfold update_uptime, modify in H. injection H as <-. reflexivity.
Qed.

(** X13.  [get_system_uptime] shows the elapsed time rounded down to a
    whole second: its result is the text that [str] gives for the
    timedelta of the whole seconds of [now - boot] (days, when there are
    any, then [H:MM:SS]), it contains no dot, and a completed pass of
    [update_ui_loop] that obtained it shows it behind [System Uptime: ].
    This holds for negative differences too (a clock set back), where the
    rounding is towards minus infinity. *)
Theorem uptime_is_whole_seconds (now boot : Z) :
  get_system_uptime now boot
  = timedelta_str
      (timedelta_of_microseconds ((now - boot) / 1000000 * 1000000))
  /\ before_dot (get_system_uptime now boot) = get_system_uptime now boot
  /\ forall (s : Sample) (a a' : App),
       system_uptime s = get_system_uptime now boot ->
       update_ui_loop s a = (a', Returns tt) ->
       text (lbl_uptime a')
       = "System Uptime: "
         ++ timedelta_str
              (timedelta_of_microseconds ((now - boot) / 1000000 * 1000000)).
Proof.
  split; [apply get_system_uptime_whole_seconds|]. split.
  - rewrite get_system_uptime_whole_seconds, timedelta_whole_seconds.
    unfold timedelta_str. cbn [td_days td_seconds td_microseconds]. cbv zeta.
    change (0 =? 0) with true. cbv iota.
    destruct ((now - boot) / 86400000000 =? 0);
      try destruct (Z.abs ((now - boot) / 86400000000) =? 1);
      dotfree.
  - intros s a a' U H. rewrite (tick_uptime_label s a a' H), U.
    now rewrite get_system_uptime_whole_seconds.
Qed.

(** ** The latency label before the first probe *)


